(** * A shallow embedding of the board prototype in [main.py]

    Python objects live in three arenas (surfaces, tiles, pieces) and are
    referred to by their position in the arena, so that the aliasing between
    the board's dictionaries, the highlighted tile, the selected piece and the
    mutual tile/piece links is the one of the program.  Methods are functions
    from a [Game] to a [result]: an exception aborts the run. *)

From stdpp Require Import base list strings gmap.
From Stdlib Require Import ZArith.

Local Open Scope Z_scope.

(** ** Exceptions and results *)

Inductive exn : Type :=
  | RuntimeError (msg : string)
  | AttributeError
  | KeyError
  | IndexError
  | DanglingRef.

Inductive result (A : Type) : Type :=
  | Ok (a : A)
  | Raise (e : exn).

Arguments Ok {A} a.
Arguments Raise {A} e.

Definition bind {A B : Type} (m : result A) (k : A -> result B) : result B :=
  match m with
  | Ok a => k a
  | Raise e => Raise e
  end.

Notation "'let*' x ':=' m 'in' k" := (bind m (fun x => k))
  (at level 10, x name, m at level 100, k at level 200).

(** [obj.attr] on an optional object: [None] has no attributes. *)
Definition attr_of {A : Type} (o : option A) : result A :=
  match o with
  | Some a => Ok a
  | None => Raise AttributeError
  end.

(** Reading an arena through a reference. *)
Definition deref {A : Type} (h : list A) (r : nat) : result A :=
  match h !! r with
  | Some a => Ok a
  | None => Raise DanglingRef
  end.

(** A [for] loop over a list whose body may raise. *)
Fixpoint for_each {A S : Type} (l : list A) (body : A -> S -> result S) (s : S)
  : result S :=
  match l with
  | [] => Ok s
  | a :: l' => let* s' := body a s in for_each l' body s'
  end.

(** ** Insertion-ordered dictionaries *)

Section Dict.
Context {V : Type}.

Definition dict : Type := list (nat * V).

Fixpoint dict_get (k : nat) (d : dict) : option V :=
  match d with
  | [] => None
  | (k', v) :: d' => if Nat.eqb k k' then Some v else dict_get k d'
  end.

(** [d[k] = v]: an existing key keeps its place, a new one goes last. *)
Fixpoint dict_set (k : nat) (v : V) (d : dict) : dict :=
  match d with
  | [] => [(k, v)]
  | (k', v') :: d' =>
      if Nat.eqb k k' then (k', v) :: d' else (k', v') :: dict_set k v d'
  end.

Definition dict_values (d : dict) : list V := map snd d.

(** [d[k]] *)
Definition dict_item (k : nat) (d : dict) : result V :=
  match dict_get k d with
  | Some v => Ok v
  | None => Raise KeyError
  end.
End Dict.

Arguments dict V : clear implicits.

(** The keys of a dictionary, in the order [for k in d] walks them. *)
Definition dict_keys {V : Type} (d : dict V) : list nat := map fst d.

(** ** Constants *)

Definition DISPLAY_WIDTH : Z := 800.
Definition DISPLAY_HEIGHT : Z := 600.
(** [GAME_BOARD_X] is [DISPLAY_WIDTH / 1.5], a float (533.33...); a tile keeps
    the float in [_x] and its rectangle keeps the integer part, which is what
    the pointer is compared with.  Positions are integers here: the integer
    part is kept on both sides. *)
Definition GAME_BOARD_X : Z := DISPLAY_WIDTH * 10 / 15.
Definition GAME_BOARD_Y : Z := DISPLAY_HEIGHT / 2.
Definition GAME_BOARD_TILE_WIDTH : Z := 32.
Definition GAME_BOARD_TILE_HEIGHT : Z := 32.
Definition GAME_BOARD_TILE_ALPHA_SELECTED : Z := 127.
Definition GAME_BOARD_TILE_ALPHA_NORMAL : Z := 255.
Definition GAME_BOARD_NUM_PIECES : nat := 12.

(** ** The graphics toolkit: surfaces and rectangles *)

Record Surface : Type := mkSurface {
  surf_w : Z;
  surf_h : Z;
  surf_pixels : list Z;
  surf_alpha : option Z
}.

Record Rect : Type := mkRect {
  rect_x : Z;
  rect_y : Z;
  rect_w : Z;
  rect_h : Z
}.

Definition get_rect (s : Surface) : Rect :=
  mkRect 0 0 (surf_w s) (surf_h s).

Definition set_alpha (a : Z) (s : Surface) : Surface :=
  mkSurface (surf_w s) (surf_h s) (surf_pixels s) (Some a).

(** The right and the bottom edge are outside the rectangle. *)
Definition collidepoint (r : Rect) (p : Z * Z) : bool :=
  (rect_x r <=? fst p) && (fst p <? rect_x r + rect_w r) &&
  (rect_y r <=? snd p) && (snd p <? rect_y r + rect_h r).

(** ** Properties, as the [property] builtin builds them

    [property_new f] is [@property] on [f]; [setter p f] is [@p.setter] on
    [f]: a copy of [p] whose setter is [f].  The getter and the setter of a
    property need not talk about the same field, nor about the same type. *)

Record property (O G S : Type) : Type := mkProperty {
  fget : O -> G;
  fset : option (O -> S -> O)
}.

Arguments mkProperty {O G S} fget fset.
Arguments fget {O G S} p.
Arguments fset {O G S} p.

Definition property_new {O G : Type} (f : O -> G) : property O G Empty_set :=
  mkProperty f None.

Definition setter {O G S S' : Type} (p : property O G S) (f : O -> S' -> O)
  : property O G S' :=
  mkProperty (fget p) (Some f).

(** [obj.name] *)
Definition getattr {O G S : Type} (p : property O G S) (self : O) : G :=
  fget p self.

(** [obj.name = v] *)
Definition setattr {O G S : Type} (p : property O G S) (self : O) (v : S)
  : result O :=
  match fset p with
  | Some f => Ok (f self v)
  | None => Raise AttributeError
  end.

(** ** GameMouse *)

Record GameMouse : Type := mkMouse {
  mouse_pressed : bool * bool * bool;
  mouse_last_pressed : bool * bool * bool;
  mouse_pos : Z * Z;
  mouse_last_pos : Z * Z
}.

Definition GameMouse_init : GameMouse :=
  mkMouse (false, false, false) (false, false, false) (0, 0) (0, 0).

(** What [pygame.mouse.get_pressed()] and [pygame.mouse.get_pos()] return
    in one tick. *)
Record Sample : Type := mkSample {
  sample_pressed : bool * bool * bool;
  sample_pos : Z * Z
}.

Definition GameMouse_tick (i : Sample) (m : GameMouse) : GameMouse :=
  mkMouse (sample_pressed i) (mouse_pressed m) (sample_pos i) (mouse_pos m).

(** [pressed[0]] *)
Definition button1 (b : bool * bool * bool) : bool := fst (fst b).

(** ** GameTile *)

Record GameTile : Type := mkTile {
  tile_index : nat;
  tile_surface : option nat;
  tile_rect : option Rect;
  tile_x : Z;
  tile_y : Z;
  tile_layer : nat;
  tile_selected : bool;
  tile_piece : option nat
}.

Definition GameTile_init : GameTile :=
  mkTile 0 None None 0 0 0 false None.

Definition GameTile_set_index (i : nat) (t : GameTile) : GameTile :=
  mkTile i (tile_surface t) (tile_rect t) (tile_x t) (tile_y t)
         (tile_layer t) (tile_selected t) (tile_piece t).

(** The surface setter also takes the surface's rectangle. *)
Definition GameTile_set_surface (r : nat) (s : Surface) (t : GameTile)
  : GameTile :=
  mkTile (tile_index t) (Some r) (Some (get_rect s)) (tile_x t) (tile_y t)
         (tile_layer t) (tile_selected t) (tile_piece t).

Definition GameTile_set_x (x : Z) (t : GameTile) : result GameTile :=
  let* r := attr_of (tile_rect t) in
  Ok (mkTile (tile_index t) (tile_surface t)
             (Some (mkRect x (rect_y r) (rect_w r) (rect_h r)))
             x (tile_y t) (tile_layer t) (tile_selected t) (tile_piece t)).

Definition GameTile_set_y (y : Z) (t : GameTile) : result GameTile :=
  let* r := attr_of (tile_rect t) in
  Ok (mkTile (tile_index t) (tile_surface t)
             (Some (mkRect (rect_x r) y (rect_w r) (rect_h r)))
             (tile_x t) y (tile_layer t) (tile_selected t) (tile_piece t)).

Definition GameTile_set_layer (l : nat) (t : GameTile) : GameTile :=
  mkTile (tile_index t) (tile_surface t) (tile_rect t) (tile_x t) (tile_y t)
         l (tile_selected t) (tile_piece t).

Definition GameTile_set_selected (b : bool) (t : GameTile) : GameTile :=
  mkTile (tile_index t) (tile_surface t) (tile_rect t) (tile_x t) (tile_y t)
         (tile_layer t) b (tile_piece t).

Definition GameTile_set_piece (p : option nat) (t : GameTile) : GameTile :=
  mkTile (tile_index t) (tile_surface t) (tile_rect t) (tile_x t) (tile_y t)
         (tile_layer t) (tile_selected t) p.

(** ** GamePiece: a GameTile with a home tile and a blink flag *)

Record GamePiece : Type := mkPiece {
  piece_base : GameTile;
  piece_tile : option nat;
  piece_blinking : bool
}.

Definition GamePiece_init : GamePiece :=
  mkPiece GameTile_init None false.

Definition on_base (f : GameTile -> GameTile) (p : GamePiece) : GamePiece :=
  mkPiece (f (piece_base p)) (piece_tile p) (piece_blinking p).

Definition on_base_r (f : GameTile -> result GameTile) (p : GamePiece)
  : result GamePiece :=
  let* b := f (piece_base p) in
  Ok (mkPiece b (piece_tile p) (piece_blinking p)).

(** The four decorated functions of the class body, in source order. *)
Definition tile_getter (self : GamePiece) : option nat := piece_tile self.

Definition tile_setter (self : GamePiece) (tile : option nat) : GamePiece :=
  mkPiece (piece_base self) tile (piece_blinking self).

Definition blinking_getter (self : GamePiece) : bool := piece_blinking self.

Definition blinking_setter (self : GamePiece) (blinking : bool) : GamePiece :=
  mkPiece (piece_base self) (piece_tile self) blinking.

(** The class namespace after each decorator has run. *)
Definition GamePiece_tile_1 := property_new tile_getter.
Definition GamePiece_tile := setter GamePiece_tile_1 tile_setter.
Definition GamePiece_blinking_1 := property_new blinking_getter.
(** [@tile.setter def blinking]: built from the property bound to [tile]. *)
Definition GamePiece_blinking := setter GamePiece_tile blinking_setter.

(** ** GameResources *)

Record GameResources : Type := mkResources {
  res_images : gmap string nat;
  res_sounds : gmap string nat
}.

Definition GameResources_init : GameResources := mkResources ∅ ∅.

(** ** The map file, as [pytmx] hands it over

    The images of the map are only ever copied, so the map holds them as
    values. *)
Record TiledMap : Type := mkTiledMap {
  tmx_width : nat;
  tmx_height : nat;
  tmx_layers : nat;
  get_tile_image : nat -> nat -> nat -> option Surface
}.

(** ** GameBoard *)

Record GameBoard : Type := mkBoard {
  board_x : Z;
  board_y : Z;
  board_pieces : dict nat;
  board_piece_selected : option nat;
  board_tmx_data : TiledMap;
  board_tmx_tile_data : dict (dict nat);
  board_tmx_tile_selected : option nat
}.

(** ** The whole program state: the three arenas and the objects of [Game] *)

Record Game : Type := mkGame {
  surfaces : list Surface;
  tiles : list GameTile;
  pieces : list GamePiece;
  mouse : GameMouse;
  resources : GameResources;
  board : GameBoard
}.

Definition with_surfaces (h : list Surface) (g : Game) : Game :=
  mkGame h (tiles g) (pieces g) (mouse g) (resources g) (board g).

Definition with_tiles (h : list GameTile) (g : Game) : Game :=
  mkGame (surfaces g) h (pieces g) (mouse g) (resources g) (board g).

Definition with_pieces (h : list GamePiece) (g : Game) : Game :=
  mkGame (surfaces g) (tiles g) h (mouse g) (resources g) (board g).

Definition with_mouse (m : GameMouse) (g : Game) : Game :=
  mkGame (surfaces g) (tiles g) (pieces g) m (resources g) (board g).

Definition with_resources (r : GameResources) (g : Game) : Game :=
  mkGame (surfaces g) (tiles g) (pieces g) (mouse g) r (board g).

Definition with_board (b : GameBoard) (g : Game) : Game :=
  mkGame (surfaces g) (tiles g) (pieces g) (mouse g) (resources g) b.

Definition board_with_xy (x y : Z) (b : GameBoard) : GameBoard :=
  mkBoard x y (board_pieces b) (board_piece_selected b) (board_tmx_data b)
          (board_tmx_tile_data b) (board_tmx_tile_selected b).

Definition board_with_pieces (d : dict nat) (b : GameBoard) : GameBoard :=
  mkBoard (board_x b) (board_y b) d (board_piece_selected b)
          (board_tmx_data b) (board_tmx_tile_data b)
          (board_tmx_tile_selected b).

Definition board_with_piece_selected (p : option nat) (b : GameBoard)
  : GameBoard :=
  mkBoard (board_x b) (board_y b) (board_pieces b) p (board_tmx_data b)
          (board_tmx_tile_data b) (board_tmx_tile_selected b).

Definition board_with_tile_data (d : dict (dict nat)) (b : GameBoard)
  : GameBoard :=
  mkBoard (board_x b) (board_y b) (board_pieces b) (board_piece_selected b)
          (board_tmx_data b) d (board_tmx_tile_selected b).

Definition board_with_tile_selected (t : option nat) (b : GameBoard)
  : GameBoard :=
  mkBoard (board_x b) (board_y b) (board_pieces b) (board_piece_selected b)
          (board_tmx_data b) (board_tmx_tile_data b) t.

(** *** Arena access *)

(** [Surface.copy()] and object creation: a new object at the end of the
    arena. *)
Definition new_surface (s : Surface) (g : Game) : nat * Game :=
  (length (surfaces g), with_surfaces (surfaces g ++ [s]) g).

Definition new_tile (t : GameTile) (g : Game) : nat * Game :=
  (length (tiles g), with_tiles (tiles g ++ [t]) g).

Definition new_piece (p : GamePiece) (g : Game) : nat * Game :=
  (length (pieces g), with_pieces (pieces g ++ [p]) g).

(** In-place mutation of the object behind a reference. *)
Definition update_surface (r : nat) (f : Surface -> Surface) (g : Game)
  : result Game :=
  let* s := deref (surfaces g) r in
  Ok (with_surfaces (<[r := f s]> (surfaces g)) g).

Definition update_tile (r : nat) (f : GameTile -> result GameTile) (g : Game)
  : result Game :=
  let* t := deref (tiles g) r in
  let* t' := f t in
  Ok (with_tiles (<[r := t']> (tiles g)) g).

Definition update_piece (r : nat) (f : GamePiece -> result GamePiece)
  (g : Game) : result Game :=
  let* p := deref (pieces g) r in
  let* p' := f p in
  Ok (with_pieces (<[r := p']> (pieces g)) g).

(** ** The outside world of one run *)

(** [env_images] and [env_maps] are the files on disk, decoded ([None]: no
    such file); [env_random] is what the random source answers at each
    call. *)
Record Env : Type := mkEnv {
  env_images : string -> option Surface;
  env_maps : string -> option TiledMap;
  env_random : nat -> nat
}.

(** [load_image]: the decoded and converted file as a new surface. *)
Definition load_image (e : Env) (filepath : string) (alpha : bool) (g : Game)
  : result (nat * Game) :=
  match env_images e filepath with
  | None => Raise (RuntimeError ("Failed to find image file: " +:+ filepath +:+ "!"))
  | Some s => Ok (new_surface s g)
  end.

Definition load_map (e : Env) (filepath : string) : result TiledMap :=
  match env_maps e filepath with
  | None => Raise (RuntimeError ("Failed to find tmx file: " +:+ filepath +:+ "!"))
  | Some m => Ok m
  end.

(** *** GameResources methods *)

Definition set_image (name : string) (r : nat) (g : Game) : Game :=
  with_resources
    (mkResources (<[name := r]> (res_images (resources g)))
                 (res_sounds (resources g))) g.

Definition GameResources_setup (e : Env) (g : Game) : result Game :=
  let* rg := load_image e "checker_piece_black.png" true g in
  let g := set_image "piece_black" (fst rg) (snd rg) in
  let* rg := load_image e "checker_piece_black_king.png" true g in
  Ok (set_image "piece_black_king" (fst rg) (snd rg)).

(** The lookup and the copy are both inside the [try]: whatever they raise
    becomes the [RuntimeError]. *)
Definition cached_copy (cache : gmap string nat) (name : string) (g : Game)
  : result (nat * Game) :=
  match cache !! name with
  | None => Raise KeyError
  | Some r => let* s := deref (surfaces g) r in Ok (new_surface s g)
  end.

Definition get_image (name : string) (g : Game) : result (nat * Game) :=
  match cached_copy (res_images (resources g)) name g with
  | Ok rg => Ok rg
  | Raise _ =>
      Raise (RuntimeError ("Failed to get unknown cached image: " +:+ name +:+ "!"))
  end.

Definition get_sound (name : string) (g : Game) : result (nat * Game) :=
  match cached_copy (res_sounds (resources g)) name g with
  | Ok rg => Ok rg
  | Raise _ =>
      Raise (RuntimeError ("Failed to get unknown cached sound: " +:+ name +:+ "!"))
  end.

(** ** GameBoard methods *)

Definition GameBoard_init (e : Env) (filepath : string) : result GameBoard :=
  let* m := load_map e filepath in
  Ok (mkBoard 0 0 [] None m
              (map (fun layer => (layer, [])) (seq 0 (tmx_layers m))) None).

Definition place_tile (x y layer : nat) (surface : Surface) (g : Game)
  : result Game :=
  let tile := GameTile_init in
  let* d := dict_item layer (board_tmx_tile_data (board g)) in
  let tile := GameTile_set_index (length d + 1) tile in
  let sg := new_surface surface g in
  let tile := GameTile_set_surface (fst sg) surface tile in
  let* tile := GameTile_set_x (Z.of_nat x * GAME_BOARD_TILE_WIDTH) tile in
  let* tile := GameTile_set_y (Z.of_nat y * GAME_BOARD_TILE_HEIGHT) tile in
  let tile := GameTile_set_layer layer tile in
  let tg := new_tile tile (snd sg) in
  let g := snd tg in
  let* d := dict_item layer (board_tmx_tile_data (board g)) in
  Ok (with_board
        (board_with_tile_data
           (dict_set layer (dict_set (tile_index tile) (fst tg) d)
                     (board_tmx_tile_data (board g)))
           (board g)) g).

Definition place_piece (tile surface : nat) (g : Game) : result Game :=
  let piece := GamePiece_init in
  let piece :=
    on_base (GameTile_set_index (length (board_pieces (board g)) + 1)) piece in
  let* s := deref (surfaces g) surface in
  let piece := on_base (GameTile_set_surface surface s) piece in
  let* t := deref (tiles g) tile in
  let* piece := on_base_r (GameTile_set_x (tile_x t)) piece in
  let* piece := on_base_r (GameTile_set_y (tile_y t)) piece in
  let pg := new_piece piece g in
  let g := snd pg in
  let g :=
    with_board
      (board_with_pieces
         (dict_set (tile_index (piece_base piece)) (fst pg)
                   (board_pieces (board g)))
         (board g)) g in
  let* g := update_tile tile
              (fun t => Ok (GameTile_set_piece (Some (fst pg)) t)) g in
  update_piece (fst pg) (fun p => setattr GamePiece_tile p (Some tile)) g.

Definition clear_selected_tile (g : Game) : result Game :=
  let* r := attr_of (board_tmx_tile_selected (board g)) in
  let* g := update_tile r (fun t => Ok (GameTile_set_selected false t)) g in
  let* t := deref (tiles g) r in
  let* s := attr_of (tile_surface t) in
  let* g := update_surface s (set_alpha GAME_BOARD_TILE_ALPHA_NORMAL) g in
  Ok (with_board (board_with_tile_selected None (board g)) g).

Definition set_selected_tile (tile : nat) (g : Game) : result Game :=
  let g := with_board (board_with_tile_selected (Some tile) (board g)) g in
  let* g := update_tile tile (fun t => Ok (GameTile_set_selected true t)) g in
  let* t := deref (tiles g) tile in
  let* s := attr_of (tile_surface t) in
  update_surface s (set_alpha GAME_BOARD_TILE_ALPHA_SELECTED) g.

Definition clear_selected_piece (g : Game) : result Game :=
  let* r := attr_of (board_piece_selected (board g)) in
  let* g := update_piece r
              (fun p => Ok (on_base (GameTile_set_selected false) p)) g in
  let* g := update_piece r (fun p => setattr GamePiece_blinking p false) g in
  Ok (with_board (board_with_piece_selected None (board g)) g).

Definition set_selected_piece (piece : option nat) (g : Game) : result Game :=
  let g := with_board (board_with_piece_selected piece (board g)) g in
  let* r := attr_of piece in
  update_piece r (fun p => Ok (on_base (GameTile_set_selected true) p)) g.

Definition move_selected_piece (piece tile : nat) (g : Game) : result Game :=
  let* t := deref (tiles g) tile in
  let* g := update_piece piece (on_base_r (GameTile_set_x (tile_x t))) g in
  let* t := deref (tiles g) tile in
  let* g := update_piece piece (on_base_r (GameTile_set_y (tile_y t))) g in
  let* p := deref (pieces g) piece in
  let* old := attr_of (getattr GamePiece_tile p) in
  let* g := update_tile old (fun t => Ok (GameTile_set_piece None t)) g in
  let* g := update_piece piece
              (fun p => setattr GamePiece_tile p (Some tile)) g in
  let* g := update_tile tile
              (fun t => Ok (GameTile_set_piece (Some piece) t)) g in
  clear_selected_piece g.

(** [GamePiece.tick], on the piece behind a reference. *)
Definition GamePiece_tick (r : nat) (g : Game) : result Game :=
  let* p := deref (pieces g) r in
  let p :=
    if tile_selected (piece_base p)
    then mkPiece (piece_base p) (piece_tile p) (negb (piece_blinking p))
    else p in
  let g := with_pieces (<[r := p]> (pieces g)) g in
  let* s := attr_of (tile_surface (piece_base p)) in
  if piece_blinking p
  then update_surface s (set_alpha GAME_BOARD_TILE_ALPHA_SELECTED) g
  else update_surface s (set_alpha GAME_BOARD_TILE_ALPHA_NORMAL) g.

(** Objects are truthy, [None] is not. *)
Definition truthy {A : Type} (o : option A) : bool :=
  match o with
  | Some _ => true
  | None => false
  end.

(** The body of the highlight loop of [GameBoard.tick]. *)
Definition highlight_tile (tile : nat) (g : Game) : result Game :=
  let* t := deref (tiles g) tile in
  let* r := attr_of (tile_rect t) in
  if collidepoint r (mouse_pos (mouse g)) then
    let* g :=
      if truthy (board_tmx_tile_selected (board g))
      then clear_selected_tile g else Ok g in
    set_selected_tile tile g
  else
    if tile_selected t then clear_selected_tile g else Ok g.

Definition highlight_phase (g : Game) : result Game :=
  let* inner := dict_item 1%nat (board_tmx_tile_data (board g)) in
  for_each (dict_values inner) highlight_tile g.

(** [self._tmx_tile_selected.piece] *)
Definition tile_selected_piece (g : Game) : result (option nat) :=
  let* r := attr_of (board_tmx_tile_selected (board g)) in
  let* t := deref (tiles g) r in
  Ok (tile_piece t).

(** The press edge: released in the previous sample, pressed in this one. *)
Definition press_edge (m : GameMouse) : bool :=
  negb (button1 (mouse_last_pressed m)) && button1 (mouse_pressed m).

(** The conditions of the three [if]s, evaluated left to right. *)
Definition switch_guard (g : Game) : result bool :=
  if button1 (mouse_pressed (mouse g)) then
    if truthy (board_piece_selected (board g)) then
      if truthy (board_tmx_tile_selected (board g)) then
        let* p := tile_selected_piece g in Ok (truthy p)
      else Ok false
    else Ok false
  else Ok false.

Definition select_guard (g : Game) : result bool :=
  if press_edge (mouse g) then
    if negb (truthy (board_piece_selected (board g))) then
      if truthy (board_tmx_tile_selected (board g)) then
        let* p := tile_selected_piece g in Ok (truthy p)
      else Ok false
    else Ok false
  else Ok false.

Definition move_guard (g : Game) : result bool :=
  if press_edge (mouse g) then
    if truthy (board_piece_selected (board g)) then
      if truthy (board_tmx_tile_selected (board g)) then
        let* p := tile_selected_piece g in Ok (negb (truthy p))
      else Ok false
    else Ok false
  else Ok false.

Definition switch_branch (g : Game) : result Game :=
  let* g := clear_selected_piece g in
  let* p := tile_selected_piece g in
  set_selected_piece p g.

Definition select_branch (g : Game) : result Game :=
  let* p := tile_selected_piece g in
  set_selected_piece p g.

Definition move_branch (g : Game) : result Game :=
  let* p := attr_of (board_piece_selected (board g)) in
  let* t := attr_of (board_tmx_tile_selected (board g)) in
  move_selected_piece p t g.

Definition when (guard : Game -> result bool) (branch : Game -> result Game)
  (g : Game) : result Game :=
  let* c := guard g in
  if c then branch g else Ok g.

Definition pieces_tick (g : Game) : result Game :=
  for_each (dict_values (board_pieces (board g))) GamePiece_tick g.

Definition GameBoard_tick (g : Game) : result Game :=
  let* g := highlight_phase g in
  let* g := when switch_guard switch_branch g in
  let* g := when select_guard select_branch g in
  let* g := when move_guard move_branch g in
  pieces_tick g.

(** [random.choice]: the run's random source decides the index. *)
Definition choice {A : Type} (e : Env) (call : nat) (l : list A) : result A :=
  match l !! (env_random e call mod length l)%nat with
  | Some a => Ok a
  | None => Raise IndexError
  end.

Definition place_tiles (g : Game) : result Game :=
  let m := board_tmx_data (board g) in
  for_each (seq 0 (tmx_width m)) (fun x =>
    for_each (seq 0 (tmx_height m)) (fun y =>
      for_each (seq 0 (tmx_layers m)) (fun layer g =>
        match get_tile_image m x y layer with
        | None => Ok g
        | Some surface => place_tile x y layer surface g
        end))) g.

Definition shift_tile (dx dy : Z) (tile : nat) (g : Game) : result Game :=
  let* t := deref (tiles g) tile in
  let* g := update_tile tile (GameTile_set_x (tile_x t + dx)) g in
  let* t := deref (tiles g) tile in
  update_tile tile (GameTile_set_y (tile_y t + dy)) g.

Definition GameBoard_setup (e : Env) (g : Game) : result Game :=
  let* g := place_tiles g in
  let* outer := dict_item 0%nat (board_tmx_tile_data (board g)) in
  let* inner := dict_item 1%nat (board_tmx_tile_data (board g)) in
  let outer_tiles := dict_values outer in
  let inner_tiles := dict_values inner in
  let all_tiles := outer_tiles ++ inner_tiles in
  let x_modd := Z.of_nat (length all_tiles) + GAME_BOARD_TILE_WIDTH in
  let y_modd := Z.of_nat (length all_tiles) + GAME_BOARD_TILE_HEIGHT in
  let* g := for_each all_tiles
              (shift_tile (board_x (board g) - x_modd)
                          (board_y (board g) - y_modd)) g in
  for_each (seq 0 GAME_BOARD_NUM_PIECES) (fun index g =>
    let* tile := choice e index inner_tiles in
    let* sg := get_image "piece_black" g in
    place_piece tile (fst sg) (snd sg)) g.

(** ** Game *)

Definition Game_init (e : Env) : result Game :=
  let* b := GameBoard_init e "wood_board.tmx" in
  Ok (mkGame [] [] [] GameMouse_init GameResources_init
             (board_with_xy GAME_BOARD_X GAME_BOARD_Y b)).

Definition Game_setup (e : Env) (g : Game) : result Game :=
  let* g := GameResources_setup e g in
  GameBoard_setup e g.

Definition Game_tick (i : Sample) (g : Game) : result Game :=
  GameBoard_tick (with_mouse (GameMouse_tick i (mouse g)) g).

(** A run: construction, setup, then one tick per sample of the mouse. *)
Definition Game_run (e : Env) (samples : list Sample) : result Game :=
  let* g := Game_init e in
  let* g := Game_setup e g in
  for_each samples Game_tick g.

Definition reachable (g : Game) : Prop :=
  exists e samples, Game_run e samples = Ok g.

(** ** Drawing *)

(** [display.blit(source, (x, y))]: the display is the list of the blits it
    was asked for since it was last filled. *)
Record Blit : Type := mkBlit {
  blit_source : option nat;
  blit_x : Z;
  blit_y : Z
}.

Definition tile_blit (t : GameTile) : Blit :=
  mkBlit (tile_surface t) (tile_x t) (tile_y t).

Definition blit_all {A : Type} (arena : list A) (shape : A -> GameTile)
  (refs : list nat) (display : list Blit) : result (list Blit) :=
  for_each refs (fun r display =>
    let* a := deref arena r in
    Ok (display ++ [tile_blit (shape a)])) display.

Definition GameBoard_draw (g : Game) (display : list Blit)
  : result (list Blit) :=
  let data := board_tmx_tile_data (board g) in
  let* display :=
    for_each (dict_keys data) (fun layer display =>
      let* d := dict_item layer data in
      blit_all (tiles g) id (dict_values d) display) display in
  blit_all (pieces g) piece_base (dict_values (board_pieces (board g))) display.

(** [Game.draw], on the display [Game.run] has just filled. *)
Definition Game_draw (g : Game) : result (list Blit) := GameBoard_draw g [].

(** [Game.run] with the drawing of every frame. *)
Definition Game_loop (e : Env) (samples : list Sample) : result Game :=
  let* g := Game_init e in
  let* g := Game_setup e g in
  for_each samples (fun i g =>
    let* g := Game_tick i g in
    let* _ := Game_draw g in
    Ok g) g.

(** * Vocabulary of the specification *)

Definition cache_valid (g : Game) : Prop :=
  forall n r, res_images (resources g) !! n = Some r -> (r < length (surfaces g))%nat.

Definition not_found (name : string) : exn :=
  RuntimeError ("Failed to get unknown cached image: " +:+ name +:+ "!").

(** Effect of the four selection primitives. *)

Definition cleared_tile (g : Game) (r s : nat) (tl : GameTile) (sf : Surface) : Game :=
  mkGame (<[s := set_alpha GAME_BOARD_TILE_ALPHA_NORMAL sf]> (surfaces g))
         (<[r := GameTile_set_selected false tl]> (tiles g))
         (pieces g) (mouse g) (resources g)
         (board_with_tile_selected None (board g)).

Definition marked_tile (g : Game) (r s : nat) (tl : GameTile) (sf : Surface) : Game :=
  mkGame (<[s := set_alpha GAME_BOARD_TILE_ALPHA_SELECTED sf]> (surfaces g))
         (<[r := GameTile_set_selected true tl]> (tiles g))
         (pieces g) (mouse g) (resources g)
         (board_with_tile_selected (Some r) (board g)).

Definition cleared_piece (g : Game) (r : nat) (pc : GamePiece) : Game :=
  mkGame (surfaces g) (tiles g)
         (<[r := mkPiece (GameTile_set_selected false (piece_base pc))
                         (piece_tile pc) false]> (pieces g))
         (mouse g) (resources g)
         (board_with_piece_selected None (board g)).

Definition marked_piece (g : Game) (r : nat) (pc : GamePiece) : Game :=
  mkGame (surfaces g) (tiles g)
         (<[r := on_base (GameTile_set_selected true) pc]> (pieces g))
         (mouse g) (resources g)
         (board_with_piece_selected (Some r) (board g)).

Definition tile_ok (g : Game) (tl : GameTile) : Prop :=
  is_Some (tile_rect tl) /\
  exists s, tile_surface tl = Some s /\ (s < length (surfaces g))%nat.

Definition inner_tiles (g : Game) : list nat :=
  match dict_get 1%nat (board_tmx_tile_data (board g)) with
  | Some d => dict_values d
  | None => []
  end.

Record board_inv (g : Game) : Prop := mk_board_inv {
  inv_cache : cache_valid g;
  inv_layers : is_Some (dict_get 1%nat (board_tmx_tile_data (board g)));
  inv_inner : forall t, t ∈ inner_tiles g -> (t < length (tiles g))%nat;
  inv_tiles : forall t tl, tiles g !! t = Some tl -> tile_ok g tl;
  inv_surf_inj : forall t1 t2 a b,
    tiles g !! t1 = Some a -> tiles g !! t2 = Some b ->
    tile_surface a = tile_surface b -> t1 = t2;
  inv_pieces : forall p pc, pieces g !! p = Some pc -> tile_ok g (piece_base pc);
  inv_pieces_dict : forall p,
    p ∈ dict_values (board_pieces (board g)) -> (p < length (pieces g))%nat;
  inv_tile_sel : forall t,
    board_tmx_tile_selected (board g) = Some t -> t ∈ inner_tiles g;
  inv_tile_flag : forall t tl, tiles g !! t = Some tl ->
    (tile_selected tl = true <-> board_tmx_tile_selected (board g) = Some t);
  inv_piece_flag : forall p pc, pieces g !! p = Some pc ->
    (tile_selected (piece_base pc) = true <->
     board_piece_selected (board g) = Some p);
  inv_occupant : forall t tl p,
    tiles g !! t = Some tl -> tile_piece tl = Some p ->
    exists pc, pieces g !! p = Some pc /\ piece_tile pc = Some t;
  inv_piece_sel : forall p,
    board_piece_selected (board g) = Some p ->
    exists pc t tl, pieces g !! p = Some pc /\ piece_tile pc = Some t /\
                    tiles g !! t = Some tl /\ tile_piece tl = Some p
}.

Definition tile_strip (t : GameTile) : GameTile := GameTile_set_selected false t.

Definition piece_strip (p : GamePiece) : GamePiece :=
  mkPiece (tile_strip (piece_base p)) (piece_tile p) false.

(** What the selection machinery leaves alone. *)
Record frame (g g' : Game) : Prop := mk_frame {
  fr_resources : resources g' = resources g;
  fr_mouse : mouse g' = mouse g;
  fr_surfaces : length (surfaces g') = length (surfaces g);
  fr_tiles : tile_strip <$> tiles g' = tile_strip <$> tiles g;
  fr_pieces : piece_strip <$> pieces g' = piece_strip <$> pieces g;
  fr_bpieces : board_pieces (board g') = board_pieces (board g);
  fr_data : board_tmx_tile_data (board g') = board_tmx_tile_data (board g)
}.

Definition same_pieces (g g' : Game) : Prop :=
  pieces g' = pieces g /\
  board_piece_selected (board g') = board_piece_selected (board g).

Definition same_tiles (g g' : Game) : Prop :=
  tiles g' = tiles g /\
  board_tmx_tile_selected (board g') = board_tmx_tile_selected (board g).

(** The transparency of the surface a tile draws. *)
Definition tile_alpha (g : Game) (t : nat) : option (option Z) :=
  match tiles g !! t with
  | Some tl =>
      match tile_surface tl with
      | Some s => surf_alpha <$> surfaces g !! s
      | None => None
      end
  | None => None
  end.

(** Whether the pointer is over a tile. *)
Definition tile_hit (g : Game) (t : nat) : bool :=
  match tiles g !! t with
  | Some tl =>
      match tile_rect tl with
      | Some r => collidepoint r (mouse_pos (mouse g))
      | None => false
      end
  | None => false
  end.

(** The highlighted tile after the loop body has seen tile [t]. *)
Definition highlight_next (g : Game) (sel : option nat) (t : nat) : option nat :=
  if tile_hit g t then Some t
  else if decide (sel = Some t) then None else sel.

Definition keeps_normal (g : Game) (u : nat) : Prop :=
  board_tmx_tile_selected (board g) <> Some u ->
  tile_alpha g u = Some (Some GAME_BOARD_TILE_ALPHA_NORMAL).

(** The tiles the pointer is over, in the order of the highlight loop. *)
Definition tiles_under_pointer (g : Game) : list nat :=
  filter (fun t => tile_hit g t = true) (inner_tiles g).

(** No piece carries the selected flag. *)
Definition no_piece_flagged (g : Game) : Prop :=
  forall q pc, pieces g !! q = Some pc -> tile_selected (piece_base pc) = false.

(** ** One tick of a piece *)

Definition ticked_piece (pc : GamePiece) : GamePiece :=
  if tile_selected (piece_base pc)
  then mkPiece (piece_base pc) (piece_tile pc) (negb (piece_blinking pc))
  else pc.

Definition blink_alpha (pc : GamePiece) : Z :=
  if piece_blinking pc then GAME_BOARD_TILE_ALPHA_SELECTED
  else GAME_BOARD_TILE_ALPHA_NORMAL.

Definition ticked (g : Game) (r s : nat) (pc : GamePiece) (sf : Surface) : Game :=
  mkGame (<[s := set_alpha (blink_alpha (ticked_piece pc)) sf]> (surfaces g))
         (tiles g) (<[r := ticked_piece pc]> (pieces g))
         (mouse g) (resources g) (board g).

(** What a piece is apart from its blink flag. *)
Definition piece_core (p : GamePiece) : GameTile * option nat :=
  (piece_base p, piece_tile p).

(** What the blink animation leaves alone. *)
Record blink_frame (g g' : Game) : Prop := mk_blink_frame {
  bf_tiles : tiles g' = tiles g;
  bf_board : board g' = board g;
  bf_mouse : mouse g' = mouse g;
  bf_resources : resources g' = resources g;
  bf_surfaces : length (surfaces g') = length (surfaces g);
  bf_pieces : piece_core <$> pieces g' = piece_core <$> pieces g
}.

(** ** The move *)

Definition moved_piece (pc : GamePiece) (rc : Rect) (t : nat) (tl : GameTile)
  : GamePiece :=
  mkPiece
    (mkTile (tile_index (piece_base pc)) (tile_surface (piece_base pc))
            (Some (mkRect (tile_x tl) (tile_y tl) (rect_w rc) (rect_h rc)))
            (tile_x tl) (tile_y tl) (tile_layer (piece_base pc)) false
            (tile_piece (piece_base pc)))
    (Some t) false.

Definition moved (g : Game) (p t old : nat) (pc : GamePiece) (rc : Rect)
  (tl otl : GameTile) : Game :=
  mkGame (surfaces g)
         (<[t := GameTile_set_piece (Some p) tl]>
            (<[old := GameTile_set_piece None otl]> (tiles g)))
         (<[p := moved_piece pc rc t tl]> (pieces g))
         (mouse g) (resources g)
         (board_with_piece_selected None (board g)).

(** The invariant of the setup loops: nothing is selected yet. *)
Record setup_inv (g : Game) : Prop := mk_setup_inv {
  si_cache : cache_valid g;
  si_data : forall layer d t,
    dict_get layer (board_tmx_tile_data (board g)) = Some d ->
    t ∈ dict_values d -> (t < length (tiles g))%nat;
  si_tiles : forall t tl, tiles g !! t = Some tl ->
    tile_ok g tl /\ tile_selected tl = false;
  si_surf_inj : forall t1 t2 a b,
    tiles g !! t1 = Some a -> tiles g !! t2 = Some b ->
    tile_surface a = tile_surface b -> t1 = t2;
  si_pieces : forall p pc, pieces g !! p = Some pc ->
    tile_ok g (piece_base pc) /\ tile_selected (piece_base pc) = false;
  si_pieces_dict : forall p,
    p ∈ dict_values (board_pieces (board g)) -> (p < length (pieces g))%nat;
  si_occupant : forall t tl p,
    tiles g !! t = Some tl -> tile_piece tl = Some p ->
    exists pc, pieces g !! p = Some pc /\ piece_tile pc = Some t;
  si_piece_none : board_piece_selected (board g) = None;
  si_tile_none : board_tmx_tile_selected (board g) = None
}.

Definition new_tile_at (x y layer index sref : nat) (surface : Surface)
  : GameTile :=
  mkTile index (Some sref)
         (Some (mkRect (Z.of_nat x * GAME_BOARD_TILE_WIDTH)
                       (Z.of_nat y * GAME_BOARD_TILE_HEIGHT)
                       (surf_w surface) (surf_h surface)))
         (Z.of_nat x * GAME_BOARD_TILE_WIDTH)
         (Z.of_nat y * GAME_BOARD_TILE_HEIGHT) layer false None.

Definition new_piece_at (index sref tile : nat) (s : Surface) (tl : GameTile)
  : GamePiece :=
  mkPiece
    (mkTile index (Some sref)
            (Some (mkRect (tile_x tl) (tile_y tl) (surf_w s) (surf_h s)))
            (tile_x tl) (tile_y tl) 0 false None)
    (Some tile) false.

Definition placed (g : Game) (tile sref : nat) (s : Surface) (tl : GameTile)
  : Game :=
  mkGame (surfaces g)
         (<[tile := GameTile_set_piece (Some (length (pieces g))) tl]> (tiles g))
         (pieces g ++ [new_piece_at (length (board_pieces (board g)) + 1)
                                    sref tile s tl])
         (mouse g) (resources g)
         (board_with_pieces
            (dict_set (length (board_pieces (board g)) + 1)%nat
                      (length (pieces g)) (board_pieces (board g)))
            (board g)).

Definition demo_image : Surface := mkSurface 32 32 [] None.

(** A board of [w] columns and one row, both layers filled. *)
Definition demo_map (w : nat) : TiledMap :=
  mkTiledMap w 1 2 (fun _ _ _ => Some demo_image).

(** Every file is there; the random source is given. *)
Definition demo_env (w : nat) (rnd : nat -> nat) : Env :=
  mkEnv (fun _ => Some demo_image) (fun _ => Some (demo_map w)) rnd.

Definition press (x y : Z) : Sample := mkSample (true, false, false) (x, y).

Definition release (x y : Z) : Sample := mkSample (false, false, false) (x, y).

Definition empty_game : Game :=
  mkGame [] [] [] GameMouse_init GameResources_init
         (mkBoard 0 0 [] None (demo_map 0) [] None).

Definition run_or_empty (e : Env) (samples : list Sample) : Game :=
  match Game_run e samples with
  | Ok g => g
  | Raise _ => empty_game
  end.

(** The state [Game.tick] hands to [GameBoard.tick]. *)
Definition sampled (i : Sample) (g : Game) : Game :=
  with_mouse (GameMouse_tick i (mouse g)) g.

Definition one_selected (g : Game) : Prop :=
  forall p pc, pieces g !! p = Some pc ->
    (tile_selected (piece_base pc) = true <->
     board_piece_selected (board g) = Some p).

(** Two tiles, pieces dealt alternately. *)
Definition two_tiles : Env := demo_env 2 (fun i => i).

(** Three tiles, every piece dealt on the first. *)
Definition three_tiles : Env := demo_env 3 (fun _ => 0%nat).

Definition after_setup : Game := run_or_empty two_tiles [].

Definition after_press : Game := run_or_empty two_tiles [press 498 265].

Definition after_release : Game :=
  run_or_empty three_tiles [press 498 265; release 498 265].

Definition or_empty (r : result Game) : Game :=
  match r with
  | Ok g => g
  | Raise _ => empty_game
  end.

Definition tile_or_init (g : Game) (t : nat) : GameTile :=
  match tiles g !! t with
  | Some tl => tl
  | None => GameTile_init
  end.

Definition before_select : Game :=
  or_empty (highlight_phase (sampled (press 498 265) after_setup)).

(** ** The elementary state changes of a tick *)

(** A piece taken to a tile, before its selection is cleared. *)
Definition relocated_piece (pc : GamePiece) (rc : Rect) (t : nat)
  (tl : GameTile) : GamePiece :=
  mkPiece
    (mkTile (tile_index (piece_base pc)) (tile_surface (piece_base pc))
            (Some (mkRect (tile_x tl) (tile_y tl) (rect_w rc) (rect_h rc)))
            (tile_x tl) (tile_y tl) (tile_layer (piece_base pc))
            (tile_selected (piece_base pc)) (tile_piece (piece_base pc)))
    (Some t) (piece_blinking pc).

Definition relocated (g : Game) (p t old : nat) (pc : GamePiece) (rc : Rect)
  (tl otl tl2 : GameTile) : Game :=
  mkGame (surfaces g)
         (<[t := GameTile_set_piece (Some p) tl2]>
            (<[old := GameTile_set_piece None otl]> (tiles g)))
         (<[p := relocated_piece pc rc t tl]> (pieces g))
         (mouse g) (resources g) (board g).

Inductive tick_atom : Game -> Game -> Prop :=
  | atom_clear_tile g r s tl sf :
      board_tmx_tile_selected (board g) = Some r ->
      tiles g !! r = Some tl -> tile_surface tl = Some s ->
      surfaces g !! s = Some sf ->
      tick_atom g (cleared_tile g r s tl sf)
  | atom_mark_tile g r s tl sf :
      tiles g !! r = Some tl -> tile_surface tl = Some s ->
      surfaces g !! s = Some sf ->
      tick_atom g (marked_tile g r s tl sf)
  | atom_clear_piece g r pc :
      board_piece_selected (board g) = Some r ->
      pieces g !! r = Some pc ->
      tick_atom g (cleared_piece g r pc)
  | atom_mark_piece g r pc :
      pieces g !! r = Some pc ->
      tick_atom g (marked_piece g r pc)
  | atom_relocate g p t old pc rc tl otl tl2 :
      pieces g !! p = Some pc -> tile_rect (piece_base pc) = Some rc ->
      piece_tile pc = Some old -> tiles g !! old = Some otl ->
      tiles g !! t = Some tl ->
      <[old := GameTile_set_piece None otl]> (tiles g) !! t = Some tl2 ->
      tick_atom g (relocated g p t old pc rc tl otl tl2)
  | atom_blink g r s pc sf :
      pieces g !! r = Some pc ->
      tile_surface (piece_base pc) = Some s ->
      surfaces g !! s = Some sf ->
      tick_atom g (ticked g r s pc sf).

(** What no tick changes in a surface, a tile, a piece and the board. *)
Definition surface_fixed (s : Surface) : Z * Z * list Z :=
  (surf_w s, surf_h s, surf_pixels s).

Definition tile_fixed (t : GameTile) : GameTile :=
  GameTile_set_piece None (GameTile_set_selected false t).

Definition piece_fixed (p : GamePiece)
  : nat * option nat * nat * option nat * option (Z * Z) :=
  (tile_index (piece_base p), tile_surface (piece_base p),
   tile_layer (piece_base p), tile_piece (piece_base p),
   (fun r => (rect_w r, rect_h r)) <$> tile_rect (piece_base p)).

Definition board_fixed (b : GameBoard) : GameBoard :=
  board_with_piece_selected None (board_with_tile_selected None b).

Record stable (g g' : Game) : Prop := mk_stable {
  st_resources : resources g' = resources g;
  st_mouse : mouse g' = mouse g;
  st_board : board_fixed (board g') = board_fixed (board g);
  st_surfaces : surface_fixed <$> surfaces g' = surface_fixed <$> surfaces g;
  st_tiles : tile_fixed <$> tiles g' = tile_fixed <$> tiles g;
  st_pieces : piece_fixed <$> pieces g' = piece_fixed <$> pieces g
}.

(** The pieces dictionary of a board with [n] pieces. *)
Definition piece_keys (n : nat) : dict nat :=
  map (fun i => (S i, i)) (seq 0 n).

(** Pieces are numbered in the order they were created. *)
Definition pieces_numbered (g : Game) : Prop :=
  board_pieces (board g) = piece_keys (length (pieces g)) /\
  forall i pc, pieces g !! i = Some pc -> tile_index (piece_base pc) = S i.

(** The two cached images, and where every other surface is. *)
Record cache_pristine (e : Env) (g : Game) : Prop := mk_cache_pristine {
  cp_sounds : res_sounds (resources g) = ∅;
  cp_images : res_images (resources g)
              = <["piece_black_king" := 1%nat]> (<["piece_black" := 0%nat]> ∅);
  cp_black : surfaces g !! 0%nat = env_images e "checker_piece_black.png";
  cp_king : surfaces g !! 1%nat = env_images e "checker_piece_black_king.png";
  cp_two : (2 <= length (surfaces g))%nat;
  cp_tiles : forall t tl s, tiles g !! t = Some tl ->
               tile_surface tl = Some s -> (2 <= s)%nat;
  cp_pieces : forall p pc s, pieces g !! p = Some pc ->
               tile_surface (piece_base pc) = Some s -> (2 <= s)%nat
}.

(** A piece sits where its home tile is. *)
Definition piece_at_home (g : Game) : Prop :=
  forall p pc t tl,
    pieces g !! p = Some pc -> piece_tile pc = Some t ->
    tiles g !! t = Some tl ->
    tile_x (piece_base pc) = tile_x tl /\ tile_y (piece_base pc) = tile_y tl /\
    exists rc, tile_rect (piece_base pc) = Some rc /\
               rect_x rc = tile_x tl /\ rect_y rc = tile_y tl.

(** A piece that is not selected does not blink. *)
Definition calm (g : Game) : Prop :=
  forall p pc, pieces g !! p = Some pc ->
    tile_selected (piece_base pc) = false -> piece_blinking pc = false.

(** Pieces draw distinct surfaces. *)
Definition piece_surfaces_apart (g : Game) : Prop :=
  (forall p pc s, pieces g !! p = Some pc ->
     tile_surface (piece_base pc) = Some s -> (s < length (surfaces g))%nat) /\
  (forall p q pc qc s,
     pieces g !! p = Some pc -> pieces g !! q = Some qc ->
     tile_surface (piece_base pc) = Some s ->
     tile_surface (piece_base qc) = Some s -> p = q).

(** The surface of piece [p] shows its blink flag. *)
Definition shows_blink (g : Game) (p : nat) : Prop :=
  forall pc, pieces g !! p = Some pc ->
    exists s sf, tile_surface (piece_base pc) = Some s /\
                 surfaces g !! s = Some sf /\
                 surf_alpha sf = Some (blink_alpha pc).

(** ** When setup succeeds *)

(** The map has a tile image somewhere in layer 1. *)
Definition has_inner_tile (m : TiledMap) : Prop :=
  exists x y, (x < tmx_width m)%nat /\ (y < tmx_height m)%nat /\
              is_Some (get_tile_image m x y 1%nat).

(** The board has one dictionary per layer of its map. *)
Definition layers_ok (g : Game) : Prop :=
  forall layer,
    is_Some (dict_get layer (board_tmx_tile_data (board g))) <->
    (layer < tmx_layers (board_tmx_data (board g)))%nat.


(** The state [Game.__init__] builds, and the state with both images
    cached. *)
Definition init_state (m : TiledMap) : Game :=
  mkGame [] [] [] GameMouse_init GameResources_init
         (mkBoard GAME_BOARD_X GAME_BOARD_Y [] None m
                  (map (fun layer => (layer, [])) (seq 0 (tmx_layers m))) None).

Definition loaded_state (m : TiledMap) (s1 s2 : Surface) : Game :=
  mkGame [s1; s2] [] [] GameMouse_init
         (mkResources
            (<["piece_black_king" := 1%nat]> (<["piece_black" := 0%nat]> ∅)) ∅)
         (board (init_state m)).

(** Layer 1 has a tile. *)
Definition inner_nonempty (g : Game) : Prop :=
  exists inner, dict_get 1%nat (board_tmx_tile_data (board g)) = Some inner /\
                dict_values inner <> [].

(** Every tile is registered once, under its own layer and index. *)
Record tiles_registered (g : Game) : Prop := mk_tiles_registered {
  tr_keys : forall layer d,
    dict_get layer (board_tmx_tile_data (board g)) = Some d ->
    dict_keys d = seq 1 (length d);
  tr_nodup : forall layer d,
    dict_get layer (board_tmx_tile_data (board g)) = Some d ->
    NoDup (dict_values d);
  tr_back : forall layer d k t,
    dict_get layer (board_tmx_tile_data (board g)) = Some d ->
    dict_get k d = Some t ->
    exists tl, tiles g !! t = Some tl /\ tile_layer tl = layer /\
               tile_index tl = k;
  tr_forth : forall t tl, tiles g !! t = Some tl ->
    exists d, dict_get (tile_layer tl) (board_tmx_tile_data (board g)) = Some d /\
              dict_get (tile_index tl) d = Some t
}.

(** ** The layout of the board *)

Definition layer_tiles (layer : nat) (g : Game) : list nat :=
  match dict_get layer (board_tmx_tile_data (board g)) with
  | Some d => dict_values d
  | None => []
  end.

(** [all_tiles], [x_modd] and [y_modd] of [GameBoard.setup]. *)
Definition all_tiles (g : Game) : list nat := layer_tiles 0 g ++ layer_tiles 1 g.

Definition x_modd (g : Game) : Z :=
  Z.of_nat (length (all_tiles g)) + GAME_BOARD_TILE_WIDTH.

Definition y_modd (g : Game) : Z :=
  Z.of_nat (length (all_tiles g)) + GAME_BOARD_TILE_HEIGHT.

(** The tile shows a cell of its layer of the map, [dx], [dy] away from the
    cell's place in the grid, and its rectangle is the image's, put there. *)
Definition laid_out (m : TiledMap) (dx dy : Z) (tl : GameTile) : Prop :=
  exists cx cy sf,
    (cx < tmx_width m)%nat /\ (cy < tmx_height m)%nat /\
    get_tile_image m cx cy (tile_layer tl) = Some sf /\
    tile_x tl = Z.of_nat cx * GAME_BOARD_TILE_WIDTH + dx /\
    tile_y tl = Z.of_nat cy * GAME_BOARD_TILE_HEIGHT + dy /\
    tile_rect tl = Some (mkRect (tile_x tl) (tile_y tl) (surf_w sf) (surf_h sf)).

Definition shifted (tl : GameTile) : bool := (tile_layer tl <? 2)%nat.

Definition board_laid_out (m : TiledMap) (dx dy : Z) (g : Game) : Prop :=
  forall t tl, tiles g !! t = Some tl ->
    laid_out m (if shifted tl then dx else 0) (if shifted tl then dy else 0) tl.

(** What setup fixes once the tiles are placed. *)
Definition same_board (g g' : Game) : Prop :=
  board_tmx_data (board g') = board_tmx_data (board g) /\
  board_tmx_tile_data (board g') = board_tmx_tile_data (board g) /\
  board_x (board g') = board_x (board g) /\
  board_y (board g') = board_y (board g).

(** The tiles of a layer, as [draw] meets them. *)
Definition layer_chunk (g : Game) (layer : nat) : list GameTile :=
  omap (fun t => tiles g !! t) (layer_tiles layer g).

Definition drawn_tiles (g : Game) : list GameTile :=
  concat (layer_chunk g <$> seq 0 (tmx_layers (board_tmx_data (board g)))).

Definition layers_listed (g : Game) : Prop :=
  dict_keys (board_tmx_tile_data (board g))
  = seq 0 (tmx_layers (board_tmx_data (board g))).

Definition piece_or_init (g : Game) (p : nat) : GamePiece :=
  match pieces g !! p with
  | Some pc => pc
  | None => GamePiece_init
  end.

Definition after_move : Game := or_empty (Game_tick (press 530 265) after_release).

Definition after_idle : Game := or_empty (Game_tick (release 530 265) after_release).

(** A map of one layer only. *)
Definition one_layer : Env :=
  mkEnv (fun _ => Some demo_image)
        (fun _ => Some (mkTiledMap 2 1 1 (fun _ _ _ => Some demo_image)))
        (fun i => i).

(** A map of two layers whose second layer is empty. *)
Definition no_inner_map : TiledMap :=
  mkTiledMap 2 1 2 (fun _ _ layer => if (layer =? 1)%nat then None
                                     else Some demo_image).

Definition no_inner : Env :=
  mkEnv (fun _ => Some demo_image) (fun _ => Some no_inner_map) (fun i => i).

Definition no_map : Env :=
  mkEnv (fun _ => Some demo_image) (fun _ => None) (fun i => i).

Definition no_images : Env :=
  mkEnv (fun _ => None) (fun _ => Some (demo_map 2)) (fun i => i).

Definition no_king : Env :=
  mkEnv (fun name => if String.eqb name "checker_piece_black.png"
                     then Some demo_image else None)
        (fun _ => Some (demo_map 2)) (fun i => i).

Definition three_tiles_setup : Game := run_or_empty three_tiles [].

Definition after_empty_click : Game :=
  or_empty (Game_tick (press 530 265) three_tiles_setup).

Definition after_switch : Game := or_empty (Game_tick (press 530 265) after_press).

(** * Properties *)

Lemma bind_Ok {A B} (m : result A) (k : A -> result B) b :
  bind m k = Ok b <-> exists a, m = Ok a /\ k a = Ok b.
Proof.
  destruct m as [a|e]; simpl; split.
  - eauto.
  - intros (a' & Ha & Hk). congruence.
  - discriminate.
  - intros (a' & Ha & _). discriminate.
Qed.

Lemma deref_Ok {A} (h : list A) r a : deref h r = Ok a <-> h !! r = Some a.
Proof. unfold deref. destruct (h !! r); split; congruence. Qed.

Lemma get_image_registered name g r s :
  res_images (resources g) !! name = Some r ->
  surfaces g !! r = Some s ->
  get_image name g = Ok (length (surfaces g), with_surfaces (surfaces g ++ [s]) g).
Proof.
  intros Hn Hr. unfold get_image, cached_copy. rewrite Hn.
  unfold deref. rewrite Hr. reflexivity.
Qed.

Lemma get_image_unregistered name g :
  res_images (resources g) !! name = None ->
  get_image name g = Raise (not_found name).
Proof. intros Hn. unfold get_image, cached_copy. rewrite Hn. reflexivity. Qed.

(** C7. In a state whose cache refers to existing surfaces, [get_image name]
    raises the error that names the missing asset exactly when [name] is not
    registered in the image cache; when [name] is registered the call
    returns a new surface equal to the cached one, and leaves the cache and
    every surface that existed before as they were. *)
Theorem get_image_spec (name : string) (g : Game) :
  cache_valid g ->
  (get_image name g = Raise (not_found name) <->
   res_images (resources g) !! name = None) /\
  (forall r, res_images (resources g) !! name = Some r ->
     exists s r' g',
       surfaces g !! r = Some s /\
       get_image name g = Ok (r', g') /\
       surfaces g !! r' = None /\
       surfaces g' !! r' = Some s /\
       resources g' = resources g /\
       (forall k x, surfaces g !! k = Some x -> surfaces g' !! k = Some x)).
Proof.
  intros Hv. split.
  - split.
    + intros Hf. destruct (res_images (resources g) !! name) as [r|] eqn:Hn; [|done].
      destruct (lookup_lt_is_Some_2 (surfaces g) r (Hv _ _ Hn)) as [s Hs].
      rewrite (get_image_registered _ _ _ _ Hn Hs) in Hf. discriminate.
    + intros Hn. by apply get_image_unregistered.
  - intros r Hn.
    destruct (lookup_lt_is_Some_2 (surfaces g) r (Hv _ _ Hn)) as [s Hs].
    exists s, (length (surfaces g)), (with_surfaces (surfaces g ++ [s]) g).
    split; [done|]. split; [by apply (get_image_registered _ _ r)|].
    split; [by apply lookup_ge_None_2|].
    split; [simpl; by rewrite lookup_app_r, Nat.sub_diag|].
    split; [done|].
    intros k x Hk. simpl. by apply lookup_app_l_Some.
Qed.

Lemma update_surface_Ok r f g s :
  surfaces g !! r = Some s ->
  update_surface r f g = Ok (with_surfaces (<[r := f s]> (surfaces g)) g).
Proof. intros H. unfold update_surface, deref. by rewrite H. Qed.

(** C8. Two calls of [get_image] with a registered name return two distinct
    surfaces, both distinct from the cached original and equal to it in
    content; mutating the first in place changes neither the second nor the
    original, and a later call still returns a copy of the original. *)
Theorem get_image_copies_independent (name : string) (g : Game) (r0 : nat) :
  cache_valid g ->
  res_images (resources g) !! name = Some r0 ->
  exists s r1 g1 r2 g2,
    surfaces g !! r0 = Some s /\
    get_image name g = Ok (r1, g1) /\
    get_image name g1 = Ok (r2, g2) /\
    r1 <> r2 /\ r1 <> r0 /\ r2 <> r0 /\
    surfaces g2 !! r1 = Some s /\
    surfaces g2 !! r2 = Some s /\
    forall f : Surface -> Surface, exists g3,
      update_surface r1 f g2 = Ok g3 /\
      surfaces g3 !! r1 = Some (f s) /\
      surfaces g3 !! r2 = Some s /\
      surfaces g3 !! r0 = Some s /\
      exists r3 g4,
        get_image name g3 = Ok (r3, g4) /\ surfaces g4 !! r3 = Some s.
Proof.
  intros Hv Hn.
  pose proof (Hv _ _ Hn) as Hlt.
  destruct (lookup_lt_is_Some_2 (surfaces g) r0 Hlt) as [s Hs].
  set (n := length (surfaces g)) in *.
  set (g1 := with_surfaces (surfaces g ++ [s]) g).
  set (g2 := with_surfaces ((surfaces g ++ [s]) ++ [s]) g).
  assert (H0 : ((surfaces g ++ [s]) ++ [s]) !! r0 = Some s).
  { by do 2 apply lookup_app_l_Some. }
  assert (H1 : ((surfaces g ++ [s]) ++ [s]) !! n = Some s).
  { apply lookup_app_l_Some. unfold n. by rewrite lookup_app_r, Nat.sub_diag. }
  assert (H2 : ((surfaces g ++ [s]) ++ [s]) !! S n = Some s).
  { rewrite lookup_app_r; rewrite length_app; simpl; unfold n; [|lia].
    by replace (S (length (surfaces g)) - (length (surfaces g) + 1))%nat with 0%nat by lia. }
  exists s, n, g1, (S n), g2.
  split; [done|]. split; [by apply (get_image_registered _ _ r0)|].
  split.
  { rewrite (get_image_registered name g1 r0 s); [|done|by apply lookup_app_l_Some].
    simpl. rewrite length_app. simpl. unfold n, g2, g1, with_surfaces. simpl.
    by rewrite Nat.add_1_r. }
  split; [lia|]. split; [lia|]. split; [lia|].
  split; [done|]. split; [done|].
  intros f. eexists. split; [by apply update_surface_Ok|].
  simpl.
  assert (Hn2 : (n < length ((surfaces g ++ [s]) ++ [s]))%nat).
  { rewrite !length_app. simpl. unfold n. lia. }
  split; [by apply list_lookup_insert_eq|].
  split; [by rewrite list_lookup_insert_ne by lia|].
  assert (H0' : <[n:=f s]> ((surfaces g ++ [s]) ++ [s]) !! r0 = Some s).
  { by rewrite list_lookup_insert_ne by lia. }
  split; [done|].
  eexists _, _. split.
  - by apply (get_image_registered _ _ r0).
  - simpl. by rewrite lookup_app_r, Nat.sub_diag.
Qed.

(** The property bound to [blinking]: the getter of [tile], the setter of
    [blinking]. *)
Lemma blinking_property_parts :
  fget GamePiece_blinking = tile_getter /\
  fset GamePiece_blinking = Some blinking_setter.
Proof. split; reflexivity. Qed.

(** C10. Reading a piece's [blinking] property returns the piece's home-tile
    reference: the value read is the [tile] field, whatever the blink flag
    is. *)
Theorem blinking_reads_tile (p : GamePiece) :
  getattr GamePiece_blinking p = piece_tile p /\
  forall b : bool,
    getattr GamePiece_blinking (blinking_setter p b)
    = getattr GamePiece_blinking p.
Proof. split; [reflexivity | intros b; reflexivity]. Qed.

(** C9, as amended. Assigning [v] to a piece's [blinking] property succeeds
    and sets the blink flag to [v], leaving the home-tile reference and every
    other field of the piece as they were: the blink flag is settable from
    outside the piece. *)
Theorem blinking_assignment_sets_flag (p : GamePiece) (v : bool) :
  setattr GamePiece_blinking p v
  = Ok (mkPiece (piece_base p) (piece_tile p) v).
Proof. reflexivity. Qed.

(** C9, as stated, fails: it is not true that an assignment to [blinking]
    leaves the blink flag as it was (a blinking piece assigned [False] stops
    blinking). *)
Lemma blinking_assignment_changes_flag :
  ~ (forall (p p' : GamePiece) (v : bool),
       setattr GamePiece_blinking p v = Ok p' ->
       piece_blinking p' = piece_blinking p).
Proof.
  intros H.
  specialize (H (mkPiece GameTile_init None true)
                (mkPiece GameTile_init None false) false eq_refl).
  discriminate H.
Qed.

Lemma set_selected_piece_frame p g g' :
  set_selected_piece p g = Ok g' ->
  tiles g' = tiles g /\ mouse g' = mouse g /\
  board_tmx_tile_selected (board g') = board_tmx_tile_selected (board g) /\
  board_piece_selected (board g') = p.
Proof.
  unfold set_selected_piece. intros H.
  apply bind_Ok in H as (r & _ & H).
  unfold update_piece in H.
  apply bind_Ok in H as (pc & _ & H). simpl in H.
  by injection H as <-.
Qed.

(** C6. When the condition of the selection branch holds and the branch has
    run, the condition of the move branch is false in the state it leaves, and
    the move step of the same tick does nothing. *)
Theorem select_excludes_move (g g' : Game) :
  select_guard g = Ok true ->
  select_branch g = Ok g' ->
  move_guard g' = Ok false /\ when move_guard move_branch g' = Ok g'.
Proof.
  unfold select_guard, select_branch. intros Hg Hb.
  destruct (press_edge (mouse g)) eqn:He; [|discriminate].
  destruct (truthy (board_piece_selected (board g))) eqn:Hp; [discriminate|].
  destruct (truthy (board_tmx_tile_selected (board g))) eqn:Ht; [|discriminate].
  simpl in Hg.
  apply bind_Ok in Hg as (p & Htp & Hg). injection Hg as Hg.
  apply bind_Ok in Hb as (p' & Htp' & Hb).
  rewrite Htp in Htp'. injection Htp' as <-.
  destruct (set_selected_piece_frame _ _ _ Hb) as (Hti & Hm & Hts & Hps).
  assert (Hmg : move_guard g' = Ok false).
  { unfold move_guard, tile_selected_piece in *.
    rewrite Hm, He, Hps, Hg, Hts, Ht, Hti, Htp. simpl. by rewrite Hg. }
  split; [done|]. unfold when. by rewrite Hmg.
Qed.

Lemma attr_of_Ok {A} (o : option A) a : attr_of o = Ok a <-> o = Some a.
Proof. destruct o; simpl; split; congruence. Qed.

Lemma update_tile_Ok r f g t t' :
  tiles g !! r = Some t -> f t = Ok t' ->
  update_tile r f g = Ok (with_tiles (<[r := t']> (tiles g)) g).
Proof. intros H1 H2. unfold update_tile, deref. rewrite H1. simpl. by rewrite H2. Qed.

Lemma update_tile_inv r f g g' :
  update_tile r f g = Ok g' ->
  exists t t', tiles g !! r = Some t /\ f t = Ok t' /\
               g' = with_tiles (<[r := t']> (tiles g)) g.
Proof.
  unfold update_tile. intros H.
  apply bind_Ok in H as (t & Ht & H). apply deref_Ok in Ht.
  apply bind_Ok in H as (t' & Ht' & H). injection H as <-. eauto.
Qed.

Lemma update_piece_Ok r f g p p' :
  pieces g !! r = Some p -> f p = Ok p' ->
  update_piece r f g = Ok (with_pieces (<[r := p']> (pieces g)) g).
Proof. intros H1 H2. unfold update_piece, deref. rewrite H1. simpl. by rewrite H2. Qed.

Lemma update_piece_inv r f g g' :
  update_piece r f g = Ok g' ->
  exists p p', pieces g !! r = Some p /\ f p = Ok p' /\
               g' = with_pieces (<[r := p']> (pieces g)) g.
Proof.
  unfold update_piece. intros H.
  apply bind_Ok in H as (t & Ht & H). apply deref_Ok in Ht.
  apply bind_Ok in H as (t' & Ht' & H). injection H as <-. eauto.
Qed.

Lemma update_surface_inv r f g g' :
  update_surface r f g = Ok g' ->
  exists s, surfaces g !! r = Some s /\
            g' = with_surfaces (<[r := f s]> (surfaces g)) g.
Proof.
  unfold update_surface. intros H.
  apply bind_Ok in H as (t & Ht & H). apply deref_Ok in Ht.
  injection H as <-. eauto.
Qed.

Lemma lookup_insert_same {A} (l : list A) r x y :
  l !! r = Some x -> <[r := y]> l !! r = Some y.
Proof. intros H. apply list_lookup_insert_eq. by eapply lookup_lt_Some. Qed.

Lemma clear_selected_tile_Ok g r tl s sf :
  board_tmx_tile_selected (board g) = Some r ->
  tiles g !! r = Some tl -> tile_surface tl = Some s ->
  surfaces g !! s = Some sf ->
  clear_selected_tile g = Ok (cleared_tile g r s tl sf).
Proof.
  intros Hsel Ht Hs Hsf. unfold clear_selected_tile. rewrite Hsel. simpl.
  erewrite update_tile_Ok by eauto. simpl.
  unfold deref. rewrite (lookup_insert_same _ _ _ _ Ht). simpl.
  rewrite Hs. simpl. erewrite update_surface_Ok by (simpl; eauto). reflexivity.
Qed.

Lemma clear_selected_tile_inv g g' :
  clear_selected_tile g = Ok g' ->
  exists r tl s sf,
    board_tmx_tile_selected (board g) = Some r /\
    tiles g !! r = Some tl /\ tile_surface tl = Some s /\
    surfaces g !! s = Some sf /\ g' = cleared_tile g r s tl sf.
Proof.
  unfold clear_selected_tile. intros H.
  apply bind_Ok in H as (r & Hr & H). apply attr_of_Ok in Hr.
  apply bind_Ok in H as (g1 & Hg1 & H).
  apply update_tile_inv in Hg1 as (tl & tl' & Htl & Htl' & ->).
  injection Htl' as <-.
  apply bind_Ok in H as (t2 & Ht2 & H). apply deref_Ok in Ht2. simpl in Ht2.
  rewrite (lookup_insert_same _ _ _ _ Htl) in Ht2. injection Ht2 as <-.
  apply bind_Ok in H as (s & Hs & H). apply attr_of_Ok in Hs. simpl in Hs.
  apply bind_Ok in H as (g2 & Hg2 & H).
  apply update_surface_inv in Hg2 as (sf & Hsf & ->). simpl in Hsf.
  injection H as <-. exists r, tl, s, sf. done.
Qed.

Lemma set_selected_tile_Ok g r tl s sf :
  tiles g !! r = Some tl -> tile_surface tl = Some s ->
  surfaces g !! s = Some sf ->
  set_selected_tile r g = Ok (marked_tile g r s tl sf).
Proof.
  intros Ht Hs Hsf. unfold set_selected_tile.
  erewrite update_tile_Ok by (simpl; eauto). simpl.
  unfold deref. rewrite (lookup_insert_same _ _ _ _ Ht). simpl.
  rewrite Hs. simpl. erewrite update_surface_Ok by (simpl; eauto). reflexivity.
Qed.

Lemma set_selected_tile_inv r g g' :
  set_selected_tile r g = Ok g' ->
  exists tl s sf,
    tiles g !! r = Some tl /\ tile_surface tl = Some s /\
    surfaces g !! s = Some sf /\ g' = marked_tile g r s tl sf.
Proof.
  unfold set_selected_tile. intros H.
  apply bind_Ok in H as (g1 & Hg1 & H).
  apply update_tile_inv in Hg1 as (tl & tl' & Htl & Htl' & ->).
  injection Htl' as <-. simpl in Htl.
  apply bind_Ok in H as (t2 & Ht2 & H). apply deref_Ok in Ht2. simpl in Ht2.
  rewrite (lookup_insert_same _ _ _ _ Htl) in Ht2. injection Ht2 as <-.
  apply bind_Ok in H as (s & Hs & H). apply attr_of_Ok in Hs. simpl in Hs.
  apply update_surface_inv in H as (sf & Hsf & ->). simpl in Hsf.
  exists tl, s, sf. done.
Qed.

Lemma clear_selected_piece_Ok g r pc :
  board_piece_selected (board g) = Some r ->
  pieces g !! r = Some pc ->
  clear_selected_piece g = Ok (cleared_piece g r pc).
Proof.
  intros Hsel Hp. unfold clear_selected_piece. rewrite Hsel. simpl.
  erewrite update_piece_Ok by eauto. simpl.
  erewrite update_piece_Ok;
    [|simpl; by apply (lookup_insert_same _ _ _ _ Hp)|reflexivity].
  simpl. unfold cleared_piece. by rewrite list_insert_insert_eq.
Qed.

Lemma clear_selected_piece_inv g g' :
  clear_selected_piece g = Ok g' ->
  exists r pc,
    board_piece_selected (board g) = Some r /\
    pieces g !! r = Some pc /\ g' = cleared_piece g r pc.
Proof.
  unfold clear_selected_piece. intros H.
  apply bind_Ok in H as (r & Hr & H). apply attr_of_Ok in Hr.
  apply bind_Ok in H as (g1 & Hg1 & H).
  apply update_piece_inv in Hg1 as (pc & pc' & Hpc & Hpc' & ->).
  injection Hpc' as <-.
  apply bind_Ok in H as (g2 & Hg2 & H).
  apply update_piece_inv in Hg2 as (pc2 & pc2' & Hpc2 & Hpc2' & ->).
  simpl in Hpc2. rewrite (lookup_insert_same _ _ _ _ Hpc) in Hpc2.
  injection Hpc2 as <-. injection Hpc2' as <-. injection H as <-.
  exists r, pc. split; [done|]. split; [done|].
  unfold cleared_piece. simpl. by rewrite list_insert_insert_eq.
Qed.

Lemma set_selected_piece_Ok g r pc :
  pieces g !! r = Some pc ->
  set_selected_piece (Some r) g = Ok (marked_piece g r pc).
Proof.
  intros Hp. unfold set_selected_piece. simpl.
  erewrite update_piece_Ok by (simpl; eauto). reflexivity.
Qed.

Lemma set_selected_piece_inv p g g' :
  set_selected_piece p g = Ok g' ->
  exists r pc, p = Some r /\ pieces g !! r = Some pc /\ g' = marked_piece g r pc.
Proof.
  unfold set_selected_piece. intros H.
  apply bind_Ok in H as (r & Hr & H). apply attr_of_Ok in Hr.
  apply update_piece_inv in H as (pc & pc' & Hpc & Hpc' & ->).
  injection Hpc' as <-. subst p. exists r, pc. done.
Qed.

Lemma frame_refl g : frame g g.
Proof. by split. Qed.

Lemma frame_trans g1 g2 g3 : frame g1 g2 -> frame g2 g3 -> frame g1 g3.
Proof. intros [] []. split; congruence. Qed.

Lemma fmap_eq_lookup {A B} (f : A -> B) (l l' : list A) i x' :
  f <$> l' = f <$> l -> l' !! i = Some x' ->
  exists x, l !! i = Some x /\ f x = f x'.
Proof.
  intros Heq Hl.
  assert (H : (f <$> l) !! i = Some (f x')).
  { rewrite <- Heq, list_lookup_fmap, Hl. done. }
  apply list_lookup_fmap_Some_1 in H as (x & Hx & Hfx). eauto.
Qed.

Lemma fmap_eq_length {A B} (f : A -> B) (l l' : list A) :
  f <$> l' = f <$> l -> length l' = length l.
Proof. intros H. apply (f_equal length) in H. by rewrite !length_fmap in H. Qed.

Lemma fmap_insert_same {A B} (f : A -> B) (l : list A) i x y :
  l !! i = Some x -> f y = f x -> f <$> <[i := y]> l = f <$> l.
Proof.
  intros Hl Hf. rewrite list_fmap_insert, Hf.
  apply list_insert_id. by rewrite list_lookup_fmap, Hl.
Qed.

Lemma frame_tile g g' t tl' :
  frame g g' -> tiles g' !! t = Some tl' ->
  exists tl, tiles g !! t = Some tl /\
    tile_surface tl = tile_surface tl' /\ tile_rect tl = tile_rect tl' /\
    tile_piece tl = tile_piece tl' /\ tile_x tl = tile_x tl' /\
    tile_y tl = tile_y tl'.
Proof.
  intros Hf Ht.
  destruct (fmap_eq_lookup _ _ _ _ _ (fr_tiles _ _ Hf) Ht) as (tl & Htl & He).
  exists tl. split; [done|].
  repeat split;
    [apply (f_equal tile_surface) in He | apply (f_equal tile_rect) in He
    |apply (f_equal tile_piece) in He | apply (f_equal tile_x) in He
    |apply (f_equal tile_y) in He]; exact He.
Qed.

Lemma frame_piece g g' p pc' :
  frame g g' -> pieces g' !! p = Some pc' ->
  exists pc, pieces g !! p = Some pc /\
    tile_surface (piece_base pc) = tile_surface (piece_base pc') /\
    tile_rect (piece_base pc) = tile_rect (piece_base pc') /\
    piece_tile pc = piece_tile pc' /\
    tile_x (piece_base pc) = tile_x (piece_base pc') /\
    tile_y (piece_base pc) = tile_y (piece_base pc').
Proof.
  intros Hf Ht.
  destruct (fmap_eq_lookup _ _ _ _ _ (fr_pieces _ _ Hf) Ht) as (pc & Hpc & He).
  exists pc. split; [done|].
  repeat split;
    [apply (f_equal (fun x => tile_surface (piece_base x))) in He
    |apply (f_equal (fun x => tile_rect (piece_base x))) in He
    |apply (f_equal piece_tile) in He
    |apply (f_equal (fun x => tile_x (piece_base x))) in He
    |apply (f_equal (fun x => tile_y (piece_base x))) in He]; exact He.
Qed.

Lemma frame_sym g g' : frame g g' -> frame g' g.
Proof. intros []. by split. Qed.

Lemma frame_inner g g' : frame g g' -> inner_tiles g' = inner_tiles g.
Proof. intros Hf. unfold inner_tiles. by rewrite (fr_data _ _ Hf). Qed.

(** The part of the invariant that does not mention the selection flags. *)
Lemma frame_static g g' :
  frame g g' -> board_inv g ->
  cache_valid g' /\
  is_Some (dict_get 1%nat (board_tmx_tile_data (board g'))) /\
  (forall t, t ∈ inner_tiles g' -> (t < length (tiles g'))%nat) /\
  (forall t tl, tiles g' !! t = Some tl -> tile_ok g' tl) /\
  (forall t1 t2 a b,
    tiles g' !! t1 = Some a -> tiles g' !! t2 = Some b ->
    tile_surface a = tile_surface b -> t1 = t2) /\
  (forall p pc, pieces g' !! p = Some pc -> tile_ok g' (piece_base pc)) /\
  (forall p, p ∈ dict_values (board_pieces (board g')) ->
             (p < length (pieces g'))%nat) /\
  (forall t tl p,
    tiles g' !! t = Some tl -> tile_piece tl = Some p ->
    exists pc, pieces g' !! p = Some pc /\ piece_tile pc = Some t).
Proof.
  intros Hf Hi.
  pose proof (fmap_eq_length _ _ _ (fr_tiles _ _ Hf)) as Hlt.
  pose proof (fmap_eq_length _ _ _ (fr_pieces _ _ Hf)) as Hlp.
  repeat split.
  - intros n r. rewrite (fr_resources _ _ Hf), (fr_surfaces _ _ Hf).
    apply (inv_cache _ Hi).
  - rewrite (fr_data _ _ Hf). apply (inv_layers _ Hi).
  - intros t. rewrite (frame_inner _ _ Hf), Hlt. apply (inv_inner _ Hi).
  - destruct (frame_tile _ _ _ _ Hf H) as (tl0 & H0 & _ & Hr & _).
    rewrite <- Hr. by destruct (inv_tiles _ Hi _ _ H0).
  - destruct (frame_tile _ _ _ _ Hf H) as (tl0 & H0 & Hs & _).
    destruct (inv_tiles _ Hi _ _ H0) as (_ & s & Hs' & Hlt').
    exists s. rewrite <- Hs, (fr_surfaces _ _ Hf). done.
  - intros t1 t2 a b Ha Hb Hab.
    destruct (frame_tile _ _ _ _ Hf Ha) as (a0 & Ha0 & Hsa & _).
    destruct (frame_tile _ _ _ _ Hf Hb) as (b0 & Hb0 & Hsb & _).
    apply (inv_surf_inj _ Hi _ _ _ _ Ha0 Hb0). congruence.
  - destruct (frame_piece _ _ _ _ Hf H) as (pc0 & H0 & _ & Hr & _).
    rewrite <- Hr. by destruct (inv_pieces _ Hi _ _ H0).
  - destruct (frame_piece _ _ _ _ Hf H) as (pc0 & H0 & Hs & _).
    destruct (inv_pieces _ Hi _ _ H0) as (_ & s & Hs' & Hlt').
    exists s. rewrite <- Hs, (fr_surfaces _ _ Hf). done.
  - intros p. rewrite (fr_bpieces _ _ Hf), Hlp. apply (inv_pieces_dict _ Hi).
  - intros t tl p Ht Hp.
    destruct (frame_tile _ _ _ _ Hf Ht) as (tl0 & H0 & _ & _ & Hpp & _).
    rewrite <- Hpp in Hp.
    destruct (inv_occupant _ Hi _ _ _ H0 Hp) as (pc & Hpc & Hpt).
    destruct (frame_piece _ _ _ _ (frame_sym _ _ Hf) Hpc) as (pc' & Hpc' & _ & _ & Hpt' & _).
    exists pc'. split; [done|]. congruence.
Qed.

Lemma frame_tile_hit g g' t : frame g g' -> tile_hit g' t = tile_hit g t.
Proof.
  intros Hf. unfold tile_hit. rewrite (fr_mouse _ _ Hf).
  destruct (tiles g' !! t) as [tl'|] eqn:Ht'.
  - destruct (frame_tile _ _ _ _ Hf Ht') as (tl & -> & _ & -> & _). done.
  - destruct (tiles g !! t) as [tl|] eqn:Ht; [|done].
    destruct (frame_tile _ _ _ _ (frame_sym _ _ Hf) Ht) as (tl' & Hx & _).
    congruence.
Qed.

Lemma cleared_tile_frame g r s tl sf :
  tiles g !! r = Some tl ->
  frame g (cleared_tile g r s tl sf) /\ same_pieces g (cleared_tile g r s tl sf).
Proof.
  intros Ht. split; [split; simpl; try done|done].
  - by rewrite length_insert.
  - by apply (fmap_insert_same _ _ _ tl).
Qed.

Lemma marked_tile_frame g r s tl sf :
  tiles g !! r = Some tl ->
  frame g (marked_tile g r s tl sf) /\ same_pieces g (marked_tile g r s tl sf).
Proof.
  intros Ht. split; [split; simpl; try done|done].
  - by rewrite length_insert.
  - by apply (fmap_insert_same _ _ _ tl).
Qed.

Lemma cleared_piece_frame g r pc :
  pieces g !! r = Some pc ->
  frame g (cleared_piece g r pc) /\ same_tiles g (cleared_piece g r pc).
Proof.
  intros Hp. split; [split; simpl; try done|done].
  by apply (fmap_insert_same _ _ _ pc).
Qed.

Lemma marked_piece_frame g r pc :
  pieces g !! r = Some pc ->
  frame g (marked_piece g r pc) /\ same_tiles g (marked_piece g r pc).
Proof.
  intros Hp. split; [split; simpl; try done|done].
  by apply (fmap_insert_same _ _ _ pc).
Qed.

(** Rebuilding the invariant after a step that is framed. *)
Lemma board_inv_framed g g' :
  frame g g' -> board_inv g ->
  (forall t, board_tmx_tile_selected (board g') = Some t -> t ∈ inner_tiles g) ->
  (forall t tl, tiles g' !! t = Some tl ->
     (tile_selected tl = true <-> board_tmx_tile_selected (board g') = Some t)) ->
  (forall p pc, pieces g' !! p = Some pc ->
     (tile_selected (piece_base pc) = true <->
      board_piece_selected (board g') = Some p)) ->
  (forall p, board_piece_selected (board g') = Some p ->
             board_piece_selected (board g) = Some p \/
             exists t tl, tiles g !! t = Some tl /\ tile_piece tl = Some p) ->
  board_inv g'.
Proof.
  intros Hf Hi Hts Htf Hpf Hps.
  destruct (frame_static _ _ Hf Hi) as (H1 & H2 & H3 & H4 & H5 & H6 & H7 & H8).
  split; try done.
  - intros t Ht. rewrite (frame_inner _ _ Hf). by apply Hts.
  - intros p Hp.
    assert (Hex : exists pc t tl, pieces g !! p = Some pc /\ piece_tile pc = Some t /\
                    tiles g !! t = Some tl /\ tile_piece tl = Some p).
    { destruct (Hps _ Hp) as [Hp0|(t & tl & Ht & Htp)].
      - by apply (inv_piece_sel _ Hi).
      - destruct (inv_occupant _ Hi _ _ _ Ht Htp) as (pc & Hpc & Hpt).
        by exists pc, t, tl. }
    destruct Hex as (pc & t & tl & Hpc & Hpt & Htl & Htp).
    destruct (frame_piece _ _ _ _ (frame_sym _ _ Hf) Hpc) as (pc' & Hpc' & _ & _ & Hpt' & _).
    destruct (frame_tile _ _ _ _ (frame_sym _ _ Hf) Htl) as (tl' & Htl' & _ & _ & Htp' & _).
    exists pc', t, tl'. repeat split; congruence.
Qed.

Lemma tile_parts g t :
  board_inv g -> (t < length (tiles g))%nat ->
  exists tl rc s sf,
    tiles g !! t = Some tl /\ tile_rect tl = Some rc /\
    tile_surface tl = Some s /\ surfaces g !! s = Some sf.
Proof.
  intros Hi Hlt. apply lookup_lt_is_Some_2 in Hlt as [tl Htl].
  destruct (inv_tiles _ Hi _ _ Htl) as ([rc Hrc] & s & Hs & Hlt).
  apply lookup_lt_is_Some_2 in Hlt as [sf Hsf].
  by exists tl, rc, s, sf.
Qed.

Lemma piece_parts g p :
  board_inv g -> (p < length (pieces g))%nat ->
  exists pc rc s sf,
    pieces g !! p = Some pc /\ tile_rect (piece_base pc) = Some rc /\
    tile_surface (piece_base pc) = Some s /\ surfaces g !! s = Some sf.
Proof.
  intros Hi Hlt. apply lookup_lt_is_Some_2 in Hlt as [pc Hpc].
  destruct (inv_pieces _ Hi _ _ Hpc) as ([rc Hrc] & s & Hs & Hlt).
  apply lookup_lt_is_Some_2 in Hlt as [sf Hsf].
  by exists pc, rc, s, sf.
Qed.

Lemma tile_alpha_repaint g g' r tl tl' s sf x :
  board_inv g ->
  tiles g !! r = Some tl -> tile_surface tl = Some s ->
  surfaces g !! s = Some sf -> tile_surface tl' = Some s ->
  tiles g' = <[r := tl']> (tiles g) ->
  surfaces g' = <[s := x]> (surfaces g) ->
  tile_alpha g' r = Some (surf_alpha x) /\
  forall u, u <> r -> tile_alpha g' u = tile_alpha g u.
Proof.
  intros Hi Hr Hs Hsf Hs' Ht Hsu. unfold tile_alpha. rewrite Ht, Hsu. split.
  - rewrite (lookup_insert_same _ _ _ _ Hr), Hs'.
    by rewrite (lookup_insert_same _ _ _ _ Hsf).
  - intros u Hne. rewrite list_lookup_insert_ne by done.
    destruct (tiles g !! u) as [tu|] eqn:Hu; [|done].
    destruct (tile_surface tu) as [su|] eqn:Hsu'; [|done].
    rewrite list_lookup_insert_ne; [done|].
    intros ->. apply Hne. apply (inv_surf_inj _ Hi _ _ _ _ Hu Hr). congruence.
Qed.

Lemma clear_selected_tile_spec g r :
  board_inv g -> board_tmx_tile_selected (board g) = Some r ->
  exists g',
    clear_selected_tile g = Ok g' /\ board_inv g' /\ frame g g' /\
    same_pieces g g' /\ board_tmx_tile_selected (board g') = None /\
    tile_alpha g' r = Some (Some GAME_BOARD_TILE_ALPHA_NORMAL) /\
    forall u, u <> r -> tile_alpha g' u = tile_alpha g u.
Proof.
  intros Hi Hsel.
  assert (Hlt : (r < length (tiles g))%nat).
  { apply (inv_inner _ Hi). by apply (inv_tile_sel _ Hi). }
  destruct (tile_parts _ _ Hi Hlt) as (tl & rc & s & sf & Htl & Hrc & Hs & Hsf).
  exists (cleared_tile g r s tl sf).
  destruct (cleared_tile_frame g r s tl sf Htl) as [Hf Hsp].
  split; [by apply clear_selected_tile_Ok|].
  split; [|split; [done|split; [done|split; [done|]]]].
  - apply (board_inv_framed g); try done.
    + intros t tl' Ht'. simpl in *. split; [|done]. intros Hfl. exfalso.
      apply list_lookup_insert_Some in Ht' as [(-> & <- & _)|(Hne & Ht')].
      * done.
      * apply (inv_tile_flag _ Hi) in Ht'. apply Ht' in Hfl. congruence.
    + intros p pc Hp. simpl in *. by apply (inv_piece_flag _ Hi).
    + intros p Hp. by left.
  - by apply (tile_alpha_repaint g (cleared_tile g r s tl sf) r tl
                (GameTile_set_selected false tl) s sf
                (set_alpha GAME_BOARD_TILE_ALPHA_NORMAL sf) Hi).
Qed.

Lemma set_selected_tile_spec g t :
  board_inv g -> board_tmx_tile_selected (board g) = None ->
  t ∈ inner_tiles g ->
  exists g',
    set_selected_tile t g = Ok g' /\ board_inv g' /\ frame g g' /\
    same_pieces g g' /\ board_tmx_tile_selected (board g') = Some t /\
    forall u, u <> t -> tile_alpha g' u = tile_alpha g u.
Proof.
  intros Hi Hsel Hin.
  pose proof (inv_inner _ Hi _ Hin) as Hlt.
  destruct (tile_parts _ _ Hi Hlt) as (tl & rc & s & sf & Htl & Hrc & Hs & Hsf).
  exists (marked_tile g t s tl sf).
  destruct (marked_tile_frame g t s tl sf Htl) as [Hf Hsp].
  split; [by apply set_selected_tile_Ok|].
  split; [|split; [done|split; [done|split; [done|]]]].
  - apply (board_inv_framed g); try done.
    + intros u Hu. simpl in Hu. by injection Hu as <-.
    + intros u tl' Hu'. simpl in *.
      apply list_lookup_insert_Some in Hu' as [(-> & <- & _)|(Hne & Hu')].
      * done.
      * apply (inv_tile_flag _ Hi) in Hu'. rewrite Hsel in Hu'.
        split; [intros Hfl; by apply Hu' in Hfl|congruence].
    + intros p pc Hp. simpl in *. by apply (inv_piece_flag _ Hi).
    + intros p Hp. by left.
  - by apply (tile_alpha_repaint g (marked_tile g t s tl sf) t tl
                (GameTile_set_selected true tl) s sf
                (set_alpha GAME_BOARD_TILE_ALPHA_SELECTED sf) Hi).
Qed.

Lemma same_pieces_trans g1 g2 g3 :
  same_pieces g1 g2 -> same_pieces g2 g3 -> same_pieces g1 g3.
Proof. intros [] []. split; congruence. Qed.

Lemma highlight_tile_spec g t :
  board_inv g -> t ∈ inner_tiles g ->
  exists g',
    highlight_tile t g = Ok g' /\ board_inv g' /\ frame g g' /\
    same_pieces g g' /\
    board_tmx_tile_selected (board g')
      = highlight_next g (board_tmx_tile_selected (board g)) t /\
    forall u, tile_hit g u = false -> keeps_normal g u -> keeps_normal g' u.
Proof.
  intros Hi Hin.
  pose proof (inv_inner _ Hi _ Hin) as Hlt.
  destruct (tile_parts _ _ Hi Hlt) as (tl & rc & s & sf & Htl & Hrc & Hs & Hsf).
  unfold highlight_tile, highlight_next, tile_hit, deref. rewrite Htl. simpl.
  rewrite Hrc. simpl.
  destruct (collidepoint rc (mouse_pos (mouse g))) eqn:Hhit.
  - destruct (board_tmx_tile_selected (board g)) as [r|] eqn:Hsel; simpl.
    + destruct (clear_selected_tile_spec g r Hi Hsel)
        as (g1 & -> & Hi1 & Hf1 & Hp1 & Hs1 & Har & Hau). simpl.
      assert (Hin1 : t ∈ inner_tiles g1) by by rewrite (frame_inner _ _ Hf1).
      destruct (set_selected_tile_spec g1 t Hi1 Hs1 Hin1)
        as (g2 & -> & Hi2 & Hf2 & Hp2 & Hs2 & Hau2).
      exists g2. split; [done|]. split; [done|].
      split; [by eapply frame_trans|]. split; [by eapply same_pieces_trans|].
      split; [done|].
      intros u Hu Hk Hsel2. rewrite Hs2 in Hsel2.
      assert (u <> t) by congruence. rewrite Hau2 by done.
      destruct (decide (u = r)) as [->|Hne]; [done|].
      rewrite Hau by done. apply Hk. congruence.
    + destruct (set_selected_tile_spec g t Hi Hsel Hin)
        as (g2 & -> & Hi2 & Hf2 & Hp2 & Hs2 & Hau2).
      exists g2. repeat (split; [done|]).
      intros u Hu Hk Hsel2. rewrite Hs2 in Hsel2.
      assert (u <> t) by congruence. rewrite Hau2 by done.
      apply Hk. congruence.
  - destruct (tile_selected tl) eqn:Hfl.
    + pose proof (proj1 (inv_tile_flag _ Hi _ _ Htl) Hfl) as Hsel.
      destruct (clear_selected_tile_spec g t Hi Hsel)
        as (g1 & -> & Hi1 & Hf1 & Hp1 & Hs1 & Har & Hau).
      exists g1. repeat (split; [done|]).
      split; [rewrite Hs1, Hsel; by rewrite decide_True|].
      intros u Hu Hk _.
      destruct (decide (u = t)) as [->|Hne]; [done|].
      rewrite Hau by done. apply Hk. congruence.
    + exists g. split; [done|]. split; [done|]. split; [apply frame_refl|].
      split; [done|]. split; [|done].
      rewrite decide_False; [done|].
      intros Hsel. apply (inv_tile_flag _ Hi _ _ Htl) in Hsel. congruence.
Qed.

Lemma highlight_next_ext g g' l sel :
  (forall t, tile_hit g' t = tile_hit g t) ->
  fold_left (highlight_next g') l sel = fold_left (highlight_next g) l sel.
Proof.
  intros He. revert sel. induction l as [|t l IH]; intros sel; [done|].
  simpl. rewrite IH. unfold highlight_next. by rewrite He.
Qed.

Lemma highlight_fold_last g (l : list nat) (sel : option nat) :
  fold_left (highlight_next g) l sel
  = match last (filter (fun t => tile_hit g t = true) l) with
    | Some u => Some u
    | None =>
        match sel with
        | Some t0 => if decide (t0 ∈ l) then None else Some t0
        | None => None
        end
    end.
Proof.
  induction l as [|t l IH] using rev_ind.
  - cbn [fold_left]. rewrite filter_nil, last_nil.
    destruct sel as [t0|]; [|done].
    case_decide as Hin; [|done]. by apply not_elem_of_nil in Hin.
  - rewrite fold_left_app. cbn [fold_left]. rewrite IH. clear IH.
    rewrite filter_app. unfold highlight_next at 1.
    destruct (tile_hit g t) eqn:Hhit.
    + rewrite filter_cons_True, filter_nil by done. by rewrite last_snoc.
    + rewrite filter_cons_False, filter_nil by congruence.
      rewrite app_nil_r.
      destruct (last (filter (fun t => tile_hit g t = true) l)) as [u|] eqn:Hl.
      * case_decide as Hu; [|done]. injection Hu as ->.
        apply last_Some_elem_of, list_elem_of_filter in Hl as [Hu _]. congruence.
      * destruct sel as [t0|]; [|by case_decide].
        destruct (decide (t0 ∈ l)) as [Hin|Hnin].
        -- rewrite decide_False by done.
           assert (Hin' : t0 ∈ l ++ [t]) by (apply elem_of_app; by left).
           by rewrite decide_True.
        -- destruct (decide (t0 = t)) as [->|Hne].
           ++ rewrite decide_True by done.
              assert (Hin' : t ∈ l ++ [t]).
              { apply elem_of_app. right. by apply list_elem_of_singleton. }
              by rewrite decide_True.
           ++ rewrite decide_False by congruence.
              assert (Hin' : t0 ∉ l ++ [t]).
              { intros Hin. apply elem_of_app in Hin as [Hin|Hin]; [done|].
                by apply list_elem_of_singleton in Hin. }
              by rewrite decide_False.
Qed.

Lemma highlight_loop_spec (l : list nat) :
  forall g, board_inv g -> (forall t, t ∈ l -> t ∈ inner_tiles g) ->
  exists g',
    for_each l highlight_tile g = Ok g' /\ board_inv g' /\ frame g g' /\
    same_pieces g g' /\
    board_tmx_tile_selected (board g')
      = fold_left (highlight_next g) l (board_tmx_tile_selected (board g)) /\
    forall u, tile_hit g u = false -> keeps_normal g u -> keeps_normal g' u.
Proof.
  induction l as [|t l IH]; intros g Hi Hl.
  - exists g. simpl. split; [done|]. split; [done|]. split; [apply frame_refl|].
    done.
  - simpl.
    destruct (highlight_tile_spec g t Hi) as (g1 & -> & Hi1 & Hf1 & Hp1 & Hs1 & Hk1).
    { apply Hl. by left. }
    simpl.
    destruct (IH g1 Hi1) as (g2 & Hg2 & Hi2 & Hf2 & Hp2 & Hs2 & Hk2).
    { intros u Hu. rewrite (frame_inner _ _ Hf1). apply Hl. by right. }
    exists g2. split; [done|]. split; [done|].
    split; [by eapply frame_trans|]. split; [by eapply same_pieces_trans|].
    split.
    + rewrite Hs2, Hs1. apply highlight_next_ext. intros u.
      by apply frame_tile_hit.
    + intros u Hu Hk. apply Hk2; [|by apply Hk1].
      by rewrite (frame_tile_hit _ _ _ Hf1).
Qed.

Lemma inner_tiles_item g :
  board_inv g ->
  dict_item 1%nat (board_tmx_tile_data (board g))
  = Ok (match dict_get 1%nat (board_tmx_tile_data (board g)) with
        | Some d => d | None => [] end) /\
  inner_tiles g
  = dict_values (match dict_get 1%nat (board_tmx_tile_data (board g)) with
                 | Some d => d | None => [] end).
Proof.
  intros Hi. destruct (inv_layers _ Hi) as [d Hd].
  unfold dict_item, inner_tiles. by rewrite Hd.
Qed.

Lemma highlight_phase_spec g :
  board_inv g ->
  exists g',
    highlight_phase g = Ok g' /\ board_inv g' /\ frame g g' /\
    same_pieces g g' /\
    board_tmx_tile_selected (board g') = last (tiles_under_pointer g) /\
    forall t0, board_tmx_tile_selected (board g) = Some t0 ->
               tile_hit g t0 = false ->
               tile_alpha g' t0 = Some (Some GAME_BOARD_TILE_ALPHA_NORMAL).
Proof.
  intros Hi. destruct (inner_tiles_item g Hi) as [Hitem Hinner].
  unfold highlight_phase. rewrite Hitem. simpl. rewrite <- Hinner.
  destruct (highlight_loop_spec (inner_tiles g) g Hi)
    as (g' & Hg' & Hi' & Hf & Hp & Hs & Hk); [done|].
  exists g'. repeat (split; [done|]).
  assert (Hsel : board_tmx_tile_selected (board g') = last (tiles_under_pointer g)).
  { rewrite Hs, highlight_fold_last. unfold tiles_under_pointer.
    destruct (last _); [done|].
    destruct (board_tmx_tile_selected (board g)) as [t0|] eqn:Hs0; [|done].
    rewrite decide_True; [done|]. by apply (inv_tile_sel _ Hi). }
  split; [done|].
  intros t0 Hs0 Hhit. apply Hk; [done|congruence|].
  rewrite Hsel. intros Hl.
  apply last_Some_elem_of, list_elem_of_filter in Hl as [Hu _]. congruence.
Qed.

Lemma same_tiles_trans g1 g2 g3 :
  same_tiles g1 g2 -> same_tiles g2 g3 -> same_tiles g1 g3.
Proof. intros [] []. split; congruence. Qed.

Lemma same_tiles_refl g : same_tiles g g.
Proof. done. Qed.

Ltac stay g :=
  exists g;
  repeat (split;
          [first [reflexivity | assumption | apply same_tiles_refl | congruence
                 | match goal with H : _ = Some _ |- _ => by rewrite H end]|]);
  first [done | congruence | intros; congruence].

Lemma clear_selected_piece_spec g p :
  board_inv g -> board_piece_selected (board g) = Some p ->
  exists pc,
    pieces g !! p = Some pc /\
    clear_selected_piece g = Ok (cleared_piece g p pc) /\
    board_inv (cleared_piece g p pc) /\
    no_piece_flagged (cleared_piece g p pc).
Proof.
  intros Hi Hsel.
  destruct (inv_piece_sel _ Hi _ Hsel) as (pc & t & tl & Hpc & _).
  exists pc. split; [done|].
  destruct (cleared_piece_frame g p pc Hpc) as [Hf [Hst Hss]].
  split; [by apply clear_selected_piece_Ok|].
  assert (Hnf : no_piece_flagged (cleared_piece g p pc)).
  { intros q pc' Hq. simpl in Hq.
    apply list_lookup_insert_Some in Hq as [(-> & <- & _)|(Hne & Hq)]; [done|].
    destruct (tile_selected (piece_base pc')) eqn:Hfl; [|done].
    apply (inv_piece_flag _ Hi) in Hq. apply Hq in Hfl. congruence. }
  split; [|done].
  apply (board_inv_framed g); try done.
  - intros u. rewrite Hss. apply (inv_tile_sel _ Hi).
  - intros u tl'. rewrite Hst, Hss. apply (inv_tile_flag _ Hi).
  - intros q pc' Hq. split; [|done]. intros Hfl.
    apply Hnf in Hq. congruence.
Qed.

Lemma set_selected_piece_spec g q t tl :
  board_inv g -> board_piece_selected (board g) = None ->
  tiles g !! t = Some tl -> tile_piece tl = Some q ->
  exists pc,
    pieces g !! q = Some pc /\
    set_selected_piece (Some q) g = Ok (marked_piece g q pc) /\
    board_inv (marked_piece g q pc).
Proof.
  intros Hi Hsel Ht Hq.
  destruct (inv_occupant _ Hi _ _ _ Ht Hq) as (pc & Hpc & Hpt).
  exists pc. split; [done|].
  destruct (marked_piece_frame g q pc Hpc) as [Hf [Hst Hss]].
  split; [by apply set_selected_piece_Ok|].
  apply (board_inv_framed g); try done.
  - intros u. rewrite Hss. apply (inv_tile_sel _ Hi).
  - intros u tl'. rewrite Hst, Hss. apply (inv_tile_flag _ Hi).
  - intros u pc' Hu. simpl in *.
    apply list_lookup_insert_Some in Hu as [(-> & <- & _)|(Hne & Hu)]; [done|].
    apply (inv_piece_flag _ Hi) in Hu. rewrite Hsel in Hu.
    split; [intros Hfl; by apply Hu in Hfl|congruence].
  - intros u Hu. simpl in Hu. injection Hu as <-. right. eauto.
Qed.

(** The occupant of the highlighted tile, read off a good state. *)
Lemma tile_selected_piece_Ok g r tl :
  board_tmx_tile_selected (board g) = Some r -> tiles g !! r = Some tl ->
  tile_selected_piece g = Ok (tile_piece tl).
Proof.
  intros Hs Ht. unfold tile_selected_piece, deref. rewrite Hs. simpl.
  by rewrite Ht.
Qed.

Lemma highlighted_tile g r :
  board_inv g -> board_tmx_tile_selected (board g) = Some r ->
  exists tl, tiles g !! r = Some tl /\ tile_selected_piece g = Ok (tile_piece tl).
Proof.
  intros Hi Hs.
  assert (Hlt : (r < length (tiles g))%nat).
  { apply (inv_inner _ Hi). by apply (inv_tile_sel _ Hi). }
  apply lookup_lt_is_Some_2 in Hlt as [tl Htl].
  exists tl. split; [done|]. by apply (tile_selected_piece_Ok g r).
Qed.

Lemma switch_spec g :
  board_inv g ->
  exists g',
    when switch_guard switch_branch g = Ok g' /\ board_inv g' /\
    mouse g' = mouse g /\ same_tiles g g' /\
    truthy (board_piece_selected (board g'))
      = truthy (board_piece_selected (board g)) /\
    (tile_selected_piece g = Ok None -> g' = g).
Proof.
  intros Hi. unfold when, switch_guard.
  destruct (button1 (mouse_pressed (mouse g))); [|stay g].
  destruct (board_piece_selected (board g)) as [p|] eqn:Hp; [|stay g].
  destruct (board_tmx_tile_selected (board g)) as [r|] eqn:Hr; [|stay g].
  simpl.
  destruct (highlighted_tile g r Hi Hr) as (tl & Htl & ->). simpl.
  destruct (tile_piece tl) as [q|] eqn:Hq; simpl; [|stay g].
  unfold switch_branch.
  destruct (clear_selected_piece_spec g p Hi Hp) as (pc & Hpc & -> & Hi1 & _).
  simpl.
  destruct (cleared_piece_frame g p pc Hpc) as [Hf1 [Hst1 Hss1]].
  assert (Ht1 : tiles (cleared_piece g p pc) !! r = Some tl) by done.
  rewrite (tile_selected_piece_Ok _ r tl) by done. simpl. rewrite Hq.
  destruct (set_selected_piece_spec _ q r tl Hi1 eq_refl Ht1 Hq)
    as (pc2 & Hpc2 & -> & Hi2).
  eexists. split; [done|]. split; [done|]. split; [done|]. split; [done|].
  split; [done|]. congruence.
Qed.

Lemma select_spec g :
  board_inv g ->
  exists g',
    when select_guard select_branch g = Ok g' /\ board_inv g' /\
    mouse g' = mouse g /\ same_tiles g g' /\
    (truthy (board_piece_selected (board g)) = true -> g' = g) /\
    (tile_selected_piece g = Ok None -> g' = g).
Proof.
  intros Hi. unfold when, select_guard.
  destruct (press_edge (mouse g)); [|stay g].
  destruct (board_piece_selected (board g)) as [p|] eqn:Hp; [stay g|].
  destruct (board_tmx_tile_selected (board g)) as [r|] eqn:Hr; [|stay g].
  simpl.
  destruct (highlighted_tile g r Hi Hr) as (tl & Htl & Htp). rewrite Htp. simpl.
  destruct (tile_piece tl) as [q|] eqn:Hq; simpl; [|stay g].
  unfold select_branch. rewrite Htp. simpl.
  destruct (set_selected_piece_spec _ q r tl Hi Hp Htl Hq)
    as (pc2 & Hpc2 & -> & Hi2).
  eexists. split; [done|]. split; [done|]. split; [done|]. split; [done|].
  split; [done|]. congruence.
Qed.

Lemma ticked_piece_base pc : piece_base (ticked_piece pc) = piece_base pc.
Proof. unfold ticked_piece. by destruct (tile_selected (piece_base pc)). Qed.

Lemma ticked_piece_tile pc : piece_tile (ticked_piece pc) = piece_tile pc.
Proof. unfold ticked_piece. by destruct (tile_selected (piece_base pc)). Qed.

Lemma GamePiece_tick_Ok g r s pc sf :
  pieces g !! r = Some pc -> tile_surface (piece_base pc) = Some s ->
  surfaces g !! s = Some sf ->
  GamePiece_tick r g = Ok (ticked g r s pc sf).
Proof.
  intros Hp Hs Hsf. unfold GamePiece_tick, deref. rewrite Hp. simpl.
  fold (ticked_piece pc). rewrite ticked_piece_base, Hs. simpl.
  unfold ticked, blink_alpha.
  destruct (piece_blinking (ticked_piece pc));
    erewrite update_surface_Ok by (simpl; eauto); reflexivity.
Qed.

Lemma blink_frame_refl g : blink_frame g g.
Proof. by split. Qed.

Lemma blink_frame_trans g1 g2 g3 :
  blink_frame g1 g2 -> blink_frame g2 g3 -> blink_frame g1 g3.
Proof. intros [] []. split; congruence. Qed.

Lemma blink_frame_piece g g' p pc' :
  blink_frame g g' -> pieces g' !! p = Some pc' ->
  exists pc, pieces g !! p = Some pc /\ piece_base pc = piece_base pc' /\
             piece_tile pc = piece_tile pc'.
Proof.
  intros Hf Hp.
  destruct (fmap_eq_lookup _ _ _ _ _ (bf_pieces _ _ Hf) Hp) as (pc & Hpc & He).
  exists pc. split; [done|]. by injection He.
Qed.

Lemma blink_frame_frame g g' : blink_frame g g' -> frame g g'.
Proof.
  intros Hf. split; try apply Hf.
  - by rewrite (bf_tiles _ _ Hf).
  - pose proof (bf_pieces _ _ Hf) as He.
    apply (f_equal (fmap (fun c : GameTile * option nat =>
                            mkPiece (tile_strip (fst c)) (snd c) false))) in He.
    by rewrite <- !list_fmap_compose in He.
  - by rewrite (bf_board _ _ Hf).
  - by rewrite (bf_board _ _ Hf).
Qed.

Lemma blink_frame_inv g g' : blink_frame g g' -> board_inv g -> board_inv g'.
Proof.
  intros Hf Hi. apply (board_inv_framed g); [by apply blink_frame_frame|done|..].
  - intros t. rewrite (bf_board _ _ Hf). apply (inv_tile_sel _ Hi).
  - intros t tl. rewrite (bf_board _ _ Hf), (bf_tiles _ _ Hf).
    apply (inv_tile_flag _ Hi).
  - intros p pc' Hp. rewrite (bf_board _ _ Hf).
    destruct (blink_frame_piece _ _ _ _ Hf Hp) as (pc & Hpc & <- & _).
    by apply (inv_piece_flag _ Hi).
  - intros p. rewrite (bf_board _ _ Hf). by left.
Qed.

Lemma ticked_blink_frame g r s pc sf :
  pieces g !! r = Some pc -> blink_frame g (ticked g r s pc sf).
Proof.
  intros Hp. split; simpl; try done.
  - by rewrite length_insert.
  - apply (fmap_insert_same _ _ _ pc); [done|].
    unfold piece_core. by rewrite ticked_piece_base, ticked_piece_tile.
Qed.

Lemma pieces_loop_spec (l : list nat) :
  forall g, board_inv g -> (forall p, p ∈ l -> (p < length (pieces g))%nat) ->
  exists g', for_each l GamePiece_tick g = Ok g' /\ blink_frame g g'.
Proof.
  induction l as [|p l IH]; intros g Hi Hl.
  - exists g. split; [done|apply blink_frame_refl].
  - simpl.
    destruct (piece_parts g p Hi) as (pc & rc & s & sf & Hpc & Hrc & Hs & Hsf).
    { apply Hl. by left. }
    rewrite (GamePiece_tick_Ok g p s pc sf) by done. simpl.
    pose proof (ticked_blink_frame g p s pc sf Hpc) as Hf1.
    destruct (IH (ticked g p s pc sf)) as (g' & Hg' & Hf2).
    + by apply (blink_frame_inv g).
    + intros q Hq. simpl. rewrite length_insert. apply Hl. by right.
    + exists g'. split; [done|]. by eapply blink_frame_trans.
Qed.

Lemma pieces_tick_spec g :
  board_inv g ->
  exists g', pieces_tick g = Ok g' /\ blink_frame g g' /\ board_inv g'.
Proof.
  intros Hi. unfold pieces_tick.
  destruct (pieces_loop_spec (dict_values (board_pieces (board g))) g Hi)
    as (g' & Hg' & Hf); [apply (inv_pieces_dict _ Hi)|].
  exists g'. split; [done|]. split; [done|]. by apply (blink_frame_inv g).
Qed.

Lemma move_selected_piece_Ok g p t old pc rc tl otl :
  board_piece_selected (board g) = Some p ->
  pieces g !! p = Some pc -> tile_rect (piece_base pc) = Some rc ->
  piece_tile pc = Some old -> tiles g !! old = Some otl ->
  tiles g !! t = Some tl -> old <> t ->
  move_selected_piece p t g = Ok (moved g p t old pc rc tl otl).
Proof.
  intros Hsel Hpc Hrc Hold Hotl Htl Hne.
  pose proof (lookup_lt_Some _ _ _ Hpc) as Hlp.
  unfold move_selected_piece, deref. rewrite Htl. simpl.
  erewrite update_piece_Ok;
    [|done|unfold on_base_r, GameTile_set_x; rewrite Hrc; reflexivity].
  simpl. rewrite Htl. simpl.
  erewrite update_piece_Ok;
    [|simpl; by apply list_lookup_insert_eq
     |unfold on_base_r, GameTile_set_y; reflexivity].
  simpl. rewrite list_insert_insert_eq.
  rewrite list_lookup_insert_eq by done. simpl.
  unfold getattr. simpl. unfold tile_getter. simpl. rewrite Hold. simpl.
  erewrite update_tile_Ok; [|simpl; done|reflexivity]. simpl.
  erewrite update_piece_Ok;
    [|simpl; by apply list_lookup_insert_eq|reflexivity].
  simpl. rewrite list_insert_insert_eq.
  erewrite update_tile_Ok;
    [|simpl; by rewrite list_lookup_insert_ne|reflexivity].
  simpl.
  erewrite clear_selected_piece_Ok;
    [|simpl; done|simpl; by apply list_lookup_insert_eq].
  unfold cleared_piece, moved, moved_piece. simpl.
  by rewrite list_insert_insert_eq.
Qed.

Lemma moved_tile g p t old pc rc tl otl u x :
  tiles g !! old = Some otl -> tiles g !! t = Some tl ->
  tiles (moved g p t old pc rc tl otl) !! u = Some x ->
  exists x0, tiles g !! u = Some x0 /\
    tile_surface x0 = tile_surface x /\ tile_rect x0 = tile_rect x /\
    tile_selected x0 = tile_selected x /\
    (tile_piece x = if decide (u = t) then Some p
                    else if decide (u = old) then None else tile_piece x0).
Proof.
  intros Hotl Htl Hu. simpl in Hu.
  apply list_lookup_insert_Some in Hu as [(-> & <- & _)|(Hne & Hu)].
  { exists tl. by rewrite decide_True. }
  apply list_lookup_insert_Some in Hu as [(-> & <- & _)|(Hne' & Hu)].
  { exists otl. rewrite decide_False, decide_True by done. done. }
  exists x. rewrite !decide_False by done. done.
Qed.

Lemma moved_inv g p t old pc rc tl otl :
  board_inv g ->
  board_piece_selected (board g) = Some p ->
  pieces g !! p = Some pc -> tile_rect (piece_base pc) = Some rc ->
  piece_tile pc = Some old -> tiles g !! old = Some otl ->
  tiles g !! t = Some tl -> old <> t ->
  board_inv (moved g p t old pc rc tl otl).
Proof.
  intros Hi Hsel Hpc Hrc Hold Hotl Htl Hne.
  pose proof (moved_tile g p t old pc rc tl otl) as Hmt.
  split.
  - apply (inv_cache _ Hi).
  - apply (inv_layers _ Hi).
  - intros u Hu. simpl. rewrite !length_insert. by apply (inv_inner _ Hi).
  - intros u x Hu.
    destruct (Hmt u x Hotl Htl Hu) as (x0 & Hx0 & Hs & Hr & _).
    destruct (inv_tiles _ Hi _ _ Hx0) as [Hrect Hsurf].
    split; [by rewrite <- Hr|by rewrite <- Hs].
  - intros u1 u2 a b Ha Hb Hab.
    destruct (Hmt u1 a Hotl Htl Ha) as (a0 & Ha0 & Hsa & _).
    destruct (Hmt u2 b Hotl Htl Hb) as (b0 & Hb0 & Hsb & _).
    apply (inv_surf_inj _ Hi _ _ _ _ Ha0 Hb0). congruence.
  - intros q x Hq. simpl in Hq.
    apply list_lookup_insert_Some in Hq as [(-> & <- & _)|(Hne' & Hq)].
    + destruct (inv_pieces _ Hi _ _ Hpc) as [_ Hsurf]. split; [by eexists|done].
    + by apply (inv_pieces _ Hi _ _ Hq).
  - intros q Hq. simpl. rewrite length_insert. by apply (inv_pieces_dict _ Hi).
  - apply (inv_tile_sel _ Hi).
  - intros u x Hu.
    destruct (Hmt u x Hotl Htl Hu) as (x0 & Hx0 & _ & _ & Hfl & _).
    rewrite <- Hfl. by apply (inv_tile_flag _ Hi).
  - intros q x Hq. simpl in *. split; [|done]. intros Hfl. exfalso.
    apply list_lookup_insert_Some in Hq as [(-> & <- & _)|(Hne' & Hq)]; [done|].
    apply (inv_piece_flag _ Hi) in Hq. apply Hq in Hfl. congruence.
  - intros u x q Hu Hq.
    destruct (Hmt u x Hotl Htl Hu) as (x0 & Hx0 & _ & _ & _ & Hp).
    rewrite Hq in Hp. simpl.
    destruct (decide (u = t)) as [->|Hut].
    + injection Hp as ->. eexists. split; [by apply (lookup_insert_same _ _ pc)|done].
    + destruct (decide (u = old)) as [->|Huo]; [done|].
      destruct (inv_occupant _ Hi _ _ _ Hx0 (eq_sym Hp)) as (qc & Hqc & Hqt).
      assert (q <> p) by (intros ->; congruence).
      exists qc. by rewrite list_lookup_insert_ne.
  - intros q Hq. done.
Qed.

Lemma move_spec g :
  board_inv g ->
  exists g',
    when move_guard move_branch g = Ok g' /\ board_inv g' /\
    mouse g' = mouse g /\
    forall p t tl,
      press_edge (mouse g) = true ->
      board_piece_selected (board g) = Some p ->
      board_tmx_tile_selected (board g) = Some t ->
      tiles g !! t = Some tl -> tile_piece tl = None ->
      exists old pc rc otl,
        pieces g !! p = Some pc /\ tile_rect (piece_base pc) = Some rc /\
        piece_tile pc = Some old /\ tiles g !! old = Some otl /\ old <> t /\
        g' = moved g p t old pc rc tl otl.
Proof.
  intros Hi. unfold when, move_guard.
  destruct (press_edge (mouse g)) eqn:He;
    [|exists g; repeat (split; [done|]); intros; congruence].
  destruct (board_piece_selected (board g)) as [p|] eqn:Hp;
    [|exists g; repeat (split; [done|]); intros; congruence].
  destruct (board_tmx_tile_selected (board g)) as [t|] eqn:Ht;
    [|exists g; repeat (split; [done|]); intros; congruence].
  simpl.
  destruct (highlighted_tile g t Hi Ht) as (tl & Htl & ->). simpl.
  destruct (tile_piece tl) as [q|] eqn:Hq; simpl;
    [exists g; repeat (split; [done|]); intros; congruence|].
  destruct (inv_piece_sel _ Hi _ Hp) as (pc & old & otl & Hpc & Hold & Hotl & Hocc).
  destruct (inv_pieces _ Hi _ _ Hpc) as [[rc Hrc] _].
  assert (Hne : old <> t) by (intros ->; congruence).
  unfold move_branch. rewrite Hp, Ht. simpl.
  rewrite (move_selected_piece_Ok g p t old pc rc tl otl) by done.
  eexists. split; [done|].
  split; [by apply moved_inv|]. split; [done|].
  intros p' t' tl' _ [= <-] [= <-] Htl' _.
  assert (tl' = tl) by congruence. subst tl'.
  by exists old, pc, rc, otl.
Qed.

Lemma board_inv_with_mouse m g : board_inv g -> board_inv (with_mouse m g).
Proof. intros []. by split. Qed.

Theorem GameBoard_tick_inv g :
  board_inv g -> exists g', GameBoard_tick g = Ok g' /\ board_inv g'.
Proof.
  intros Hi. unfold GameBoard_tick.
  destruct (highlight_phase_spec g Hi) as (g1 & -> & Hi1 & _). simpl.
  destruct (switch_spec g1 Hi1) as (g2 & -> & Hi2 & _). simpl.
  destruct (select_spec g2 Hi2) as (g3 & -> & Hi3 & _). simpl.
  destruct (move_spec g3 Hi3) as (g4 & -> & Hi4 & _). simpl.
  destruct (pieces_tick_spec g4 Hi4) as (g5 & -> & _ & Hi5).
  by exists g5.
Qed.

Lemma Game_tick_inv i g :
  board_inv g -> exists g', Game_tick i g = Ok g' /\ board_inv g'.
Proof. intros Hi. apply GameBoard_tick_inv. by apply board_inv_with_mouse. Qed.

(** ** Setup *)

Lemma for_each_inv {A S : Type} (P : S -> Prop) (body : A -> S -> result S)
  (l : list A) :
  (forall a s s', a ∈ l -> P s -> body a s = Ok s' -> P s') ->
  forall s s', P s -> for_each l body s = Ok s' -> P s'.
Proof.
  induction l as [|a l IH]; intros Hb s s' Hs Hr; simpl in Hr.
  - by injection Hr as <-.
  - apply bind_Ok in Hr as (s1 & H1 & Hr).
    apply (IH (fun a' s0 s0' Ha => Hb a' s0 s0' (list_elem_of_further _ _ _ Ha)) s1 s');
      [|done].
    apply (Hb a s s1); [by left|done|done].
Qed.

Lemma dict_get_set_eq {V} (k : nat) (v : V) (d : dict V) :
  dict_get k (dict_set k v d) = Some v.
Proof.
  induction d as [|[k' v'] d IH]; simpl.
  - by rewrite Nat.eqb_refl.
  - destruct (Nat.eqb k k') eqn:He; simpl; rewrite He; [done|apply IH].
Qed.

Lemma dict_get_set_ne {V} (k k' : nat) (v : V) (d : dict V) :
  k <> k' -> dict_get k' (dict_set k v d) = dict_get k' d.
Proof.
  intros Hne. induction d as [|[k0 v0] d IH]; simpl.
  - destruct (Nat.eqb k' k) eqn:He; [|done].
    apply Nat.eqb_eq in He. congruence.
  - destruct (Nat.eqb k k0) eqn:He; simpl.
    + apply Nat.eqb_eq in He. subst k0.
      destruct (Nat.eqb k' k) eqn:He'; [|done].
      apply Nat.eqb_eq in He'. congruence.
    + by rewrite IH.
Qed.

Lemma dict_values_set {V} (k : nat) (v x : V) (d : dict V) :
  x ∈ dict_values (dict_set k v d) -> x = v \/ x ∈ dict_values d.
Proof.
  unfold dict_values. induction d as [|[k0 v0] d IH]; simpl.
  - intros H. apply list_elem_of_singleton in H. by left.
  - destruct (Nat.eqb k k0); simpl; intros H.
    + apply elem_of_cons in H as [->|H]; [by left|]. right. by right.
    + apply elem_of_cons in H as [->|H]; [right; by left|].
      destruct (IH H) as [->|H']; [by left|]. right. by right.
Qed.

Lemma setup_inv_board_inv g :
  setup_inv g ->
  is_Some (dict_get 1%nat (board_tmx_tile_data (board g))) ->
  board_inv g.
Proof.
  intros Hs Hl. split.
  - apply (si_cache _ Hs).
  - done.
  - intros t. unfold inner_tiles. destruct Hl as [d Hd]. rewrite Hd.
    by apply (si_data _ Hs 1%nat).
  - intros t tl Ht. by apply (si_tiles _ Hs) in Ht as [? _].
  - apply (si_surf_inj _ Hs).
  - intros p pc Hp. by apply (si_pieces _ Hs) in Hp as [? _].
  - apply (si_pieces_dict _ Hs).
  - intros t. by rewrite (si_tile_none _ Hs).
  - intros t tl Ht. rewrite (si_tile_none _ Hs).
    apply (si_tiles _ Hs) in Ht as [_ ->]. done.
  - intros p pc Hp. rewrite (si_piece_none _ Hs).
    apply (si_pieces _ Hs) in Hp as [_ ->]. done.
  - apply (si_occupant _ Hs).
  - intros p. by rewrite (si_piece_none _ Hs).
Qed.

Lemma tile_ok_mono g g' tl :
  (length (surfaces g) <= length (surfaces g'))%nat ->
  tile_ok g tl -> tile_ok g' tl.
Proof.
  intros Hle [Hr (s & Hs & Hlt)]. split; [done|]. exists s. split; [done|lia].
Qed.

Lemma place_tile_inv x y layer surface g g' :
  place_tile x y layer surface g = Ok g' ->
  exists d,
    dict_get layer (board_tmx_tile_data (board g)) = Some d /\
    g' = mkGame (surfaces g ++ [surface])
           (tiles g ++ [new_tile_at x y layer (length d + 1)
                                    (length (surfaces g)) surface])
           (pieces g) (mouse g) (resources g)
           (board_with_tile_data
              (dict_set layer
                 (dict_set (length d + 1)%nat (length (tiles g)) d)
                 (board_tmx_tile_data (board g)))
              (board g)).
Proof.
  unfold place_tile, dict_item.
  destruct (dict_get layer (board_tmx_tile_data (board g))) as [d|] eqn:Hd;
    [|discriminate].
  simpl. rewrite Hd. simpl. intros [= <-]. by exists d.
Qed.

Lemma place_tile_setup_inv x y layer surface g g' :
  setup_inv g -> place_tile x y layer surface g = Ok g' -> setup_inv g'.
Proof.
  intros Hs Hp. apply place_tile_inv in Hp as (d & Hd & ->).
  split; simpl.
  - intros n r Hn. simpl in *. rewrite length_app. simpl.
    pose proof (si_cache _ Hs _ _ Hn). lia.
  - intros layer' d' t Hd' Ht. rewrite length_app. simpl.
    destruct (decide (layer = layer')) as [<-|Hne].
    + rewrite dict_get_set_eq in Hd'. injection Hd' as <-.
      apply dict_values_set in Ht as [->|Ht]; [lia|].
      pose proof (si_data _ Hs _ _ _ Hd Ht). lia.
    + rewrite dict_get_set_ne in Hd' by done.
      pose proof (si_data _ Hs _ _ _ Hd' Ht). lia.
  - intros t tl Ht. apply lookup_app_Some in Ht as [Ht|[_ Ht]].
    + apply (si_tiles _ Hs) in Ht as [Hok Hfl]. split; [|done].
      apply (tile_ok_mono g); [simpl; rewrite length_app; lia|done].
    + apply list_lookup_singleton_Some in Ht as [_ <-]. split; [|done].
      split; [by eexists|]. eexists. split; [done|].
      simpl. rewrite length_app. simpl. lia.
  - intros t1 t2 a b Ha Hb Hab.
    apply lookup_app_Some in Ha as [Ha|[Hl1 Ha]];
      apply lookup_app_Some in Hb as [Hb|[Hl2 Hb]].
    + by apply (si_surf_inj _ Hs _ _ _ _ Ha Hb).
    + apply list_lookup_singleton_Some in Hb as [_ <-]. simpl in Hab.
      apply (si_tiles _ Hs) in Ha as [(_ & s & Hsa & Hlt) _].
      rewrite Hsa in Hab. injection Hab as ->. lia.
    + apply list_lookup_singleton_Some in Ha as [_ <-]. simpl in Hab.
      apply (si_tiles _ Hs) in Hb as [(_ & s & Hsb & Hlt) _].
      rewrite Hsb in Hab. injection Hab as <-. lia.
    + apply list_lookup_singleton_Some in Ha as [Ha _].
      apply list_lookup_singleton_Some in Hb as [Hb _]. lia.
  - intros p pc Hp. apply (si_pieces _ Hs) in Hp as [Hok Hfl]. split; [|done].
    apply (tile_ok_mono g); [simpl; rewrite length_app; lia|done].
  - apply (si_pieces_dict _ Hs).
  - intros t tl p Ht Hp. apply lookup_app_Some in Ht as [Ht|[_ Ht]].
    + by apply (si_occupant _ Hs _ _ _ Ht).
    + apply list_lookup_singleton_Some in Ht as [_ <-]. done.
  - apply (si_piece_none _ Hs).
  - apply (si_tile_none _ Hs).
Qed.

Lemma place_tiles_setup_inv g g' :
  setup_inv g -> place_tiles g = Ok g' -> setup_inv g'.
Proof.
  unfold place_tiles. intros Hs.
  apply for_each_inv; [|done]. intros x s1 s1' _ Hs1.
  apply for_each_inv; [|done]. intros y s2 s2' _ Hs2.
  apply for_each_inv; [|done]. intros layer s3 s3' _ Hs3.
  destruct (get_tile_image _ x y layer) as [surface|].
  - by apply place_tile_setup_inv.
  - by intros [= <-].
Qed.

Lemma update_tile_setup_inv r f g g' :
  setup_inv g ->
  (forall t t', f t = Ok t' ->
     tile_surface t' = tile_surface t /\ is_Some (tile_rect t') /\
     tile_selected t' = tile_selected t /\ tile_piece t' = tile_piece t) ->
  update_tile r f g = Ok g' ->
  setup_inv g' /\ board g' = board g.
Proof.
  intros Hs Hf Hu. apply update_tile_inv in Hu as (t & t' & Ht & Hft & ->).
  destruct (Hf _ _ Hft) as (Hsu & Hre & Hfl & Hpi).
  assert (Hold : forall u x, <[r := t']> (tiles g) !! u = Some x ->
            exists x0, tiles g !! u = Some x0 /\
              tile_surface x = tile_surface x0 /\ is_Some (tile_rect x) /\
              tile_selected x = tile_selected x0 /\ tile_piece x = tile_piece x0).
  { intros u x Hu.
    apply list_lookup_insert_Some in Hu as [(-> & <- & _)|(Hne & Hu)].
    - by exists t.
    - exists x. repeat (split; [done|]). split; [|done].
      by destruct (si_tiles _ Hs _ _ Hu) as [[? _] _]. }
  split; [|done]. split; simpl.
  - apply (si_cache _ Hs).
  - intros layer d u Hd Hu. rewrite length_insert. by apply (si_data _ Hs layer d).
  - intros u x Hu. destruct (Hold _ _ Hu) as (x0 & Hx0 & Hs0 & Hr0 & Hf0 & _).
    destruct (si_tiles _ Hs _ _ Hx0) as [(_ & s & Hss & Hlt) Hfl0].
    split; [|congruence]. split; [done|]. exists s. split; [congruence|done].
  - intros u1 u2 a b Ha Hb Hab.
    destruct (Hold _ _ Ha) as (a0 & Ha0 & Hsa & _).
    destruct (Hold _ _ Hb) as (b0 & Hb0 & Hsb & _).
    apply (si_surf_inj _ Hs _ _ _ _ Ha0 Hb0). congruence.
  - apply (si_pieces _ Hs).
  - apply (si_pieces_dict _ Hs).
  - intros u x p Hu Hp.
    destruct (Hold _ _ Hu) as (x0 & Hx0 & _ & _ & _ & Hpp).
    apply (si_occupant _ Hs _ _ _ Hx0). congruence.
  - apply (si_piece_none _ Hs).
  - apply (si_tile_none _ Hs).
Qed.

Lemma GameTile_set_x_keeps x t t' :
  GameTile_set_x x t = Ok t' ->
  tile_surface t' = tile_surface t /\ is_Some (tile_rect t') /\
  tile_selected t' = tile_selected t /\ tile_piece t' = tile_piece t.
Proof.
  unfold GameTile_set_x. intros H. apply bind_Ok in H as (r & _ & H).
  injection H as <-. simpl. repeat split; done.
Qed.

Lemma GameTile_set_y_keeps y t t' :
  GameTile_set_y y t = Ok t' ->
  tile_surface t' = tile_surface t /\ is_Some (tile_rect t') /\
  tile_selected t' = tile_selected t /\ tile_piece t' = tile_piece t.
Proof.
  unfold GameTile_set_y. intros H. apply bind_Ok in H as (r & _ & H).
  injection H as <-. simpl. repeat split; done.
Qed.

Lemma shift_tile_setup_inv dx dy tile g g' :
  setup_inv g -> shift_tile dx dy tile g = Ok g' ->
  setup_inv g' /\ board g' = board g.
Proof.
  unfold shift_tile. intros Hs H.
  apply bind_Ok in H as (t & _ & H). apply bind_Ok in H as (g1 & Hg1 & H).
  apply bind_Ok in H as (t1 & _ & H).
  apply update_tile_setup_inv in Hg1 as [Hs1 Hb1];
    [|done|apply GameTile_set_x_keeps].
  apply update_tile_setup_inv in H as [Hs2 Hb2];
    [|done|apply GameTile_set_y_keeps].
  split; [done|congruence].
Qed.

Lemma setup_inv_grow g s :
  setup_inv g -> setup_inv (with_surfaces (surfaces g ++ [s]) g).
Proof.
  intros Hs.
  assert (Hle : (length (surfaces g)
                 <= length (surfaces (with_surfaces (surfaces g ++ [s]) g)))%nat).
  { simpl. rewrite length_app. lia. }
  split; simpl.
  - intros n r Hn. simpl in Hn. pose proof (si_cache _ Hs _ _ Hn).
    simpl. rewrite length_app. lia.
  - apply (si_data _ Hs).
  - intros t tl Ht. apply (si_tiles _ Hs) in Ht as [Hok Hfl]. split; [|done].
    by apply (tile_ok_mono g).
  - apply (si_surf_inj _ Hs).
  - intros p pc Hp. apply (si_pieces _ Hs) in Hp as [Hok Hfl]. split; [|done].
    by apply (tile_ok_mono g).
  - apply (si_pieces_dict _ Hs).
  - apply (si_occupant _ Hs).
  - apply (si_piece_none _ Hs).
  - apply (si_tile_none _ Hs).
Qed.

Lemma setup_inv_set_image name r g :
  setup_inv g -> (r < length (surfaces g))%nat -> setup_inv (set_image name r g).
Proof.
  intros Hs Hr. split; try apply Hs.
  intros n r' Hn. simpl in *.
  apply lookup_insert_Some in Hn as [[_ <-]|[_ Hn]]; [done|].
  by apply (si_cache _ Hs _ _ Hn).
Qed.

Lemma get_image_inv name g r g' :
  get_image name g = Ok (r, g') ->
  exists r0 s,
    res_images (resources g) !! name = Some r0 /\ surfaces g !! r0 = Some s /\
    r = length (surfaces g) /\ g' = with_surfaces (surfaces g ++ [s]) g.
Proof.
  unfold get_image, cached_copy, deref.
  destruct (res_images (resources g) !! name) as [r0|] eqn:Hn; [|discriminate].
  destruct (surfaces g !! r0) as [s|] eqn:Hs; [|discriminate].
  simpl. intros [= <- <-]. by exists r0, s.
Qed.

Lemma place_piece_inv tile sref g g' :
  place_piece tile sref g = Ok g' ->
  exists s tl,
    surfaces g !! sref = Some s /\ tiles g !! tile = Some tl /\
    g' = placed g tile sref s tl.
Proof.
  unfold place_piece, deref.
  destruct (surfaces g !! sref) as [s|] eqn:Hs; [|discriminate].
  destruct (tiles g !! tile) as [tl|] eqn:Htl; [|discriminate].
  simpl. unfold update_tile, deref. simpl. rewrite Htl. simpl.
  unfold update_piece, deref. simpl. rewrite list_lookup_middle by done.
  simpl. intros [= <-]. exists s, tl. split; [done|]. split; [done|].
  unfold placed, with_pieces. simpl. f_equal.
  rewrite insert_app_r_alt by done. by rewrite Nat.sub_diag.
Qed.

Lemma place_piece_setup_inv tile sref g g' :
  setup_inv g -> place_piece tile sref g = Ok g' ->
  setup_inv g' /\
  board_tmx_tile_data (board g') = board_tmx_tile_data (board g).
Proof.
  intros Hs Hp. apply place_piece_inv in Hp as (s & tl & Hsf & Htl & ->).
  split; [|done].
  assert (Hold : forall u x,
            tiles (placed g tile sref s tl) !! u = Some x ->
            exists x0, tiles g !! u = Some x0 /\
              tile_surface x = tile_surface x0 /\ tile_rect x = tile_rect x0 /\
              tile_selected x = tile_selected x0 /\
              (tile_piece x = Some (length (pieces g)) /\ u = tile \/
               tile_piece x = tile_piece x0 /\ u <> tile)).
  { intros u x Hu. simpl in Hu.
    apply list_lookup_insert_Some in Hu as [(-> & <- & _)|(Hne & Hu)].
    - exists tl. repeat (split; [done|]). by left.
    - exists x. repeat (split; [done|]). right. split; [done|congruence]. }
  split.
  - apply (si_cache _ Hs).
  - intros layer d u Hd Hu. simpl. rewrite length_insert.
    by apply (si_data _ Hs layer d).
  - intros u x Hu. destruct (Hold _ _ Hu) as (x0 & Hx0 & Hs0 & Hr0 & Hf0 & _).
    destruct (si_tiles _ Hs _ _ Hx0) as [(Hrc & s0 & Hss & Hlt) Hfl0].
    split; [|congruence]. split; [congruence|]. exists s0. split; [congruence|done].
  - intros u1 u2 a b Ha Hb Hab.
    destruct (Hold _ _ Ha) as (a0 & Ha0 & Hsa & _).
    destruct (Hold _ _ Hb) as (b0 & Hb0 & Hsb & _).
    apply (si_surf_inj _ Hs _ _ _ _ Ha0 Hb0). congruence.
  - intros p pc Hp. simpl in Hp. apply lookup_app_Some in Hp as [Hp|[_ Hp]].
    + by apply (si_pieces _ Hs p).
    + apply list_lookup_singleton_Some in Hp as [_ <-]. split; [|done].
      split; [by eexists|]. exists sref. split; [done|].
      by apply lookup_lt_Some in Hsf.
  - intros p Hp. simpl in *. rewrite length_app. simpl.
    apply dict_values_set in Hp as [->|Hp]; [lia|].
    pose proof (si_pieces_dict _ Hs _ Hp). lia.
  - intros u x p Hu Hp.
    destruct (Hold _ _ Hu) as (x0 & Hx0 & _ & _ & _ & [[Hn ->]|[Hsame Hne]]).
    + rewrite Hp in Hn. injection Hn as ->. simpl.
      eexists. split; [by apply list_lookup_middle|done].
    + rewrite Hp in Hsame.
      destruct (si_occupant _ Hs _ _ _ Hx0 (eq_sym Hsame)) as (pc & Hpc & Hpt).
      exists pc. split; [|done]. simpl. by apply lookup_app_l_Some.
  - apply (si_piece_none _ Hs).
  - apply (si_tile_none _ Hs).
Qed.

Lemma empty_layers_get (layers : list nat) layer (d : dict nat) :
  dict_get layer (map (fun l : nat => (l, @nil (nat * nat))) layers) = Some d ->
  d = [].
Proof.
  induction layers as [|l layers IH]; simpl; [discriminate|].
  destruct (Nat.eqb layer l); [congruence|done].
Qed.

Lemma Game_init_setup_inv e g : Game_init e = Ok g -> setup_inv g.
Proof.
  unfold Game_init, GameBoard_init. intros H.
  apply bind_Ok in H as (b & Hb & H). apply bind_Ok in Hb as (m & _ & Hb).
  injection Hb as <-. injection H as <-.
  split; simpl; try done.
  - intros layer d t Hd Ht. apply empty_layers_get in Hd as ->.
    by apply not_elem_of_nil in Ht.
  - intros p Hp. by apply not_elem_of_nil in Hp.
Qed.

Lemma load_image_setup_inv e path a name g r g' :
  setup_inv g -> load_image e path a g = Ok (r, g') ->
  setup_inv (set_image name r g').
Proof.
  unfold load_image. intros Hs H.
  destruct (env_images e path) as [s|]; [|discriminate].
  injection H as <- <-. apply setup_inv_set_image; [by apply setup_inv_grow|].
  simpl. rewrite length_app. simpl. lia.
Qed.

Lemma GameResources_setup_inv e g g' :
  setup_inv g -> GameResources_setup e g = Ok g' ->
  setup_inv g' /\ board g' = board g.
Proof.
  unfold GameResources_setup. intros Hs H.
  apply bind_Ok in H as ([r1 g1] & H1 & H).
  apply bind_Ok in H as ([r2 g2] & H2 & H). injection H as <-. simpl in *.
  pose proof (load_image_setup_inv _ _ _ "piece_black" _ _ _ Hs H1) as Hs1.
  pose proof (load_image_setup_inv _ _ _ "piece_black_king" _ _ _ Hs1 H2) as Hs2.
  split; [done|].
  unfold load_image in *.
  destruct (env_images e "checker_piece_black.png"); [|discriminate].
  injection H1 as <- <-.
  destruct (env_images e "checker_piece_black_king.png"); [|discriminate].
  by injection H2 as <- <-.
Qed.

Lemma GameBoard_setup_inv e g g' :
  setup_inv g -> GameBoard_setup e g = Ok g' -> board_inv g'.
Proof.
  unfold GameBoard_setup. intros Hs H.
  apply bind_Ok in H as (g1 & Hg1 & H).
  apply place_tiles_setup_inv in Hg1; [|done].
  apply bind_Ok in H as (outer & _ & H).
  apply bind_Ok in H as (inner & Hinner & H).
  apply bind_Ok in H as (g2 & Hg2 & H).
  set (D := board_tmx_tile_data (board g1)) in *.
  set (P := fun s => setup_inv s /\ board_tmx_tile_data (board s) = D).
  assert (H2 : P g2).
  { revert Hg2. apply for_each_inv; [|done].
    intros tile s s' _ [Hss Hd] Hsh.
    apply shift_tile_setup_inv in Hsh as [Hss' Hb]; [|done].
    split; [done|]. by rewrite Hb. }
  assert (H3 : P g').
  { revert H. apply for_each_inv; [|done].
    intros index s s' _ [Hss Hd] Hb.
    apply bind_Ok in Hb as (tile & _ & Hb).
    apply bind_Ok in Hb as ([r s1] & Hgi & Hb). simpl in Hb.
    apply get_image_inv in Hgi as (r0 & sf & _ & _ & -> & ->).
    apply place_piece_setup_inv in Hb as [Hss' Hd']; [|by apply setup_inv_grow].
    split; [done|]. by rewrite Hd'. }
  destruct H3 as [Hs3 Hd3]. apply setup_inv_board_inv; [done|].
  rewrite Hd3. unfold dict_item in Hinner. fold D in Hinner.
  destruct (dict_get 1%nat D); [by eexists|discriminate].
Qed.

Theorem Game_setup_inv e g g' :
  Game_init e = Ok g -> Game_setup e g = Ok g' -> board_inv g'.
Proof.
  intros Hi H. apply Game_init_setup_inv in Hi.
  unfold Game_setup in H. apply bind_Ok in H as (g1 & Hg1 & H).
  apply GameResources_setup_inv in Hg1 as [Hs1 _]; [|done].
  by apply (GameBoard_setup_inv e g1).
Qed.

(** Every reachable state satisfies the board invariant. *)
Theorem reachable_board_inv g : reachable g -> board_inv g.
Proof.
  intros (e & samples & H). unfold Game_run in H.
  apply bind_Ok in H as (g0 & Hg0 & H). apply bind_Ok in H as (g1 & Hg1 & H).
  pose proof (Game_setup_inv _ _ _ Hg0 Hg1) as Hi1.
  revert H. apply for_each_inv; [|done].
  intros i s s' _ Hs Ht.
  destruct (Game_tick_inv i s Hs) as (s'' & Ht' & Hs'). congruence.
Qed.

(** X8. The half of the tile/piece link that setup does keep: in every reachable
    state the occupant of a tile is a piece that has this tile as its home. *)
Lemma occupant_home g t tl p :
  reachable g -> tiles g !! t = Some tl -> tile_piece tl = Some p ->
  exists pc, pieces g !! p = Some pc /\ piece_tile pc = Some t.
Proof. intros Hr. apply (inv_occupant _ (reachable_board_inv g Hr)). Qed.

(** X11. No tick of a run raises: from a reachable state every sample of the
    mouse leads to a reachable state. *)
Lemma Game_tick_total i g :
  reachable g -> exists g', Game_tick i g = Ok g' /\ reachable g'.
Proof.
  intros Hr. destruct (Game_tick_inv i g (reachable_board_inv g Hr)) as (g' & Hg' & _).
  exists g'. split; [done|].
  destruct Hr as (e & samples & Hrun). exists e, (samples ++ [i]).
  unfold Game_run in *.
  apply bind_Ok in Hrun as (g0 & -> & Hrun). simpl.
  apply bind_Ok in Hrun as (g1 & -> & Hrun). simpl.
  clear -Hrun Hg'. revert g1 Hrun.
  induction samples as [|a samples IH]; intros g1 Hrun; simpl in *.
  - injection Hrun as ->. by rewrite Hg'.
  - apply bind_Ok in Hrun as (g2 & -> & Hrun). simpl. by apply IH.
Qed.

(** C2. From a reachable state with piece [p] selected, when the button was
    released in the previous sample and is pressed in this one, and the tile
    [t] highlighted by this tick holds no piece, the tick succeeds and leaves
    [p] at the position of [t] (coordinates and rectangle), with [t] as its
    home tile and its selected flag cleared; the old home tile has no
    occupant, [t] has occupant [p], and no piece is selected. *)
Theorem move_relocates_selected_piece
  (g g1 : Game) (i : Sample) (p t : nat) (tl : GameTile) :
  reachable g ->
  board_piece_selected (board g) = Some p ->
  button1 (mouse_pressed (mouse g)) = false ->
  button1 (sample_pressed i) = true ->
  highlight_phase (sampled i g) = Ok g1 ->
  board_tmx_tile_selected (board g1) = Some t ->
  tiles g1 !! t = Some tl -> tile_piece tl = None ->
  exists g' old pc pc' rc otl' tl',
    Game_tick i g = Ok g' /\
    pieces g !! p = Some pc /\ piece_tile pc = Some old /\ old <> t /\
    tile_rect (piece_base pc) = Some rc /\
    pieces g' !! p = Some pc' /\
    tile_x (piece_base pc') = tile_x tl /\
    tile_y (piece_base pc') = tile_y tl /\
    tile_rect (piece_base pc')
      = Some (mkRect (tile_x tl) (tile_y tl) (rect_w rc) (rect_h rc)) /\
    piece_tile pc' = Some t /\
    tile_selected (piece_base pc') = false /\
    tiles g' !! old = Some otl' /\ tile_piece otl' = None /\
    tiles g' !! t = Some tl' /\ tile_piece tl' = Some p /\
    board_piece_selected (board g') = None.
Proof.
  intros Hreach Hsel Hlast Hnow Hhl Ht Htl Hempty.
  pose proof (board_inv_with_mouse (GameMouse_tick i (mouse g)) g
                (reachable_board_inv g Hreach)) as Hi0.
  fold (sampled i g) in Hi0.
  destruct (highlight_phase_spec _ Hi0) as (g1' & Hhl' & Hi1 & Hf1 & [Hp1 Hs1] & _).
  rewrite Hhl in Hhl'. injection Hhl' as <-.
  assert (Hedge : press_edge (mouse g1) = true).
  { rewrite (fr_mouse _ _ Hf1). unfold press_edge. simpl.
    by rewrite Hlast, Hnow. }
  assert (Hsel1 : board_piece_selected (board g1) = Some p) by by rewrite Hs1.
  assert (Hnone : tile_selected_piece g1 = Ok None).
  { rewrite (tile_selected_piece_Ok g1 t tl) by done. by rewrite Hempty. }
  unfold Game_tick, GameBoard_tick. fold (sampled i g). rewrite Hhl. simpl.
  destruct (switch_spec g1 Hi1) as (g2 & -> & _ & _ & _ & _ & Hg2). simpl.
  rewrite (Hg2 Hnone). clear g2 Hg2.
  destruct (select_spec g1 Hi1) as (g3 & -> & _ & _ & _ & _ & Hg3). simpl.
  rewrite (Hg3 Hnone). clear g3 Hg3.
  destruct (move_spec g1 Hi1) as (g4 & -> & Hi4 & _ & Hg4). simpl.
  destruct (Hg4 p t tl Hedge Hsel1 Ht Htl Hempty)
    as (old & pc & rc & otl & Hpc & Hrc & Hold & Hotl & Hne & ->).
  destruct (pieces_tick_spec _ Hi4) as (g5 & -> & Hbf & _).
  assert (Hp4 : pieces (moved g1 p t old pc rc tl otl) !! p
                = Some (moved_piece pc rc t tl)).
  { simpl. by apply (lookup_insert_same _ _ pc). }
  assert (Hlt : (p < length (pieces g5))%nat).
  { rewrite <- (length_fmap piece_core), (bf_pieces _ _ Hbf), length_fmap.
    by apply lookup_lt_Some in Hp4. }
  apply lookup_lt_is_Some_2 in Hlt as [pc' Hpc'].
  destruct (blink_frame_piece _ _ _ _ Hbf Hpc') as (pc4 & Hpc4 & Hbase & Htile).
  rewrite Hp4 in Hpc4. injection Hpc4 as <-.
  exists g5, old, pc, pc', rc, (GameTile_set_piece None otl),
         (GameTile_set_piece (Some p) tl).
  split; [done|]. split; [by rewrite Hp1 in Hpc|]. split; [done|]. split; [done|].
  split; [done|]. split; [done|].
  rewrite <- Hbase, <- Htile, (bf_tiles _ _ Hbf), (bf_board _ _ Hbf). simpl.
  repeat (split; [done|]).
  split; [|split; [done|split; [|done]]].
  - rewrite list_lookup_insert_ne by done. by apply (lookup_insert_same _ _ otl).
  - apply list_lookup_insert_eq. rewrite length_insert.
    by apply lookup_lt_Some in Htl.
Qed.

Lemma board_inv_one_selected g : board_inv g -> one_selected g.
Proof. intros Hi p pc. apply (inv_piece_flag _ Hi). Qed.

(** C4. In every reachable state, and after each step of the next tick, a
    piece carries the selected flag exactly when it is the board's selected
    piece (so at most one does); when the switch branch fires, the
    old selection is cleared first, no piece is flagged in between, and then
    the occupant of the highlighted tile is selected. *)
Theorem one_piece_selected (g : Game) (i : Sample) :
  reachable g ->
  one_selected g /\
  exists g1 g2 g3 g4 g5,
    highlight_phase (sampled i g) = Ok g1 /\
    when switch_guard switch_branch g1 = Ok g2 /\
    when select_guard select_branch g2 = Ok g3 /\
    when move_guard move_branch g3 = Ok g4 /\
    pieces_tick g4 = Ok g5 /\
    Game_tick i g = Ok g5 /\
    one_selected g1 /\ one_selected g2 /\ one_selected g3 /\
    one_selected g4 /\ one_selected g5 /\
    (switch_guard g1 = Ok true ->
     exists gm q,
       clear_selected_piece g1 = Ok gm /\
       no_piece_flagged gm /\ board_piece_selected (board gm) = None /\
       tile_selected_piece gm = Ok (Some q) /\
       set_selected_piece (Some q) gm = Ok g2 /\
       board_piece_selected (board g2) = Some q).
Proof.
  intros Hreach. pose proof (reachable_board_inv g Hreach) as Hi.
  split; [by apply board_inv_one_selected|].
  pose proof (board_inv_with_mouse (GameMouse_tick i (mouse g)) g Hi) as Hi0.
  fold (sampled i g) in Hi0.
  destruct (highlight_phase_spec _ Hi0) as (g1 & Hg1 & Hi1 & _).
  destruct (switch_spec g1 Hi1) as (g2 & Hg2 & Hi2 & _).
  destruct (select_spec g2 Hi2) as (g3 & Hg3 & Hi3 & _).
  destruct (move_spec g3 Hi3) as (g4 & Hg4 & Hi4 & _).
  destruct (pieces_tick_spec g4 Hi4) as (g5 & Hg5 & _ & Hi5).
  exists g1, g2, g3, g4, g5.
  repeat (split; [done|]).
  split.
  { unfold Game_tick, GameBoard_tick. fold (sampled i g).
    rewrite Hg1. simpl. rewrite Hg2. simpl. rewrite Hg3. simpl.
    rewrite Hg4. simpl. done. }
  repeat (split; [by apply board_inv_one_selected|]).
  intros Hguard. unfold when in Hg2. rewrite Hguard in Hg2. simpl in Hg2.
  unfold switch_guard in Hguard.
  destruct (button1 (mouse_pressed (mouse g1))); [|discriminate].
  destruct (board_piece_selected (board g1)) as [p|] eqn:Hp; [|discriminate].
  destruct (clear_selected_piece_spec g1 p Hi1 Hp) as (pc & Hpc & Hclear & _ & Hnf).
  unfold switch_branch in Hg2. rewrite Hclear in Hg2. simpl in Hg2.
  apply bind_Ok in Hg2 as (x & Hx & Hg2).
  destruct (set_selected_piece_inv _ _ _ Hg2) as (q & qc & -> & Hqc & Hg2').
  exists (cleared_piece g1 p pc), q.
  repeat (split; [done|]). by rewrite Hg2'.
Qed.

(** C5. From a reachable state, the highlight loop of a tick succeeds; after
    it the highlighted tile of the board is the last inner tile, in loop
    order, whose rectangle contains the pointer (none if there is none), a
    tile carries the selected flag exactly when it is that tile (so at most
    one does), and a tile that was highlighted before and is no longer under
    the pointer has its flag cleared and its transparency back to normal. *)
Theorem highlight_marks_tile_under_pointer (g : Game) (i : Sample) :
  reachable g ->
  exists g1,
    highlight_phase (sampled i g) = Ok g1 /\
    inner_tiles g1 = inner_tiles (sampled i g) /\
    (forall t, tile_hit g1 t = tile_hit (sampled i g) t) /\
    board_tmx_tile_selected (board g1) = last (tiles_under_pointer (sampled i g)) /\
    (forall t tl, tiles g1 !! t = Some tl ->
       (tile_selected tl = true <-> board_tmx_tile_selected (board g1) = Some t)) /\
    (forall t t' tl tl',
       tiles g1 !! t = Some tl -> tiles g1 !! t' = Some tl' ->
       tile_selected tl = true -> tile_selected tl' = true -> t = t') /\
    (forall t0, board_tmx_tile_selected (board g) = Some t0 ->
       tile_hit (sampled i g) t0 = false ->
       exists tl, tiles g1 !! t0 = Some tl /\ tile_selected tl = false /\
                  tile_alpha g1 t0 = Some (Some GAME_BOARD_TILE_ALPHA_NORMAL)).
Proof.
  intros Hreach. pose proof (reachable_board_inv g Hreach) as Hi.
  pose proof (board_inv_with_mouse (GameMouse_tick i (mouse g)) g Hi) as Hi0.
  fold (sampled i g) in Hi0.
  destruct (highlight_phase_spec _ Hi0) as (g1 & Hg1 & Hi1 & Hf1 & _ & Hsel & Hnorm).
  exists g1. split; [done|]. split; [by apply frame_inner|].
  split; [intros t; by apply frame_tile_hit|]. split; [done|].
  split; [apply (inv_tile_flag _ Hi1)|].
  split.
  { intros t t' tl tl' Ht Ht' Hfl Hfl'.
    apply (inv_tile_flag _ Hi1 _ _ Ht) in Hfl.
    apply (inv_tile_flag _ Hi1 _ _ Ht') in Hfl'. congruence. }
  intros t0 Ht0 Hhit.
  assert (Hlt : (t0 < length (tiles g1))%nat).
  { rewrite (fmap_eq_length _ _ _ (fr_tiles _ _ Hf1)).
    apply (inv_inner _ Hi0). by apply (inv_tile_sel _ Hi0). }
  apply lookup_lt_is_Some_2 in Hlt as [tl Htl].
  exists tl. split; [done|]. split; [|by apply Hnorm].
  destruct (tile_selected tl) eqn:Hfl; [|done].
  apply (inv_tile_flag _ Hi1 _ _ Htl) in Hfl. rewrite Hsel in Hfl.
  apply last_Some_elem_of, list_elem_of_filter in Hfl as [Hu _]. congruence.
Qed.

(** C1, on a board of two inner tiles with the pieces dealt alternately:
    setup succeeds, the first piece has the first inner tile as its home, but
    that tile's occupant is another piece; six pieces share that home. *)
Theorem setup_stacks_pieces :
  Game_run two_tiles [] = Ok after_setup /\
  piece_tile <$> pieces after_setup !! 0%nat = Some (Some 1%nat) /\
  tile_piece <$> tiles after_setup !! 1%nat = Some (Some 10%nat) /\
  length (filter (fun pc => piece_tile pc = Some 1%nat) (pieces after_setup))
  = 6%nat.
Proof.
  split; [vm_compute; reflexivity|].
  split; [vm_compute; reflexivity|].
  split; vm_compute; reflexivity.
Qed.

(** C3, on the same board: after a press on the first tile its occupant is
    selected and the button is down; a second sample with the button still
    down (no press edge) and the pointer over the other occupied tile makes
    the tick switch the selection to that tile's occupant. *)
Theorem held_button_switches_selection :
  Game_run two_tiles [press 498 265] = Ok after_press /\
  button1 (mouse_pressed (mouse after_press)) = true /\
  board_piece_selected (board after_press) = Some 10%nat /\
  exists g',
    Game_tick (press 530 265) after_press = Ok g' /\
    press_edge (mouse g') = false /\
    board_piece_selected (board g') = Some 11%nat.
Proof.
  split; [vm_compute; reflexivity|].
  split; [vm_compute; reflexivity|].
  split; [vm_compute; reflexivity|].
  exists (or_empty (Game_tick (press 530 265) after_press)).
  split; [vm_compute; reflexivity|].
  split; vm_compute; reflexivity.
Qed.

Lemma after_release_reachable : reachable after_release.
Proof.
  exists three_tiles, [press 498 265; release 498 265]. vm_compute. reflexivity.
Defined.

Lemma move_example :
  exists g',
    Game_tick (press 530 265) after_release = Ok g' /\
    piece_tile <$> pieces g' !! 11%nat = Some (Some 3%nat) /\
    tile_piece <$> tiles g' !! 1%nat = Some None /\
    tile_piece <$> tiles g' !! 3%nat = Some (Some 11%nat) /\
    board_piece_selected (board g') = None.
Proof.
  destruct (move_relocates_selected_piece after_release
              (or_empty (highlight_phase (sampled (press 530 265) after_release)))
              (press 530 265) 11 3
              (tile_or_init
                 (or_empty (highlight_phase (sampled (press 530 265) after_release)))
                 3))
    as (g' & old & pc & pc' & rc & otl' & tl' & Ht & Hpc & Hold & Hne & Hrc &
        Hpc' & Hx & Hy & Hr & Hhome & Hfl & Hotl & Hoc & Htl & Htc & Hsel).
  - exact after_release_reachable.
  - vm_compute. reflexivity.
  - vm_compute. reflexivity.
  - vm_compute. reflexivity.
  - vm_compute. reflexivity.
  - vm_compute. reflexivity.
  - vm_compute. reflexivity.
  - vm_compute. reflexivity.
  - exists g'. split; [exact Ht|].
    assert (Ho : piece_tile <$> pieces after_release !! 11%nat
                 = Some (Some 1%nat)) by (vm_compute; reflexivity).
    rewrite Hpc in Ho. cbn in Ho. rewrite Hold in Ho.
    injection Ho as Ho. clear Hpc Ht. subst old.
    rewrite Hpc', Hotl, Htl. cbn. rewrite Hhome, Hoc, Htc.
    split; [reflexivity|]. split; [reflexivity|]. split; [reflexivity|].
    exact Hsel.
Defined.

Lemma selection_example : one_selected after_release.
Proof.
  exact (proj1 (one_piece_selected after_release (press 530 265)
                  after_release_reachable)).
Defined.

Lemma highlight_example :
  exists g1,
    highlight_phase (sampled (release 530 265) after_release) = Ok g1 /\
    board_tmx_tile_selected (board g1) = Some 3%nat.
Proof.
  destruct (highlight_marks_tile_under_pointer after_release (release 530 265)
              after_release_reachable)
    as (g1 & Hg1 & _ & _ & Hsel & _).
  exists g1. split; [exact Hg1|]. rewrite Hsel. vm_compute. reflexivity.
Defined.

Lemma select_example :
  move_guard (or_empty (select_branch before_select)) = Ok false.
Proof.
  apply (select_excludes_move before_select
           (or_empty (select_branch before_select))).
  - vm_compute. reflexivity.
  - vm_compute. reflexivity.
Defined.

Lemma after_setup_cache_valid : cache_valid after_setup.
Proof.
  apply (bool_decide_unpack _). vm_compute. exact I.
Defined.

Lemma get_image_example :
  get_image "piece_white" after_setup = Raise (not_found "piece_white") /\
  exists r' g', get_image "piece_black" after_setup = Ok (r', g').
Proof.
  destruct (get_image_spec "piece_white" after_setup after_setup_cache_valid)
    as [Hw _].
  destruct (get_image_spec "piece_black" after_setup after_setup_cache_valid)
    as [_ Hb].
  split.
  - apply Hw. vm_compute. reflexivity.
  - destruct (Hb 0%nat) as (s & r' & g' & _ & Hg & _).
    + vm_compute. reflexivity.
    + exists r', g'. exact Hg.
Defined.

Lemma copies_example :
  exists r1 g1 r2 g2,
    get_image "piece_black" after_setup = Ok (r1, g1) /\
    get_image "piece_black" g1 = Ok (r2, g2) /\ r1 <> r2.
Proof.
  destruct (get_image_copies_independent "piece_black" after_setup 0
              after_setup_cache_valid)
    as (s & r1 & g1 & r2 & g2 & _ & H1 & H2 & Hne & _).
  - vm_compute. reflexivity.
  - exists r1, g1, r2, g2. split; [exact H1|]. split; [exact H2|exact Hne].
Defined.

(** * The rest of the program *)

(** ** A tick, one elementary change after another *)

Lemma when_inv guard branch g g' :
  when guard branch g = Ok g' ->
  guard g = Ok false /\ g' = g \/ guard g = Ok true /\ branch g = Ok g'.
Proof.
  unfold when. intros H. apply bind_Ok in H as (c & Hc & H).
  destruct c; [by right|]. injection H as <-. by left.
Qed.

Lemma move_selected_piece_inv p t g g' :
  move_selected_piece p t g = Ok g' ->
  exists old pc rc tl otl tl2,
    pieces g !! p = Some pc /\ tile_rect (piece_base pc) = Some rc /\
    piece_tile pc = Some old /\ tiles g !! old = Some otl /\
    tiles g !! t = Some tl /\
    <[old := GameTile_set_piece None otl]> (tiles g) !! t = Some tl2 /\
    clear_selected_piece (relocated g p t old pc rc tl otl tl2) = Ok g'.
Proof.
  unfold move_selected_piece. intros H.
  apply bind_Ok in H as (tl & Htl & H). apply deref_Ok in Htl.
  apply bind_Ok in H as (g1 & Hg1 & H).
  apply update_piece_inv in Hg1 as (pc & pc1 & Hpc & Hpc1 & ->).
  unfold on_base_r, GameTile_set_x in Hpc1.
  apply bind_Ok in Hpc1 as (b1 & Hb1 & Hpc1).
  apply bind_Ok in Hb1 as (rc & Hrc & Hb1). apply attr_of_Ok in Hrc.
  injection Hb1 as <-. injection Hpc1 as <-.
  apply bind_Ok in H as (tl' & Htl' & H). apply deref_Ok in Htl'.
  simpl in Htl'. rewrite Htl in Htl'. injection Htl' as <-.
  apply bind_Ok in H as (g2 & Hg2 & H).
  apply update_piece_inv in Hg2 as (pc2 & pc2' & Hpc2 & Hpc2' & ->).
  simpl in Hpc2. rewrite (lookup_insert_same _ _ _ _ Hpc) in Hpc2.
  injection Hpc2 as <-. unfold on_base_r, GameTile_set_y in Hpc2'.
  simpl in Hpc2'. injection Hpc2' as <-.
  simpl in H. rewrite list_insert_insert_eq in H.
  apply bind_Ok in H as (pc3 & Hpc3 & H). apply deref_Ok in Hpc3.
  simpl in Hpc3. rewrite (lookup_insert_same _ _ _ _ Hpc) in Hpc3.
  injection Hpc3 as <-.
  apply bind_Ok in H as (old & Hold & H). apply attr_of_Ok in Hold.
  unfold getattr in Hold. simpl in Hold. unfold tile_getter in Hold.
  simpl in Hold.
  apply bind_Ok in H as (g3 & Hg3 & H).
  apply update_tile_inv in Hg3 as (otl & otl' & Hotl & Hotl' & ->).
  injection Hotl' as <-. simpl in Hotl.
  apply bind_Ok in H as (g4 & Hg4 & H).
  apply update_piece_inv in Hg4 as (pc4 & pc4' & Hpc4 & Hpc4' & ->).
  simpl in Hpc4. rewrite (lookup_insert_same _ _ _ _ Hpc) in Hpc4.
  injection Hpc4 as <-. injection Hpc4' as <-.
  apply bind_Ok in H as (g5 & Hg5 & H).
  apply update_tile_inv in Hg5 as (tl2 & tl2' & Htl2 & Htl2' & ->).
  injection Htl2' as <-. simpl in Htl2.
  simpl in H. rewrite list_insert_insert_eq in H.
  exists old, pc, rc, tl, otl, tl2. repeat (split; [done|]). exact H.
Qed.

Lemma GamePiece_tick_inv r g g' :
  GamePiece_tick r g = Ok g' ->
  exists pc s sf,
    pieces g !! r = Some pc /\ tile_surface (piece_base pc) = Some s /\
    surfaces g !! s = Some sf /\ g' = ticked g r s pc sf.
Proof.
  intros H0. pose proof H0 as H. unfold GamePiece_tick in H.
  apply bind_Ok in H as (pc & Hpc & H). apply deref_Ok in Hpc.
  fold (ticked_piece pc) in H.
  apply bind_Ok in H as (s & Hs & H). apply attr_of_Ok in Hs.
  rewrite ticked_piece_base in Hs.
  assert (Hf : exists sf, surfaces g !! s = Some sf).
  { destruct (piece_blinking (ticked_piece pc));
      apply update_surface_inv in H as (sf & Hsf & _); by exists sf. }
  destruct Hf as [sf Hsf]. exists pc, s, sf. repeat (split; [done|]).
  rewrite (GamePiece_tick_Ok g r s pc sf Hpc Hs Hsf) in H0. by injection H0.
Qed.

(** A tick is a sequence of elementary changes. *)
Lemma highlight_tile_atoms t g g' :
  highlight_tile t g = Ok g' -> rtc tick_atom g g'.
Proof.
  unfold highlight_tile. intros H.
  apply bind_Ok in H as (tl & _ & H). apply bind_Ok in H as (rc & _ & H).
  destruct (collidepoint rc (mouse_pos (mouse g))).
  - apply bind_Ok in H as (g1 & Hg1 & H).
    apply set_selected_tile_inv in H as (tl1 & s1 & sf1 & ? & ? & ? & ->).
    eapply rtc_r; [|by apply atom_mark_tile].
    destruct (truthy (board_tmx_tile_selected (board g))).
    + apply clear_selected_tile_inv in Hg1 as (r & tl0 & s0 & sf0 & ? & ? & ? & ? & ->).
      apply rtc_once. by apply atom_clear_tile.
    + injection Hg1 as <-. apply rtc_refl.
  - destruct (tile_selected tl).
    + apply clear_selected_tile_inv in H as (r & tl0 & s0 & sf0 & ? & ? & ? & ? & ->).
      apply rtc_once. by apply atom_clear_tile.
    + injection H as <-. apply rtc_refl.
Qed.

Lemma for_each_atoms {A} (body : A -> Game -> result Game) (l : list A) :
  (forall a g g', body a g = Ok g' -> rtc tick_atom g g') ->
  forall g g', for_each l body g = Ok g' -> rtc tick_atom g g'.
Proof.
  intros Hb. induction l as [|a l IH]; intros g g' H; simpl in H.
  - injection H as <-. apply rtc_refl.
  - apply bind_Ok in H as (g1 & Hg1 & H).
    eapply rtc_trans; [by eapply Hb|by apply IH].
Qed.

Lemma highlight_phase_atoms g g' :
  highlight_phase g = Ok g' -> rtc tick_atom g g'.
Proof.
  unfold highlight_phase. intros H. apply bind_Ok in H as (inner & _ & H).
  revert H. apply for_each_atoms. apply highlight_tile_atoms.
Qed.

Lemma set_selected_piece_atoms p g g' :
  set_selected_piece p g = Ok g' -> rtc tick_atom g g'.
Proof.
  intros H. apply set_selected_piece_inv in H as (r & pc & -> & ? & ->).
  apply rtc_once. by apply atom_mark_piece.
Qed.

Lemma clear_selected_piece_atoms g g' :
  clear_selected_piece g = Ok g' -> rtc tick_atom g g'.
Proof.
  intros H. apply clear_selected_piece_inv in H as (r & pc & ? & ? & ->).
  apply rtc_once. by apply atom_clear_piece.
Qed.

Lemma switch_branch_atoms g g' : switch_branch g = Ok g' -> rtc tick_atom g g'.
Proof.
  unfold switch_branch. intros H.
  apply bind_Ok in H as (g1 & Hg1 & H). apply bind_Ok in H as (p & _ & H).
  eapply rtc_trans;
    [by apply clear_selected_piece_atoms|by eapply set_selected_piece_atoms].
Qed.

Lemma select_branch_atoms g g' : select_branch g = Ok g' -> rtc tick_atom g g'.
Proof.
  unfold select_branch. intros H. apply bind_Ok in H as (p & _ & H).
  by eapply set_selected_piece_atoms.
Qed.

Lemma move_branch_atoms g g' : move_branch g = Ok g' -> rtc tick_atom g g'.
Proof.
  unfold move_branch. intros H.
  apply bind_Ok in H as (p & _ & H). apply bind_Ok in H as (t & _ & H).
  apply move_selected_piece_inv in H
    as (old & pc & rc & tl & otl & tl2 & ? & ? & ? & ? & ? & ? & H).
  eapply rtc_l; [by eapply atom_relocate|].
  by apply clear_selected_piece_atoms.
Qed.

Lemma when_atoms guard branch g g' :
  (forall g g', branch g = Ok g' -> rtc tick_atom g g') ->
  when guard branch g = Ok g' -> rtc tick_atom g g'.
Proof.
  intros Hb H. apply when_inv in H as [[_ ->]|[_ H]]; [apply rtc_refl|by apply Hb].
Qed.

Lemma pieces_tick_atoms g g' : pieces_tick g = Ok g' -> rtc tick_atom g g'.
Proof.
  unfold pieces_tick. apply for_each_atoms. intros r s s' H.
  apply GamePiece_tick_inv in H as (pc & sr & sf & ? & ? & ? & ->).
  apply rtc_once. by apply atom_blink.
Qed.

Lemma GameBoard_tick_atoms g g' :
  GameBoard_tick g = Ok g' -> rtc tick_atom g g'.
Proof.
  unfold GameBoard_tick. intros H.
  apply bind_Ok in H as (g1 & H1 & H). apply bind_Ok in H as (g2 & H2 & H).
  apply bind_Ok in H as (g3 & H3 & H). apply bind_Ok in H as (g4 & H4 & H).
  eapply rtc_trans; [by apply highlight_phase_atoms|].
  eapply rtc_trans; [by eapply when_atoms, H2; apply switch_branch_atoms|].
  eapply rtc_trans; [by eapply when_atoms, H3; apply select_branch_atoms|].
  eapply rtc_trans; [by eapply when_atoms, H4; apply move_branch_atoms|].
  by apply pieces_tick_atoms.
Qed.

(** ** What no tick changes *)

Lemma stable_refl g : stable g g.
Proof. by split. Qed.

Lemma stable_trans g1 g2 g3 : stable g1 g2 -> stable g2 g3 -> stable g1 g3.
Proof. intros [] []. split; congruence. Qed.

Lemma tick_atom_stable g g' : tick_atom g g' -> stable g g'.
Proof.
  intros H. destruct H; split; simpl; try done.
  - by apply (fmap_insert_same _ _ _ sf).
  - by apply (fmap_insert_same _ _ _ tl).
  - by apply (fmap_insert_same _ _ _ sf).
  - by apply (fmap_insert_same _ _ _ tl).
  - by apply (fmap_insert_same _ _ _ pc).
  - by apply (fmap_insert_same _ _ _ pc).
  - rewrite (fmap_insert_same _ _ _ tl2); [|done|done].
    by apply (fmap_insert_same _ _ _ otl).
  - apply (fmap_insert_same _ _ _ pc); [done|].
    unfold piece_fixed. simpl. by rewrite H0.
  - by apply (fmap_insert_same _ _ _ sf).
  - apply (fmap_insert_same _ _ _ pc); [done|].
    unfold piece_fixed. by rewrite ticked_piece_base.
Qed.

Lemma atoms_stable g g' : rtc tick_atom g g' -> stable g g'.
Proof.
  induction 1 as [|g1 g2 g3 H _ IH]; [apply stable_refl|].
  eapply stable_trans; [by apply tick_atom_stable|done].
Qed.

Lemma Game_tick_stable i g g' :
  Game_tick i g = Ok g' -> stable (sampled i g) g'.
Proof. intros H. by apply atoms_stable, GameBoard_tick_atoms. Qed.

(** X12. After a tick the mouse holds the sample of this tick and, as its last
    state, the one of the tick before: the board's tick does not touch the
    mouse. *)
Theorem tick_keeps_two_samples (i : Sample) (g g' : Game) :
  Game_tick i g = Ok g' ->
  mouse_pressed (mouse g') = sample_pressed i /\
  mouse_pos (mouse g') = sample_pos i /\
  mouse_last_pressed (mouse g') = mouse_pressed (mouse g) /\
  mouse_last_pos (mouse g') = mouse_pos (mouse g).
Proof.
  intros H. rewrite (st_mouse _ _ (Game_tick_stable _ _ _ H)). done.
Qed.

(** X13. A tick creates and removes no tile and leaves every tile its index,
    layer, surface, rectangle and coordinates. *)
Theorem tick_never_moves_a_tile (i : Sample) (g g' : Game) :
  Game_tick i g = Ok g' ->
  length (tiles g') = length (tiles g) /\
  forall t tl', tiles g' !! t = Some tl' ->
    exists tl, tiles g !! t = Some tl /\
      tile_index tl' = tile_index tl /\ tile_layer tl' = tile_layer tl /\
      tile_surface tl' = tile_surface tl /\ tile_rect tl' = tile_rect tl /\
      tile_x tl' = tile_x tl /\ tile_y tl' = tile_y tl.
Proof.
  intros H. pose proof (st_tiles _ _ (Game_tick_stable _ _ _ H)) as Ht.
  simpl in Ht. split; [by apply (fmap_eq_length tile_fixed)|].
  intros t tl' Htl'.
  destruct (fmap_eq_lookup _ _ _ _ _ Ht Htl') as (tl & Htl & He).
  exists tl. split; [done|].
  repeat split;
    [apply (f_equal tile_index) in He | apply (f_equal tile_layer) in He
    |apply (f_equal tile_surface) in He | apply (f_equal tile_rect) in He
    |apply (f_equal tile_x) in He | apply (f_equal tile_y) in He];
    symmetry; exact He.
Qed.

(** X14. A tick leaves the image cache, both dictionaries of the board and the
    board's origin as they are, creates no piece and no surface, keeps the
    size and the pixels of every surface, and keeps the index and the surface
    of every piece. *)
Theorem tick_allocates_nothing (i : Sample) (g g' : Game) :
  Game_tick i g = Ok g' ->
  resources g' = resources g /\
  board_pieces (board g') = board_pieces (board g) /\
  board_tmx_tile_data (board g') = board_tmx_tile_data (board g) /\
  board_x (board g') = board_x (board g) /\
  board_y (board g') = board_y (board g) /\
  length (pieces g') = length (pieces g) /\
  length (surfaces g') = length (surfaces g) /\
  (forall s sf', surfaces g' !! s = Some sf' ->
     exists sf, surfaces g !! s = Some sf /\
       surf_w sf' = surf_w sf /\ surf_h sf' = surf_h sf /\
       surf_pixels sf' = surf_pixels sf) /\
  (forall p pc', pieces g' !! p = Some pc' ->
     exists pc, pieces g !! p = Some pc /\
       tile_index (piece_base pc') = tile_index (piece_base pc) /\
       tile_surface (piece_base pc') = tile_surface (piece_base pc)).
Proof.
  intros H. pose proof (Game_tick_stable _ _ _ H) as Hs.
  pose proof (st_board _ _ Hs) as Hb. simpl in Hb.
  split; [apply (st_resources _ _ Hs)|].
  split; [by apply (f_equal board_pieces) in Hb|].
  split; [by apply (f_equal board_tmx_tile_data) in Hb|].
  split; [by apply (f_equal board_x) in Hb|].
  split; [by apply (f_equal board_y) in Hb|].
  split; [apply (fmap_eq_length piece_fixed), (st_pieces _ _ Hs)|].
  split; [apply (fmap_eq_length surface_fixed), (st_surfaces _ _ Hs)|].
  split.
  - intros s sf' Hsf'.
    destruct (fmap_eq_lookup _ _ _ _ _ (st_surfaces _ _ Hs) Hsf') as (sf & Hsf & He).
    exists sf. split; [done|]. by injection He.
  - intros p pc' Hpc'.
    destruct (fmap_eq_lookup _ _ _ _ _ (st_pieces _ _ Hs) Hpc') as (pc & Hpc & He).
    exists pc. split; [done|]. by injection He.
Qed.

(** ** Walking through setup *)

Lemma GameBoard_setup_phases (P Q : Game -> Prop) e g g' :
  GameBoard_setup e g = Ok g' -> P g ->
  (forall x y l s g g', P g -> place_tile x y l s g = Ok g' -> P g') ->
  (forall dx dy t g g', P g -> shift_tile dx dy t g = Ok g' -> P g') ->
  (forall g, P g -> Q g) ->
  (forall t r g g1 g', Q g -> get_image "piece_black" g = Ok (r, g1) ->
                       place_piece t r g1 = Ok g' -> Q g') ->
  Q g'.
Proof.
  unfold GameBoard_setup, place_tiles. intros H HP Hplace Hshift HPQ Hpiece.
  apply bind_Ok in H as (g1 & Hg1 & H).
  assert (HP1 : P g1).
  { revert Hg1. apply for_each_inv; [|done]. intros x s1 s1' _ Hs1.
    apply for_each_inv; [|done]. intros y s2 s2' _ Hs2.
    apply for_each_inv; [|done]. intros layer s3 s3' _ Hs3.
    destruct (get_tile_image _ x y layer) as [surface|].
    - by apply Hplace.
    - by intros [= <-]. }
  apply bind_Ok in H as (outer & _ & H).
  apply bind_Ok in H as (inner & _ & H).
  apply bind_Ok in H as (g2 & Hg2 & H).
  assert (HP2 : P g2).
  { revert Hg2. apply for_each_inv; [|done]. intros t s s' _ Hs. by apply Hshift. }
  revert H. apply for_each_inv; [|by apply HPQ].
  intros index s s' _ Hs Hb.
  apply bind_Ok in Hb as (tile & _ & Hb).
  apply bind_Ok in Hb as ([r s1] & Hgi & Hb). simpl in Hb.
  by apply (Hpiece tile r s s1 s').
Qed.

Lemma shift_tile_inv dx dy t g g' :
  shift_tile dx dy t g = Ok g' ->
  exists tl rc,
    tiles g !! t = Some tl /\ tile_rect tl = Some rc /\
    g' = with_tiles
           (<[t := mkTile (tile_index tl) (tile_surface tl)
                          (Some (mkRect (tile_x tl + dx) (tile_y tl + dy)
                                        (rect_w rc) (rect_h rc)))
                          (tile_x tl + dx) (tile_y tl + dy) (tile_layer tl)
                          (tile_selected tl) (tile_piece tl)]> (tiles g)) g.
Proof.
  unfold shift_tile. intros H.
  apply bind_Ok in H as (tl & Htl & H). apply deref_Ok in Htl.
  apply bind_Ok in H as (g1 & Hg1 & H).
  apply update_tile_inv in Hg1 as (tl0 & tl1 & Htl0 & Htl1 & ->).
  rewrite Htl in Htl0. injection Htl0 as <-.
  unfold GameTile_set_x in Htl1. apply bind_Ok in Htl1 as (rc & Hrc & Htl1).
  apply attr_of_Ok in Hrc. injection Htl1 as <-.
  apply bind_Ok in H as (tl2 & Htl2 & H). apply deref_Ok in Htl2.
  simpl in Htl2. rewrite (lookup_insert_same _ _ _ _ Htl) in Htl2.
  injection Htl2 as <-.
  apply update_tile_inv in H as (tl3 & tl4 & Htl3 & Htl4 & ->).
  simpl in Htl3. rewrite (lookup_insert_same _ _ _ _ Htl) in Htl3.
  injection Htl3 as <-. unfold GameTile_set_y in Htl4. simpl in Htl4.
  injection Htl4 as <-. exists tl, rc. split; [done|]. split; [done|].
  unfold with_tiles. simpl. by rewrite list_insert_insert_eq.
Qed.

Lemma piece_step_inv t r g g1 g' :
  get_image "piece_black" g = Ok (r, g1) -> place_piece t r g1 = Ok g' ->
  exists r0 sf tl,
    res_images (resources g) !! "piece_black" = Some r0 /\
    surfaces g !! r0 = Some sf /\ tiles g !! t = Some tl /\
    r = length (surfaces g) /\
    g' = placed (with_surfaces (surfaces g ++ [sf]) g) t r sf tl.
Proof.
  intros Hgi Hpp. apply get_image_inv in Hgi as (r0 & sf & Hn & Hsf & -> & ->).
  apply place_piece_inv in Hpp as (s & tl & Hs & Htl & ->).
  simpl in Hs. rewrite list_lookup_middle in Hs by done. injection Hs as <-.
  by exists r0, sf, tl.
Qed.

Lemma dict_set_fresh {V} (k : nat) (v : V) (d : dict V) :
  (forall k' v', (k', v') ∈ d -> k' <> k) -> dict_set k v d = d ++ [(k, v)].
Proof.
  induction d as [|[k0 v0] d IH]; intros Hf; simpl; [done|].
  destruct (Nat.eqb k k0) eqn:He.
  - apply Nat.eqb_eq in He. exfalso. apply (Hf k0 v0); [by left|done].
  - rewrite IH; [done|]. intros k' v' Hin. apply (Hf k' v'). by right.
Qed.

Lemma piece_keys_S n : piece_keys (S n) = piece_keys n ++ [(S n, n)].
Proof. unfold piece_keys. by rewrite seq_S, map_app. Qed.

Lemma piece_keys_set n : dict_set (n + 1)%nat n (piece_keys n) = piece_keys (S n).
Proof.
  rewrite piece_keys_S, Nat.add_1_r. apply dict_set_fresh.
  intros k' v' Hin. unfold piece_keys in Hin.
  apply list_elem_of_In, in_map_iff in Hin as (i & [= <- <-] & Hi).
  apply in_seq in Hi. lia.
Qed.

Lemma piece_keys_length n : length (piece_keys n) = n.
Proof. unfold piece_keys. by rewrite length_map, length_seq. Qed.

Lemma Game_init_inv e g :
  Game_init e = Ok g ->
  exists m, env_maps e "wood_board.tmx" = Some m /\
    g = mkGame [] [] [] GameMouse_init GameResources_init
          (mkBoard GAME_BOARD_X GAME_BOARD_Y [] None m
                   (map (fun layer => (layer, [])) (seq 0 (tmx_layers m))) None).
Proof.
  unfold Game_init, GameBoard_init, load_map. intros H.
  destruct (env_maps e "wood_board.tmx") as [m|]; [|discriminate].
  simpl in H. injection H as <-. by exists m.
Qed.

Lemma GameResources_setup_inv_explicit e g g' :
  GameResources_setup e g = Ok g' ->
  exists s1 s2,
    env_images e "checker_piece_black.png" = Some s1 /\
    env_images e "checker_piece_black_king.png" = Some s2 /\
    g' = mkGame ((surfaces g ++ [s1]) ++ [s2]) (tiles g) (pieces g) (mouse g)
           (mkResources
              (<["piece_black_king" := S (length (surfaces g))]>
                 (<["piece_black" := length (surfaces g)]>
                    (res_images (resources g))))
              (res_sounds (resources g)))
           (board g).
Proof.
  unfold GameResources_setup, load_image. intros H.
  destruct (env_images e "checker_piece_black.png") as [s1|]; [|discriminate].
  simpl in H.
  destruct (env_images e "checker_piece_black_king.png") as [s2|]; [|discriminate].
  simpl in H. injection H as <-. exists s1, s2. split; [done|]. split; [done|].
  unfold set_image, with_resources, with_surfaces. simpl.
  by rewrite length_app, Nat.add_1_r.
Qed.

Lemma setup_pieces_numbered e g g' :
  pieces g = [] -> board_pieces (board g) = [] ->
  GameBoard_setup e g = Ok g' -> pieces_numbered g'.
Proof.
  intros Hp Hb H.
  apply (GameBoard_setup_phases
           (fun s => pieces s = [] /\ board_pieces (board s) = [])
           pieces_numbered e g g' H); [done|..].
  - intros x y l s s1 s2 [Hp1 Hb1] Hpl.
    apply place_tile_inv in Hpl as (d & _ & ->). done.
  - intros dx dy t s1 s2 [Hp1 Hb1] Hsh.
    apply shift_tile_inv in Hsh as (tl & rc & _ & _ & ->). done.
  - intros s [Hp1 Hb1]. split; [by rewrite Hp1, Hb1|]. by rewrite Hp1.
  - intros t r s s1 s2 [Hk Hi] Hgi Hpp.
    destruct (piece_step_inv _ _ _ _ _ Hgi Hpp) as (r0 & sf & tl & _ & _ & _ & -> & ->).
    split; simpl.
    + rewrite Hk, piece_keys_length, length_app, piece_keys_set. simpl.
      by rewrite Nat.add_1_r.
    + intros i pc Hpc. apply lookup_app_Some in Hpc as [Hpc|[Hge Hpc]].
      * by apply Hi.
      * apply list_lookup_singleton_Some in Hpc as [Hz <-]. simpl.
        rewrite Hk, piece_keys_length. lia.
Qed.

Lemma setup_pieces_count e g g' :
  GameBoard_setup e g = Ok g' ->
  length (pieces g') = (length (pieces g) + GAME_BOARD_NUM_PIECES)%nat.
Proof.
  unfold GameBoard_setup. intros H.
  apply bind_Ok in H as (g1 & Hg1 & H).
  assert (H1 : length (pieces g1) = length (pieces g)).
  { revert Hg1. unfold place_tiles.
    apply (for_each_inv (fun s => length (pieces s) = length (pieces g))); [|done].
    intros x s1 s1' _ Hs1.
    apply (for_each_inv (fun s => length (pieces s) = length (pieces g))); [|done].
    intros y s2 s2' _ Hs2.
    apply (for_each_inv (fun s => length (pieces s) = length (pieces g))); [|done].
    intros layer s3 s3' _ Hs3.
    destruct (get_tile_image _ x y layer) as [surface|].
    - intros Hpl. apply place_tile_inv in Hpl as (d & _ & ->). done.
    - by intros [= <-]. }
  apply bind_Ok in H as (outer & _ & H).
  apply bind_Ok in H as (inner & _ & H).
  apply bind_Ok in H as (g2 & Hg2 & H).
  assert (H2 : length (pieces g2) = length (pieces g)).
  { revert Hg2.
    apply (for_each_inv (fun s => length (pieces s) = length (pieces g))); [|done].
    intros t s s' _ Hs Hsh.
    apply shift_tile_inv in Hsh as (tl & rc & _ & _ & ->). done. }
  rewrite <- H2. clear -H. revert g2 H.
  generalize (dict_values inner) as inner_tiles. intros inner_tiles.
  generalize 0%nat as start.
  induction GAME_BOARD_NUM_PIECES as [|n IH]; intros start g2 H; simpl in H.
  - injection H as <-. lia.
  - apply bind_Ok in H as (g3 & Hb & H).
    apply bind_Ok in Hb as (tile & _ & Hb).
    apply bind_Ok in Hb as ([r s1] & Hgi & Hb). simpl in Hb.
    destruct (piece_step_inv _ _ _ _ _ Hgi Hb) as (r0 & sf & tl & _ & _ & _ & -> & ->).
    apply IH in H. rewrite H. simpl. rewrite length_app. simpl. lia.
Qed.

(** ** Runs *)

Lemma Game_run_inv e samples g :
  Game_run e samples = Ok g ->
  exists g0 g1 g2,
    Game_init e = Ok g0 /\ GameResources_setup e g0 = Ok g1 /\
    GameBoard_setup e g1 = Ok g2 /\ for_each samples Game_tick g2 = Ok g.
Proof.
  unfold Game_run, Game_setup. intros H.
  apply bind_Ok in H as (g0 & H0 & H). apply bind_Ok in H as (g2 & H2 & H).
  apply bind_Ok in H2 as (g1 & H1 & H2). by exists g0, g1, g2.
Qed.

(** Induction over a run: the state setup leaves, then tick after tick. *)
Lemma Game_run_ind (P : Game -> Prop) e samples g :
  Game_run e samples = Ok g ->
  (forall g0 g1 g2,
     Game_init e = Ok g0 -> GameResources_setup e g0 = Ok g1 ->
     GameBoard_setup e g1 = Ok g2 -> P g2) ->
  (forall i s s', P s -> rtc tick_atom (sampled i s) s' ->
                  mouse (sampled i s) = GameMouse_tick i (mouse s) -> P s') ->
  P g.
Proof.
  intros H Hsetup Htick.
  apply Game_run_inv in H as (g0 & g1 & g2 & H0 & H1 & H2 & H).
  revert H. apply for_each_inv; [|by eapply Hsetup].
  intros i s s' _ Hs Ht. apply (Htick i s s' Hs); [|done].
  by apply GameBoard_tick_atoms.
Qed.

Lemma atoms_ind (P : Game -> Prop) g g' :
  (forall s s', tick_atom s s' -> P s -> P s') ->
  rtc tick_atom g g' -> P g -> P g'.
Proof.
  intros Hstep. induction 1 as [|g1 g2 g3 H _ IH]; [done|].
  intros HP. apply IH. by apply (Hstep g1).
Qed.

Lemma run_pieces_numbered (e : Env) (samples : list Sample) (g : Game) :
  Game_run e samples = Ok g ->
  length (pieces g) = GAME_BOARD_NUM_PIECES /\
  board_pieces (board g) = piece_keys GAME_BOARD_NUM_PIECES /\
  forall i pc, pieces g !! i = Some pc -> tile_index (piece_base pc) = S i.
Proof.
  intros H.
  apply (Game_run_ind
           (fun s => length (pieces s) = GAME_BOARD_NUM_PIECES /\
                     board_pieces (board s) = piece_keys GAME_BOARD_NUM_PIECES /\
                     forall i pc, pieces s !! i = Some pc ->
                                  tile_index (piece_base pc) = S i)
           e samples g H).
  - intros g0 g1 g2 H0 H1 H2.
    apply Game_init_inv in H0 as (m & _ & ->).
    apply GameResources_setup_inv_explicit in H1 as (s1 & s2 & _ & _ & ->).
    simpl in H2.
    pose proof (setup_pieces_count _ _ _ H2) as Hc. simpl in Hc.
    pose proof H2 as Hn. apply setup_pieces_numbered in Hn; [|done|done].
    destruct Hn as [Hk Hi].
    split; [done|]. split; [by rewrite Hk, Hc|done].
  - intros i s s' (Hc & Hk & Hi) Hat _.
    pose proof (atoms_stable _ _ Hat) as Hs.
    pose proof (st_board _ _ Hs) as Hb. simpl in Hb.
    apply (f_equal board_pieces) in Hb. simpl in Hb.
    pose proof (fmap_eq_length _ _ _ (st_pieces _ _ Hs)) as Hl. simpl in Hl.
    split; [congruence|]. split; [congruence|].
    intros j pc' Hpc'.
    destruct (fmap_eq_lookup _ _ _ _ _ (st_pieces _ _ Hs) Hpc') as (pc & Hpc & He).
    simpl in Hpc. injection He as He _. rewrite <- He. by apply Hi.
Qed.

(** X4. In every state of a run the board has [GAME_BOARD_NUM_PIECES] pieces,
    registered under the keys 1 to 12 in the order of their creation, and the
    piece under key [i + 1] carries the index [i + 1]. *)
Theorem run_has_twelve_pieces (e : Env) (samples : list Sample) (g : Game) :
  Game_run e samples = Ok g ->
  length (pieces g) = GAME_BOARD_NUM_PIECES /\
  board_pieces (board g) = piece_keys GAME_BOARD_NUM_PIECES /\
  forall i pc, pieces g !! i = Some pc -> tile_index (piece_base pc) = S i.
Proof. apply run_pieces_numbered. Qed.

Lemma cache_pristine_grow e g sf :
  cache_pristine e g -> cache_pristine e (with_surfaces (surfaces g ++ [sf]) g).
Proof.
  intros Hc. pose proof (cp_two _ _ Hc) as H2.
  split; simpl; try apply Hc.
  - rewrite lookup_app_l by lia. apply Hc.
  - rewrite lookup_app_l by lia. apply Hc.
  - rewrite length_app. lia.
Qed.

Lemma tick_atom_cache_pristine e g g' :
  tick_atom g g' -> cache_pristine e g -> cache_pristine e g'.
Proof.
  intros Hat Hc. pose proof (tick_atom_stable _ _ Hat) as Hs.
  assert (Hsurf : (exists s x, (2 <= s)%nat /\ surfaces g' = <[s := x]> (surfaces g))
                  \/ surfaces g' = surfaces g).
  { destruct Hat; simpl; eauto.
    - left. exists s, (set_alpha GAME_BOARD_TILE_ALPHA_NORMAL sf).
      split; [by eapply (cp_tiles _ _ Hc)|done].
    - left. exists s, (set_alpha GAME_BOARD_TILE_ALPHA_SELECTED sf).
      split; [by eapply (cp_tiles _ _ Hc)|done].
    - left. exists s, (set_alpha (blink_alpha (ticked_piece pc)) sf).
      split; [by eapply (cp_pieces _ _ Hc)|done]. }
  split.
  - rewrite (st_resources _ _ Hs). apply Hc.
  - rewrite (st_resources _ _ Hs). apply Hc.
  - destruct Hsurf as [(s & x & Hge & ->)| ->]; [|apply Hc].
    rewrite list_lookup_insert_ne by lia. apply Hc.
  - destruct Hsurf as [(s & x & Hge & ->)| ->]; [|apply Hc].
    rewrite list_lookup_insert_ne by lia. apply Hc.
  - rewrite (fmap_eq_length _ _ _ (st_surfaces _ _ Hs)). apply Hc.
  - intros t tl' s Htl' Hs'.
    destruct (fmap_eq_lookup _ _ _ _ _ (st_tiles _ _ Hs) Htl') as (tl & Htl & He).
    apply (f_equal tile_surface) in He. simpl in He.
    apply (cp_tiles _ _ Hc t tl s Htl). congruence.
  - intros p pc' s Hpc' Hs'.
    destruct (fmap_eq_lookup _ _ _ _ _ (st_pieces _ _ Hs) Hpc') as (pc & Hpc & He).
    injection He as _ He _ _ _.
    apply (cp_pieces _ _ Hc p pc s Hpc). congruence.
Qed.

Lemma run_cache_pristine e samples g :
  Game_run e samples = Ok g -> cache_pristine e g.
Proof.
  intros H. apply (Game_run_ind (cache_pristine e) e samples g H).
  - intros g0 g1 g2 H0 H1 H2.
    apply Game_init_inv in H0 as (m & _ & ->).
    apply GameResources_setup_inv_explicit in H1 as (s1 & s2 & Hs1 & Hs2 & ->).
    simpl in H2.
    apply (GameBoard_setup_phases (cache_pristine e) (cache_pristine e) e _ g2 H2).
    + split; simpl; try done; lia.
    + intros x y l s a b Hc Hpl. apply place_tile_inv in Hpl as (d & _ & ->).
      pose proof (cp_two _ _ Hc) as H2'.
      split; simpl; try apply Hc.
      * rewrite lookup_app_l by lia. apply Hc.
      * rewrite lookup_app_l by lia. apply Hc.
      * rewrite length_app. lia.
      * intros t tl s' Htl Hs'. apply lookup_app_Some in Htl as [Htl|[_ Htl]].
        -- by apply (cp_tiles _ _ Hc t tl).
        -- apply list_lookup_singleton_Some in Htl as [_ <-]. simpl in Hs'.
           injection Hs' as <-. done.
    + intros dx dy t a b Hc Hsh.
      apply shift_tile_inv in Hsh as (tl & rc & Htl & _ & ->).
      split; simpl; try apply Hc.
      intros t' tl' s' Htl' Hs'.
      apply list_lookup_insert_Some in Htl' as [(-> & <- & _)|(_ & Htl')].
      * by apply (cp_tiles _ _ Hc t' tl).
      * by apply (cp_tiles _ _ Hc t' tl').
    + done.
    + intros t r a a1 b Hc Hgi Hpp.
      destruct (piece_step_inv _ _ _ _ _ Hgi Hpp)
        as (r0 & sf & tl & _ & _ & Htl & -> & ->).
      pose proof (cache_pristine_grow e a sf Hc) as Hc'.
      split; simpl; try apply Hc'.
      * intros t' tl' s' Htl' Hs'.
        apply list_lookup_insert_Some in Htl' as [(-> & <- & _)|(_ & Htl')].
        -- by apply (cp_tiles _ _ Hc t' tl).
        -- by apply (cp_tiles _ _ Hc t' tl').
      * intros p pc s' Hpc Hs'. apply lookup_app_Some in Hpc as [Hpc|[_ Hpc]].
        -- by apply (cp_pieces _ _ Hc p pc).
        -- apply list_lookup_singleton_Some in Hpc as [_ <-]. simpl in Hs'.
           injection Hs' as <-. apply (cp_two _ _ Hc).
  - intros i s s' Hc Hat _.
    apply (atoms_ind (cache_pristine e) _ _ (tick_atom_cache_pristine e) Hat).
    split; apply Hc.
Qed.

(** ** The cache during a run *)

(** X9. In every state of a run [get_image] succeeds for the names
    [piece_black] and [piece_black_king] and for no other, and the copy it
    returns is the image of the file setup loaded under that name. *)
Theorem run_cache_is_the_two_images
  (e : Env) (samples : list Sample) (g : Game) (name : string) :
  Game_run e samples = Ok g ->
  ((exists rg, get_image name g = Ok rg) <->
   name = "piece_black" \/ name = "piece_black_king") /\
  (forall r g', get_image "piece_black" g = Ok (r, g') ->
     surfaces g' !! r = env_images e "checker_piece_black.png") /\
  (forall r g', get_image "piece_black_king" g = Ok (r, g') ->
     surfaces g' !! r = env_images e "checker_piece_black_king.png").
Proof.
  intros H. pose proof (run_cache_pristine _ _ _ H) as Hc.
  pose proof (cp_images _ _ Hc) as Hi. pose proof (cp_two _ _ Hc) as H2.
  assert (Hcopy : forall n r g', get_image n g = Ok (r, g') ->
            exists r0, res_images (resources g) !! n = Some r0 /\
                       surfaces g' !! r = surfaces g !! r0).
  { intros n r g' Hg. apply get_image_inv in Hg as (r0 & sf & Hn & Hsf & -> & ->).
    exists r0. split; [done|]. simpl. by rewrite list_lookup_middle. }
  split; [split|split].
  - intros [[r g'] Hg]. apply get_image_inv in Hg as (r0 & sf & Hn & _).
    rewrite Hi in Hn.
    apply lookup_insert_Some in Hn as [[<- _]|[_ Hn]]; [by right|].
    apply lookup_insert_Some in Hn as [[<- _]|[_ Hn]]; [by left|].
    by apply lookup_empty_Some in Hn.
  - intros Hname.
    assert (Hr : exists r0, res_images (resources g) !! name = Some r0 /\
                            (r0 < length (surfaces g))%nat).
    { rewrite Hi. destruct Hname as [->| ->].
      - exists 0%nat. split; [|lia]. by rewrite lookup_insert_ne, lookup_insert_eq.
      - exists 1%nat. split; [|lia]. by rewrite lookup_insert_eq. }
    destruct Hr as (r0 & Hr0 & Hlt).
    apply lookup_lt_is_Some_2 in Hlt as [sf Hsf].
    eexists. by apply (get_image_registered name g r0 sf).
  - intros r g' Hg. destruct (Hcopy _ _ _ Hg) as (r0 & Hr0 & ->).
    rewrite Hi, lookup_insert_ne, lookup_insert_eq in Hr0 by done.
    injection Hr0 as <-. apply Hc.
  - intros r g' Hg. destruct (Hcopy _ _ _ Hg) as (r0 & Hr0 & ->).
    rewrite Hi, lookup_insert_eq in Hr0. injection Hr0 as <-. apply Hc.
Qed.

(** X10. No sound is ever cached: in every state of a run [get_sound] raises the
    [RuntimeError] naming the sound asked for. *)
Theorem run_has_no_sound
  (e : Env) (samples : list Sample) (g : Game) (name : string) :
  Game_run e samples = Ok g ->
  get_sound name g
  = Raise (RuntimeError ("Failed to get unknown cached sound: " +:+ name +:+ "!")).
Proof.
  intros H. pose proof (run_cache_pristine _ _ _ H) as Hc.
  unfold get_sound, cached_copy. by rewrite (cp_sounds _ _ Hc), lookup_empty.
Qed.

Lemma tick_atom_calm g g' : tick_atom g g' -> calm g -> calm g'.
Proof.
  intros Hat Hc. destruct Hat; try exact Hc; intros q qc Hq Hfl; simpl in Hq.
  - apply list_lookup_insert_Some in Hq as [(-> & <- & _)|(_ & Hq)]; [done|].
    by apply (Hc q).
  - apply list_lookup_insert_Some in Hq as [(-> & <- & _)|(_ & Hq)]; [done|].
    by apply (Hc q).
  - apply list_lookup_insert_Some in Hq as [(-> & <- & _)|(_ & Hq)].
    + simpl in *. by apply (Hc q pc).
    + by apply (Hc q).
  - apply list_lookup_insert_Some in Hq as [(-> & <- & _)|(_ & Hq)].
    + rewrite ticked_piece_base in Hfl. unfold ticked_piece. rewrite Hfl.
      by apply (Hc q pc).
    + by apply (Hc q).
Qed.

Lemma tick_atom_piece_at_home g g' :
  tick_atom g g' -> piece_at_home g -> piece_at_home g'.
Proof.
  intros Hat Hh. pose proof (tick_atom_stable _ _ Hat) as Hs.
  assert (Htile : forall t tl', tiles g' !! t = Some tl' ->
            exists tl, tiles g !! t = Some tl /\
                       tile_x tl = tile_x tl' /\ tile_y tl = tile_y tl').
  { intros t tl' Htl'.
    destruct (fmap_eq_lookup _ _ _ _ _ (st_tiles _ _ Hs) Htl') as (tl & Htl & He).
    exists tl. split; [done|].
    split; [by apply (f_equal tile_x) in He|by apply (f_equal tile_y) in He]. }
  assert (Hkeep : forall q qc qc',
            pieces g !! q = Some qc ->
            piece_tile qc' = piece_tile qc ->
            tile_x (piece_base qc') = tile_x (piece_base qc) ->
            tile_y (piece_base qc') = tile_y (piece_base qc) ->
            tile_rect (piece_base qc') = tile_rect (piece_base qc) ->
            forall t tl', piece_tile qc' = Some t -> tiles g' !! t = Some tl' ->
            tile_x (piece_base qc') = tile_x tl' /\
            tile_y (piece_base qc') = tile_y tl' /\
            exists rc, tile_rect (piece_base qc') = Some rc /\
                       rect_x rc = tile_x tl' /\ rect_y rc = tile_y tl').
  { intros q qc qc' Hq Ht Hx Hy Hr t tl' Hqt Htl'.
    destruct (Htile _ _ Htl') as (tl & Htl & Hxx & Hyy).
    rewrite Ht in Hqt.
    destruct (Hh q qc t tl Hq Hqt Htl) as (Hhx & Hhy & rc & Hrc & Hrx & Hry).
    split; [congruence|]. split; [congruence|].
    exists rc. split; [congruence|]. split; congruence. }
  intros q qc' t tl' Hq' Hqt Htl'.
  destruct Hat; simpl in Hq'.
  - by eapply (Hkeep q qc' qc').
  - by eapply (Hkeep q qc' qc').
  - apply list_lookup_insert_Some in Hq' as [(-> & <- & _)|(_ & Hq')].
    + by eapply (Hkeep q pc _).
    + by eapply (Hkeep q qc' qc').
  - apply list_lookup_insert_Some in Hq' as [(-> & <- & _)|(_ & Hq')].
    + by eapply (Hkeep q pc _).
    + by eapply (Hkeep q qc' qc').
  - apply list_lookup_insert_Some in Hq' as [(-> & <- & _)|(_ & Hq')].
    + simpl in Hqt. injection Hqt as <-.
      destruct (Htile _ _ Htl') as (tl0 & Htl0 & Hxx & Hyy).
      assert (tl0 = tl) by congruence. subst tl0. simpl.
      split; [done|]. split; [done|]. by eexists.
    + by eapply (Hkeep q qc' qc').
  - apply list_lookup_insert_Some in Hq' as [(-> & <- & _)|(_ & Hq')].
    + eapply (Hkeep q pc _); try done; try by rewrite ticked_piece_base.
      by rewrite ticked_piece_tile.
    + by eapply (Hkeep q qc' qc').
Qed.

(** ** Pieces and their home tiles *)

Lemma placed_pieces g t r sf tl q qc :
  pieces (placed g t r sf tl) !! q = Some qc ->
  pieces g !! q = Some qc \/
  q = length (pieces g) /\
  qc = new_piece_at (length (board_pieces (board g)) + 1) r t sf tl.
Proof.
  simpl. intros H. apply lookup_app_Some in H as [H|[Hge H]]; [by left|].
  apply list_lookup_singleton_Some in H as [Hz <-]. right. split; [lia|done].
Qed.

Lemma placed_tiles g t r sf tl u x :
  tiles g !! t = Some tl ->
  tiles (placed g t r sf tl) !! u = Some x ->
  exists x0, tiles g !! u = Some x0 /\ tile_x x = tile_x x0 /\
             tile_y x = tile_y x0.
Proof.
  simpl. intros Htl H.
  apply list_lookup_insert_Some in H as [(-> & <- & _)|(_ & H)]; eauto.
Qed.

Lemma setup_pieces_sound e g g' :
  pieces g = [] -> GameBoard_setup e g = Ok g' ->
  piece_at_home g' /\ calm g' /\ piece_surfaces_apart g'.
Proof.
  intros Hp H.
  apply (GameBoard_setup_phases
           (fun s => pieces s = [])
           (fun s => piece_at_home s /\ calm s /\ piece_surfaces_apart s)
           e g g' H); [done|..].
  - intros x y l s s1 s2 Hp1 Hpl.
    apply place_tile_inv in Hpl as (d & _ & ->). done.
  - intros dx dy t s1 s2 Hp1 Hsh.
    apply shift_tile_inv in Hsh as (tl & rc & _ & _ & ->). done.
  - intros s Hs. split; [|split; [|split]].
    + intros p pc t tl Hpc. by rewrite Hs in Hpc.
    + intros p pc Hpc. by rewrite Hs in Hpc.
    + intros p pc s0 Hpc. by rewrite Hs in Hpc.
    + intros p q pc qc s0 Hpc. by rewrite Hs in Hpc.
  - intros t r a a1 b (Hh & Hc & Hlt & Hinj) Hgi Hpp.
    destruct (piece_step_inv _ _ _ _ _ Hgi Hpp)
      as (r0 & sf & tl & _ & _ & Htl & -> & ->).
    set (a' := with_surfaces (surfaces a ++ [sf]) a).
    assert (Htl' : tiles a' !! t = Some tl) by done.
    split; [|split; [|split]].
    + intros q qc u x Hq Hqu Hx.
      destruct (placed_tiles _ _ _ _ _ _ _ Htl' Hx) as (x0 & Hx0 & Hxx & Hxy).
      rewrite Hxx, Hxy.
      apply placed_pieces in Hq as [Hq|[-> ->]].
      * by apply (Hh q qc u x0).
      * simpl in Hqu. injection Hqu as <-.
        assert (x0 = tl) by (simpl in Hx0; congruence). subst x0. simpl.
        split; [done|]. split; [done|]. by eexists.
    + intros q qc Hq Hfl. apply placed_pieces in Hq as [Hq|[-> ->]]; [|done].
      by apply (Hc q qc).
    + intros q qc s Hq Hs. simpl. rewrite length_app. simpl.
      apply placed_pieces in Hq as [Hq|[-> ->]].
      * pose proof (Hlt q qc s Hq Hs). lia.
      * simpl in Hs. injection Hs as <-. lia.
    + intros p q pc qc s Hp' Hq Hsp Hsq.
      apply placed_pieces in Hp' as [Hp'|[-> ->]];
        apply placed_pieces in Hq as [Hq|[-> ->]].
      * by apply (Hinj p q pc qc s).
      * simpl in Hsq. injection Hsq as <-.
        pose proof (Hlt p pc _ Hp' Hsp). lia.
      * simpl in Hsp. injection Hsp as <-.
        pose proof (Hlt q qc _ Hq Hsq). lia.
      * done.
Qed.

Lemma stable_piece_surfaces_apart g g' :
  stable g g' -> piece_surfaces_apart g -> piece_surfaces_apart g'.
Proof.
  intros Hs [Hlt Hinj].
  assert (Hold : forall p pc', pieces g' !! p = Some pc' ->
            exists pc, pieces g !! p = Some pc /\
              tile_surface (piece_base pc) = tile_surface (piece_base pc')).
  { intros p pc' Hpc'.
    destruct (fmap_eq_lookup _ _ _ _ _ (st_pieces _ _ Hs) Hpc') as (pc & Hpc & He).
    exists pc. split; [done|]. by injection He. }
  split.
  - intros p pc' s Hpc' Hs'. destruct (Hold _ _ Hpc') as (pc & Hpc & He).
    rewrite (fmap_eq_length _ _ _ (st_surfaces _ _ Hs)).
    apply (Hlt p pc s Hpc). congruence.
  - intros p q pc' qc' s Hp Hq Hsp Hsq.
    destruct (Hold _ _ Hp) as (pc & Hpc & Hep).
    destruct (Hold _ _ Hq) as (qc & Hqc & Heq).
    apply (Hinj p q pc qc s Hpc Hqc); congruence.
Qed.

Lemma run_pieces_sound e samples g :
  Game_run e samples = Ok g ->
  piece_at_home g /\ calm g /\ piece_surfaces_apart g.
Proof.
  intros H.
  apply (Game_run_ind
           (fun s => piece_at_home s /\ calm s /\ piece_surfaces_apart s)
           e samples g H).
  - intros g0 g1 g2 H0 H1 H2.
    apply Game_init_inv in H0 as (m & _ & ->).
    apply GameResources_setup_inv_explicit in H1 as (s1 & s2 & _ & _ & ->).
    by apply (setup_pieces_sound e _ g2) in H2.
  - intros i s s' (Hh & Hc & Ha) Hat _.
    split; [|split].
    + by apply (atoms_ind piece_at_home _ _ tick_atom_piece_at_home Hat).
    + by apply (atoms_ind calm _ _ tick_atom_calm Hat).
    + by apply (stable_piece_surfaces_apart _ _ (atoms_stable _ _ Hat)).
Qed.

(** X7. In every state of a run a piece has the coordinates of its home tile,
    and so has its rectangle. *)
Theorem piece_sits_on_its_home_tile
  (e : Env) (samples : list Sample) (g : Game)
  (p t : nat) (pc : GamePiece) (tl : GameTile) :
  Game_run e samples = Ok g ->
  pieces g !! p = Some pc -> piece_tile pc = Some t ->
  tiles g !! t = Some tl ->
  tile_x (piece_base pc) = tile_x tl /\ tile_y (piece_base pc) = tile_y tl /\
  exists rc, tile_rect (piece_base pc) = Some rc /\
             rect_x rc = tile_x tl /\ rect_y rc = tile_y tl.
Proof.
  intros H. destruct (run_pieces_sound _ _ _ H) as (Hh & _). apply Hh.
Qed.

Lemma blink_step_shows g r s pc sf p :
  piece_surfaces_apart g ->
  pieces g !! r = Some pc -> tile_surface (piece_base pc) = Some s ->
  surfaces g !! s = Some sf ->
  (p = r \/ shows_blink g p) -> shows_blink (ticked g r s pc sf) p.
Proof.
  intros [Hlt Hinj] Hpc Hs Hsf Hp qc Hq. simpl in Hq.
  apply list_lookup_insert_Some in Hq as [(-> & <- & _)|(Hne & Hq)].
  - exists s, (set_alpha (blink_alpha (ticked_piece pc)) sf).
    rewrite ticked_piece_base. split; [done|]. split; [|done].
    simpl. by apply (lookup_insert_same _ _ sf).
  - destruct Hp as [->|Hp]; [done|].
    destruct (Hp qc Hq) as (s' & sf' & Hs' & Hsf' & Ha).
    exists s', sf'. split; [done|]. split; [|done].
    simpl. rewrite list_lookup_insert_ne; [done|].
    intros <-. apply Hne. by apply (Hinj r p pc qc s).
Qed.

Lemma pieces_loop_shows (l : list nat) :
  forall g g', piece_surfaces_apart g ->
    for_each l GamePiece_tick g = Ok g' ->
    piece_surfaces_apart g' /\
    forall p, p ∈ l \/ shows_blink g p -> shows_blink g' p.
Proof.
  induction l as [|r l IH]; intros g g' Ha H; simpl in H.
  - injection H as <-. split; [done|]. intros p [Hp|Hp]; [|done].
    by apply not_elem_of_nil in Hp.
  - apply bind_Ok in H as (g1 & Hg1 & H).
    apply GamePiece_tick_inv in Hg1 as (pc & s & sf & Hpc & Hs & Hsf & ->).
    assert (Ha1 : piece_surfaces_apart (ticked g r s pc sf)).
    { apply (stable_piece_surfaces_apart g); [|done].
      apply tick_atom_stable. by apply atom_blink. }
    destruct (IH _ _ Ha1 H) as [Ha' Hsh]. split; [done|].
    intros p Hp. apply Hsh.
    destruct Hp as [Hp|Hp].
    + apply elem_of_cons in Hp as [->|Hp]; [|by left].
      right. apply blink_step_shows; try done. by left.
    + right. apply blink_step_shows; try done. by right.
Qed.

Lemma piece_keys_values n : dict_values (piece_keys n) = seq 0 n.
Proof.
  unfold dict_values, piece_keys. rewrite map_map. simpl. apply map_id.
Qed.

Lemma Game_tick_last_phase i g g' :
  Game_tick i g = Ok g' ->
  exists g4, rtc tick_atom (sampled i g) g4 /\ pieces_tick g4 = Ok g'.
Proof.
  unfold Game_tick, GameBoard_tick. fold (sampled i g). intros H.
  apply bind_Ok in H as (g1 & H1 & H). apply bind_Ok in H as (g2 & H2 & H).
  apply bind_Ok in H as (g3 & H3 & H). apply bind_Ok in H as (g4 & H4 & H).
  exists g4. split; [|done].
  eapply rtc_trans; [by apply highlight_phase_atoms|].
  eapply rtc_trans; [by eapply when_atoms, H2; apply switch_branch_atoms|].
  eapply rtc_trans; [by eapply when_atoms, H3; apply select_branch_atoms|].
  by eapply when_atoms, H4; apply move_branch_atoms.
Qed.

Lemma Game_run_snoc e samples i g g' :
  Game_run e samples = Ok g -> Game_tick i g = Ok g' ->
  Game_run e (samples ++ [i]) = Ok g'.
Proof.
  intros Hrun Htick.
  apply Game_run_inv in Hrun as (g0 & g1 & g2 & H0 & H1 & H2 & H).
  unfold Game_run, Game_setup. rewrite H0. simpl. rewrite H1. simpl.
  rewrite H2. simpl. clear -H Htick. revert g2 H.
  induction samples as [|a samples IH]; intros g2 H; simpl in *.
  - injection H as ->. by rewrite Htick.
  - apply bind_Ok in H as (g3 & -> & H). simpl. by apply IH.
Qed.

(** X20. After every tick of a run a piece that is not selected does not blink,
    and the surface of a piece has alpha [GAME_BOARD_TILE_ALPHA_SELECTED] when
    the piece blinks and [GAME_BOARD_TILE_ALPHA_NORMAL] when it does not. *)
Theorem tick_shows_blink_state
  (e : Env) (samples : list Sample) (g g' : Game) (i : Sample)
  (p : nat) (pc : GamePiece) :
  Game_run e samples = Ok g -> Game_tick i g = Ok g' ->
  pieces g' !! p = Some pc ->
  (tile_selected (piece_base pc) = false -> piece_blinking pc = false) /\
  exists s sf,
    tile_surface (piece_base pc) = Some s /\ surfaces g' !! s = Some sf /\
    surf_alpha sf = Some (if piece_blinking pc
                          then GAME_BOARD_TILE_ALPHA_SELECTED
                          else GAME_BOARD_TILE_ALPHA_NORMAL).
Proof.
  intros Hrun Htick Hpc.
  pose proof (Game_run_snoc _ _ _ _ _ Hrun Htick) as Hrun'.
  destruct (run_pieces_sound _ _ _ Hrun') as (_ & Hcalm & _).
  split; [by apply (Hcalm p)|].
  destruct (run_pieces_sound _ _ _ Hrun) as (_ & _ & Hap).
  destruct (run_pieces_numbered e samples g Hrun) as (Hlen & Hkeys & _).
  destruct (Game_tick_last_phase _ _ _ Htick) as (g4 & Hat & Hlast).
  pose proof (atoms_stable _ _ Hat) as Hs4.
  assert (Hap4 : piece_surfaces_apart g4).
  { by apply (stable_piece_surfaces_apart (sampled i g)). }
  unfold pieces_tick in Hlast.
  destruct (pieces_loop_shows _ _ _ Hap4 Hlast) as [_ Hsh].
  assert (Hb4 : board_pieces (board g4) = piece_keys (length (pieces g4))).
  { pose proof (st_board _ _ Hs4) as Hb. apply (f_equal board_pieces) in Hb.
    simpl in Hb. rewrite Hb, Hkeys.
    rewrite (fmap_eq_length _ _ _ (st_pieces _ _ Hs4)). simpl.
    by rewrite Hlen. }
  assert (Hl' : length (pieces g') = length (pieces g4)).
  { apply atoms_stable in Hat.
    pose proof (atoms_stable _ _ (pieces_tick_atoms _ _ Hlast)) as Hs5.
    apply (fmap_eq_length _ _ _ (st_pieces _ _ Hs5)). }
  apply (Hsh p); [|done]. left. rewrite Hb4, piece_keys_values.
  apply list_elem_of_In, in_seq. apply lookup_lt_Some in Hpc. lia.
Qed.

(** ** Ticks that relocate nothing *)

Lemma highlight_tile_frame t g g' :
  highlight_tile t g = Ok g' -> frame g g' /\ same_pieces g g'.
Proof.
  unfold highlight_tile. intros H.
  apply bind_Ok in H as (tl & _ & H). apply bind_Ok in H as (rc & _ & H).
  assert (Hclear : forall a b, clear_selected_tile a = Ok b ->
            frame a b /\ same_pieces a b).
  { intros a b Hab.
    apply clear_selected_tile_inv in Hab as (r & tl0 & s0 & sf0 & _ & Htl0 & _ & _ & ->).
    by apply cleared_tile_frame. }
  destruct (collidepoint rc (mouse_pos (mouse g))).
  - apply bind_Ok in H as (g1 & Hg1 & H).
    apply set_selected_tile_inv in H as (tl1 & s1 & sf1 & Htl1 & _ & _ & ->).
    destruct (marked_tile_frame g1 t s1 tl1 sf1 Htl1) as [Hf2 Hp2].
    destruct (truthy (board_tmx_tile_selected (board g))).
    + destruct (Hclear _ _ Hg1) as [Hf1 Hp1].
      split; [by eapply frame_trans|by eapply same_pieces_trans].
    + injection Hg1 as <-. done.
  - destruct (tile_selected tl).
    + by apply Hclear.
    + injection H as <-. split; [apply frame_refl|done].
Qed.

Lemma highlight_phase_frame g g' :
  highlight_phase g = Ok g' -> frame g g' /\ same_pieces g g'.
Proof.
  unfold highlight_phase. intros H. apply bind_Ok in H as (inner & _ & H).
  revert H.
  apply (for_each_inv (fun s => frame g s /\ same_pieces g s));
    [|split; [apply frame_refl|done]].
  intros t s s' _ [Hf Hp] Hs. apply highlight_tile_frame in Hs as [Hf' Hp'].
  split; [by eapply frame_trans|by eapply same_pieces_trans].
Qed.

Lemma switch_branch_frame g g' :
  switch_branch g = Ok g' -> frame g g' /\ same_tiles g g'.
Proof.
  unfold switch_branch. intros H.
  apply bind_Ok in H as (g1 & Hg1 & H). apply bind_Ok in H as (p & _ & H).
  apply clear_selected_piece_inv in Hg1 as (r & pc & _ & Hpc & ->).
  apply set_selected_piece_inv in H as (q & qc & _ & Hqc & ->).
  destruct (cleared_piece_frame g r pc Hpc) as [Hf1 Ht1].
  destruct (marked_piece_frame _ q qc Hqc) as [Hf2 Ht2].
  split; [by eapply frame_trans|by eapply same_tiles_trans].
Qed.

Lemma pieces_loop_frame (l : list nat) g g' :
  for_each l GamePiece_tick g = Ok g' -> blink_frame g g'.
Proof.
  apply (for_each_inv (blink_frame g)); [|apply blink_frame_refl].
  intros r s s' _ Hf Hs.
  apply GamePiece_tick_inv in Hs as (pc & sr & sf & Hpc & _ & _ & ->).
  eapply blink_frame_trans; [done|]. by apply ticked_blink_frame.
Qed.

Lemma no_edge_guards g :
  press_edge (mouse g) = false ->
  select_guard g = Ok false /\ move_guard g = Ok false.
Proof. intros H. unfold select_guard, move_guard. by rewrite H. Qed.

(** X15. On a tick without a press edge (the button was already down, or is up)
    no piece is relocated: every tile keeps its occupant and every piece
    its home tile, coordinates and rectangle. *)
Theorem no_press_edge_no_move (i : Sample) (g g' : Game) :
  press_edge (GameMouse_tick i (mouse g)) = false ->
  Game_tick i g = Ok g' ->
  (forall t tl', tiles g' !! t = Some tl' ->
     exists tl, tiles g !! t = Some tl /\ tile_piece tl' = tile_piece tl) /\
  (forall p pc', pieces g' !! p = Some pc' ->
     exists pc, pieces g !! p = Some pc /\
       piece_tile pc' = piece_tile pc /\
       tile_x (piece_base pc') = tile_x (piece_base pc) /\
       tile_y (piece_base pc') = tile_y (piece_base pc) /\
       tile_rect (piece_base pc') = tile_rect (piece_base pc)).
Proof.
  intros Hedge H. unfold Game_tick, GameBoard_tick in H. fold (sampled i g) in H.
  apply bind_Ok in H as (g1 & H1 & H). apply bind_Ok in H as (g2 & H2 & H).
  apply bind_Ok in H as (g3 & H3 & H). apply bind_Ok in H as (g4 & H4 & H).
  apply highlight_phase_frame in H1 as [Hf1 _].
  assert (Hf2 : frame g1 g2).
  { apply when_inv in H2 as [[_ ->]|[_ H2]]; [apply frame_refl|].
    by apply switch_branch_frame in H2 as [? _]. }
  assert (Hm2 : press_edge (mouse g2) = false).
  { by rewrite (fr_mouse _ _ Hf2), (fr_mouse _ _ Hf1). }
  destruct (no_edge_guards g2 Hm2) as [Hsg _].
  apply when_inv in H3 as [[_ ->]|[H3 _]]; [|congruence].
  destruct (no_edge_guards g2 Hm2) as [_ Hmg].
  apply when_inv in H4 as [[_ ->]|[H4 _]]; [|congruence].
  apply pieces_loop_frame, blink_frame_frame in H.
  assert (Hf : frame (sampled i g) g').
  { eapply frame_trans; [done|]. by eapply frame_trans. }
  split.
  - intros t tl' Htl'.
    destruct (frame_tile _ _ _ _ Hf Htl') as (tl & Htl & _ & _ & Hp & _).
    exists tl. split; [done|]. by symmetry.
  - intros p pc' Hpc'.
    destruct (frame_piece _ _ _ _ Hf Hpc') as (pc & Hpc & _ & Hr & Ht & Hx & Hy).
    exists pc. split; [done|]. repeat split; by symmetry.
Qed.

Lemma pieces_loop_exact (l : list nat) :
  NoDup l -> forall g g',
  for_each l GamePiece_tick g = Ok g' ->
  forall p, pieces g' !! p
            = if decide (p ∈ l) then ticked_piece <$> pieces g !! p
              else pieces g !! p.
Proof.
  induction 1 as [|r l Hnin Hnd IH]; intros g g' H p; simpl in H.
  - injection H as <-. rewrite decide_False; [done|]. apply not_elem_of_nil.
  - apply bind_Ok in H as (g1 & Hg1 & H).
    apply GamePiece_tick_inv in Hg1 as (pc & s & sf & Hpc & _ & _ & ->).
    rewrite (IH _ _ H p). simpl.
    destruct (decide (p = r)) as [->|Hne].
    + rewrite decide_False by done. rewrite decide_True by by left.
      rewrite (lookup_insert_same _ _ _ _ Hpc), Hpc. done.
    + rewrite list_lookup_insert_ne by done.
      destruct (decide (p ∈ l)) as [Hin|Hnin'].
      * rewrite decide_True; [done|by right].
      * rewrite decide_False; [done|].
        intros Hin. apply elem_of_cons in Hin as [?|?]; done.
Qed.

(** X16. On a tick of a run with the button up, or with no inner tile under the
    pointer, the selection stays as it is, every tile keeps its occupant, and
    the pieces change by their own tick only. *)
Theorem idle_tick_only_blinks
  (e : Env) (samples : list Sample) (g g' : Game) (i : Sample) :
  Game_run e samples = Ok g ->
  button1 (sample_pressed i) = false \/ tiles_under_pointer (sampled i g) = [] ->
  Game_tick i g = Ok g' ->
  board_piece_selected (board g') = board_piece_selected (board g) /\
  pieces g' = ticked_piece <$> pieces g /\
  forall t tl', tiles g' !! t = Some tl' ->
    exists tl, tiles g !! t = Some tl /\ tile_piece tl' = tile_piece tl.
Proof.
  intros Hrun Hidle Htick.
  assert (Hreach : reachable g) by by exists e, samples.
  pose proof (board_inv_with_mouse (GameMouse_tick i (mouse g)) g
                (reachable_board_inv g Hreach)) as Hi0.
  fold (sampled i g) in Hi0.
  destruct (highlight_phase_spec _ Hi0) as (g1 & Hhl & _ & Hf1 & [Hp1 Hs1] & Hsel & _).
  unfold Game_tick, GameBoard_tick in Htick. fold (sampled i g) in Htick.
  rewrite Hhl in Htick. simpl in Htick.
  assert (Hg : switch_guard g1 = Ok false /\ select_guard g1 = Ok false /\
               move_guard g1 = Ok false).
  { unfold switch_guard, select_guard, move_guard, press_edge.
    rewrite (fr_mouse _ _ Hf1). simpl.
    destruct Hidle as [Hup|Hoff].
    - rewrite Hup, andb_false_r. done.
    - rewrite Hsel, Hoff. simpl.
      destruct (button1 (sample_pressed i)),
        (negb (button1 (mouse_pressed (mouse g)))),
        (truthy (board_piece_selected (board g1))); done. }
  destruct Hg as (Hg1 & Hg2 & Hg3). unfold when in Htick.
  rewrite Hg1 in Htick. simpl in Htick. rewrite Hg2 in Htick. simpl in Htick.
  rewrite Hg3 in Htick. simpl in Htick.
  pose proof (pieces_loop_frame _ _ _ Htick) as Hbf.
  destruct (run_pieces_numbered e samples g Hrun) as (Hlen & Hkeys & _).
  assert (Hvals : dict_values (board_pieces (board g1)) = seq 0 (length (pieces g1))).
  { rewrite (fr_bpieces _ _ Hf1), Hp1. simpl.
    by rewrite Hkeys, piece_keys_values, Hlen. }
  unfold pieces_tick in Htick. rewrite Hvals in Htick.
  pose proof (pieces_loop_exact _ (NoDup_seq 0 _) _ _ Htick) as Hex.
  split; [by rewrite (bf_board _ _ Hbf), Hs1|].
  split.
  - apply list_eq. intros p. rewrite Hex, list_lookup_fmap, Hp1. simpl.
    case_decide as Hin; [done|].
    destruct (pieces g !! p) eqn:Hp; [|done]. exfalso. apply Hin.
    apply list_elem_of_In, in_seq. simpl.
    apply lookup_lt_Some in Hp. lia.
  - intros t tl' Htl'. rewrite (bf_tiles _ _ Hbf) in Htl'.
    destruct (frame_tile _ _ _ _ Hf1 Htl') as (tl & Htl & _ & _ & Hp & _).
    exists tl. split; [done|]. by symmetry.
Qed.

(** ** Startup *)

Lemma for_each_total {A S : Type} (P : S -> Prop) (body : A -> S -> result S)
  (l : list A) :
  (forall a s, a ∈ l -> P s -> exists s', body a s = Ok s' /\ P s') ->
  forall s, P s -> exists s', for_each l body s = Ok s' /\ P s'.
Proof.
  induction l as [|a l IH]; intros Hb s Hs; simpl.
  - by exists s.
  - destruct (Hb a s) as (s1 & -> & Hs1); [by left|done|]. simpl.
    apply IH; [|done]. intros b s0 Hin. apply Hb. by right.
Qed.

Lemma empty_layers_get_iff (n layer : nat) :
  is_Some (dict_get layer (map (fun l : nat => (l, @nil (nat * nat))) (seq 0 n)))
  <-> (layer < n)%nat.
Proof.
  assert (H : forall start,
    is_Some (dict_get layer
               (map (fun l : nat => (l, @nil (nat * nat))) (seq start n)))
    <-> (start <= layer < start + n)%nat).
  { induction n as [|n IH]; intros start; simpl.
    - split; [by intros [? ?]|lia].
    - destruct (Nat.eqb layer start) eqn:He.
      + apply Nat.eqb_eq in He. split; [lia|by eexists].
      + apply Nat.eqb_neq in He. rewrite IH. lia. }
  rewrite H. lia.
Qed.

Lemma dict_get_set_is_Some {V} (k k' : nat) (v : V) (d : dict V) :
  is_Some (dict_get k d) ->
  (is_Some (dict_get k' (dict_set k v d)) <-> is_Some (dict_get k' d)).
Proof.
  intros Hk. destruct (decide (k = k')) as [<-|Hne].
  - rewrite dict_get_set_eq. split; [done|by eexists].
  - by rewrite dict_get_set_ne.
Qed.

Lemma place_tile_Ok x y layer surface g d :
  dict_get layer (board_tmx_tile_data (board g)) = Some d ->
  place_tile x y layer surface g
  = Ok (mkGame (surfaces g ++ [surface])
          (tiles g ++ [new_tile_at x y layer (length d + 1)
                                   (length (surfaces g)) surface])
          (pieces g) (mouse g) (resources g)
          (board_with_tile_data
             (dict_set layer
                (dict_set (length d + 1)%nat (length (tiles g)) d)
                (board_tmx_tile_data (board g)))
             (board g))).
Proof.
  intros Hd. unfold place_tile, dict_item. rewrite Hd. simpl. rewrite Hd.
  reflexivity.
Qed.

Lemma place_tile_layers_ok x y layer surface g g' :
  layers_ok g -> place_tile x y layer surface g = Ok g' ->
  layers_ok g' /\ board_tmx_data (board g') = board_tmx_data (board g).
Proof.
  intros Hl H. apply place_tile_inv in H as (d & Hd & ->). split; [|done].
  intros layer'. simpl. rewrite dict_get_set_is_Some by by eexists. apply Hl.
Qed.

Lemma place_tiles_total g :
  layers_ok g ->
  exists g', place_tiles g = Ok g' /\ layers_ok g' /\
             board_tmx_data (board g') = board_tmx_data (board g).
Proof.
  intros Hl. unfold place_tiles.
  set (m := board_tmx_data (board g)).
  set (P := fun s => layers_ok s /\ board_tmx_data (board s) = m).
  assert (HP : P g) by done.
  enough (exists g', for_each (seq 0 (tmx_width m)) (fun x =>
            for_each (seq 0 (tmx_height m)) (fun y =>
              for_each (seq 0 (tmx_layers m)) (fun layer g0 =>
                match get_tile_image m x y layer with
                | None => Ok g0
                | Some surface => place_tile x y layer surface g0
                end))) g = Ok g' /\ P g') as (g' & H & Hl' & Hm).
  { by exists g'. }
  apply (for_each_total P); [|done]. intros x s1 _ Hs1.
  apply (for_each_total P); [|done]. intros y s2 _ Hs2.
  apply (for_each_total P); [|done]. intros layer s3 Hin [Hl3 Hm3].
  destruct (get_tile_image m x y layer) as [surface|]; [|by exists s3].
  assert (Hd : is_Some (dict_get layer (board_tmx_tile_data (board s3)))).
  { apply Hl3. rewrite Hm3. apply list_elem_of_In, in_seq in Hin. lia. }
  destruct Hd as [d Hd]. eexists. split; [by apply place_tile_Ok|].
  destruct (place_tile_layers_ok x y layer surface s3 _ Hl3
              (place_tile_Ok x y layer surface s3 d Hd)) as [Hl' Hm'].
  split; [done|]. by rewrite Hm'.
Qed.

Lemma shift_tile_total dx dy t g :
  setup_inv g -> (t < length (tiles g))%nat ->
  exists g', shift_tile dx dy t g = Ok g'.
Proof.
  intros Hs Hlt. apply lookup_lt_is_Some_2 in Hlt as [tl Htl].
  destruct (si_tiles _ Hs _ _ Htl) as [[[rc Hrc] _] _].
  unfold shift_tile, deref. rewrite Htl. simpl.
  erewrite update_tile_Ok;
    [|done|unfold GameTile_set_x; rewrite Hrc; reflexivity].
  simpl. rewrite (lookup_insert_same _ _ _ _ Htl). simpl.
  erewrite update_tile_Ok;
    [|simpl; by apply (lookup_insert_same _ _ tl)|reflexivity].
  by eexists.
Qed.

Lemma place_piece_Ok tile sref g s tl :
  surfaces g !! sref = Some s -> tiles g !! tile = Some tl ->
  place_piece tile sref g = Ok (placed g tile sref s tl).
Proof.
  intros Hs Htl. unfold place_piece, deref. rewrite Hs, Htl. simpl.
  unfold update_tile, deref. simpl. rewrite Htl. simpl.
  unfold update_piece, deref. simpl. rewrite list_lookup_middle by done.
  simpl. unfold placed, with_pieces. simpl. do 2 f_equal.
  rewrite insert_app_r_alt by done. by rewrite Nat.sub_diag.
Qed.

Lemma choice_Ok {A} e call (l : list A) :
  l <> [] -> exists a, choice e call l = Ok a /\ a ∈ l.
Proof.
  intros Hne. unfold choice.
  assert (Hlt : (env_random e call mod length l < length l)%nat).
  { apply Nat.mod_upper_bound. destruct l; [done|simpl; lia]. }
  apply lookup_lt_is_Some_2 in Hlt as [a Ha]. rewrite Ha.
  exists a. split; [done|]. by eapply list_elem_of_lookup_2.
Qed.

Lemma choice_nil {A} e call : @choice A e call [] = Raise IndexError.
Proof. unfold choice. by rewrite lookup_nil. Qed.

(** The outcome of the board's setup, stage by stage. *)
Lemma GameBoard_setup_outcome e g r0 :
  setup_inv g -> layers_ok g ->
  res_images (resources g) !! "piece_black" = Some r0 ->
  exists g1,
    place_tiles g = Ok g1 /\
    match dict_get 0%nat (board_tmx_tile_data (board g1)),
          dict_get 1%nat (board_tmx_tile_data (board g1)) with
    | None, _ | _, None => GameBoard_setup e g = Raise KeyError
    | Some _, Some inner =>
        if decide (dict_values inner = [])
        then GameBoard_setup e g = Raise IndexError
        else exists g', GameBoard_setup e g = Ok g'
    end.
Proof.
  intros Hs Hl Himg.
  destruct (place_tiles_total g Hl) as (g1 & Hg1 & Hl1 & Hm1).
  exists g1. split; [done|].
  pose proof (place_tiles_setup_inv _ _ Hs Hg1) as Hs1.
  assert (Hres1 : resources g1 = resources g).
  { revert Hg1. unfold place_tiles.
    apply (for_each_inv (fun s => resources s = resources g)); [|done].
    intros x s1 s1' _ H1.
    apply (for_each_inv (fun s => resources s = resources g)); [|done].
    intros y s2 s2' _ H2.
    apply (for_each_inv (fun s => resources s = resources g)); [|done].
    intros layer s3 s3' _ H3.
    destruct (get_tile_image _ x y layer) as [surface|].
    - intros Hpl. apply place_tile_inv in Hpl as (d & _ & ->). done.
    - by intros [= <-]. }
  unfold GameBoard_setup. rewrite Hg1. simpl. unfold dict_item.
  destruct (dict_get 0%nat (board_tmx_tile_data (board g1))) as [outer|] eqn:Ho;
    [|done].
  simpl.
  destruct (dict_get 1%nat (board_tmx_tile_data (board g1))) as [inner|] eqn:Hin;
    [|done].
  simpl.
  set (all := dict_values outer ++ dict_values inner).
  set (dx := board_x (board g1) - (Z.of_nat (length all) + GAME_BOARD_TILE_WIDTH)).
  set (dy := board_y (board g1) - (Z.of_nat (length all) + GAME_BOARD_TILE_HEIGHT)).
  destruct (for_each_total
              (fun s => setup_inv s /\ board s = board g1 /\
                        resources s = resources g1)
              (shift_tile dx dy) all) with (s := g1)
    as (g2 & Hg2 & Hs2 & Hb2 & Hres2); [|done|].
  { intros t s Ht (Hss & Hbs & Hrs).
    assert (Hlt : (t < length (tiles s))%nat).
    { apply elem_of_app in Ht as [Ht|Ht].
      - apply (si_data _ Hss 0%nat outer); [by rewrite Hbs|done].
      - apply (si_data _ Hss 1%nat inner); [by rewrite Hbs|done]. }
    destruct (shift_tile_total dx dy t s Hss Hlt) as (s' & Hs').
    exists s'. split; [done|].
    pose proof Hs' as Hs''. apply shift_tile_setup_inv in Hs'' as [? Hb]; [|done].
    split; [done|]. split; [congruence|].
    apply shift_tile_inv in Hs' as (tl & rc & _ & _ & ->). done. }
  rewrite Hg2. simpl.
  case_decide as Hempty.
  - rewrite Hempty. unfold GAME_BOARD_NUM_PIECES. cbn [seq for_each].
    by rewrite choice_nil.
  - set (D := board_tmx_tile_data (board g1)).
    destruct (for_each_total
                (fun s => setup_inv s /\ board_tmx_tile_data (board s) = D /\
                          resources s = resources g)
                (fun index g0 =>
                   let* tile := choice e index (dict_values inner) in
                   let* sg := get_image "piece_black" g0 in
                   place_piece tile sg.1 sg.2)
                (seq 0 GAME_BOARD_NUM_PIECES)) with (s := g2)
      as (g3 & Hg3 & _); [| |by exists g3].
    + intros index s _ (Hss & Hds & Hrs).
      destruct (choice_Ok e index (dict_values inner) Hempty) as (tile & -> & Htile).
      simpl.
      assert (Hlt : (tile < length (tiles s))%nat).
      { apply (si_data _ Hss 1%nat inner); [by rewrite Hds|done]. }
      apply lookup_lt_is_Some_2 in Hlt as [tl Htl].
      assert (Hr0 : res_images (resources s) !! "piece_black" = Some r0)
        by by rewrite Hrs.
      pose proof (si_cache _ Hss _ _ Hr0) as Hlt0.
      apply lookup_lt_is_Some_2 in Hlt0 as [sf Hsf].
      rewrite (get_image_registered _ _ _ _ Hr0 Hsf). simpl.
      assert (Hpp : place_piece tile (length (surfaces s))
                      (with_surfaces (surfaces s ++ [sf]) s)
                    = Ok (placed (with_surfaces (surfaces s ++ [sf]) s) tile
                                 (length (surfaces s)) sf tl)).
      { apply place_piece_Ok; [|done]. simpl. by apply list_lookup_middle. }
      rewrite Hpp. eexists. split; [done|].
      apply place_piece_setup_inv in Hpp as [Hss' Hd'];
        [|by apply setup_inv_grow].
      split; [done|]. split; [by rewrite Hd'|done].
    + split; [done|]. split; [by rewrite Hb2|congruence].
Qed.

Lemma Game_run_loaded e m s1 s2 samples :
  env_maps e "wood_board.tmx" = Some m ->
  env_images e "checker_piece_black.png" = Some s1 ->
  env_images e "checker_piece_black_king.png" = Some s2 ->
  Game_run e samples
  = let* g := GameBoard_setup e (loaded_state m s1 s2) in
    for_each samples Game_tick g.
Proof.
  intros Hm H1 H2.
  unfold Game_run, Game_init, GameBoard_init, load_map. rewrite Hm. simpl.
  unfold Game_setup, GameResources_setup, load_image. rewrite H1. simpl.
  rewrite H2. reflexivity.
Qed.

Lemma loaded_state_setup_inv m s1 s2 : setup_inv (loaded_state m s1 s2).
Proof.
  split; simpl; try done.
  - intros n r Hn. simpl in *.
    apply lookup_insert_Some in Hn as [[_ <-]|[_ Hn]]; [lia|].
    apply lookup_insert_Some in Hn as [[_ <-]|[_ Hn]]; [lia|].
    by apply lookup_empty_Some in Hn.
  - intros layer d t Hd Ht. apply empty_layers_get in Hd as ->.
    by apply not_elem_of_nil in Ht.
  - intros p Hp. by apply not_elem_of_nil in Hp.
Qed.

Lemma loaded_state_layers_ok m s1 s2 : layers_ok (loaded_state m s1 s2).
Proof. intros layer. apply empty_layers_get_iff. Qed.

Lemma for_each_establish {A S : Type} (Q : S -> Prop)
  (body : A -> S -> result S) (l : list A) (a : A) :
  a ∈ l ->
  (forall s s', body a s = Ok s' -> Q s') ->
  (forall b s s', Q s -> body b s = Ok s' -> Q s') ->
  forall s s', for_each l body s = Ok s' -> Q s'.
Proof.
  intros Hin Hest Hkeep. induction l as [|b l IH]; intros s s' H.
  - by apply not_elem_of_nil in Hin.
  - simpl in H. apply bind_Ok in H as (s1 & Hs1 & H).
    apply elem_of_cons in Hin as [<-|Hin].
    + revert H. apply (for_each_inv Q); [|by eapply Hest].
      intros c t t' _. apply Hkeep.
    + by apply (IH Hin s1).
Qed.

Lemma dict_set_nonempty {V} (k : nat) (v : V) (d : dict V) :
  dict_values (dict_set k v d) <> [].
Proof. destruct d as [|[k0 v0] d]; simpl; [done|]. by destruct (Nat.eqb k k0). Qed.

Lemma place_tile_inner_nonempty x y layer surface g g' :
  place_tile x y layer surface g = Ok g' ->
  (layer = 1%nat \/ inner_nonempty g) -> inner_nonempty g'.
Proof.
  intros H Hor. apply place_tile_inv in H as (d & Hd & ->).
  unfold inner_nonempty. simpl.
  destruct (decide (layer = 1%nat)) as [->|Hne].
  - rewrite dict_get_set_eq. eexists. split; [done|]. apply dict_set_nonempty.
  - rewrite dict_get_set_ne by done. by destruct Hor.
Qed.

Lemma place_tiles_inner_has g g' :
  place_tiles g = Ok g' ->
  (forall d, dict_get 1%nat (board_tmx_tile_data (board g)) = Some d -> d = []) ->
  inner_nonempty g' -> has_inner_tile (board_tmx_data (board g)).
Proof.
  unfold place_tiles. set (m := board_tmx_data (board g)). intros H Hinit.
  revert H.
  apply (for_each_inv (fun s => inner_nonempty s -> has_inner_tile m)).
  - intros x s1 s1' Hx Hs1.
    apply (for_each_inv (fun s => inner_nonempty s -> has_inner_tile m)); [|done].
    intros y s2 s2' Hy Hs2.
    apply (for_each_inv (fun s => inner_nonempty s -> has_inner_tile m)); [|done].
    intros layer s3 s3' Hl Hs3.
    destruct (get_tile_image m x y layer) as [surface|] eqn:Himg;
      [|by intros [= <-]].
    intros Hpl Hne. destruct (decide (layer = 1%nat)) as [->|Hn1].
    + exists x, y. apply list_elem_of_In, in_seq in Hx, Hy.
      split; [lia|]. split; [lia|]. by eexists.
    + apply Hs3. apply place_tile_inv in Hpl as (d & Hd & ->).
      destruct Hne as (inner & Hi & Hv). simpl in Hi.
      rewrite dict_get_set_ne in Hi by done. by exists inner.
  - intros (inner & Hi & Hv). apply Hinit in Hi as ->. done.
Qed.

Lemma place_tiles_has_inner g g' :
  place_tiles g = Ok g' ->
  (2 <= tmx_layers (board_tmx_data (board g)))%nat ->
  has_inner_tile (board_tmx_data (board g)) -> inner_nonempty g'.
Proof.
  unfold place_tiles. set (m := board_tmx_data (board g)).
  intros H Hlay (x0 & y0 & Hx0 & Hy0 & [surface Himg]). revert H.
  assert (Hkeep3 : forall x y layer s s',
            inner_nonempty s ->
            match get_tile_image m x y layer with
            | Some surface => place_tile x y layer surface s
            | None => Ok s
            end = Ok s' -> inner_nonempty s').
  { intros x y layer s s' Hq Hb.
    destruct (get_tile_image m x y layer) as [sf|].
    - apply (place_tile_inner_nonempty _ _ _ _ _ _ Hb). by right.
    - by injection Hb as <-. }
  assert (Hkeep2 : forall x y s s',
            inner_nonempty s ->
            for_each (seq 0 (tmx_layers m)) (fun layer g0 =>
              match get_tile_image m x y layer with
              | Some surface => place_tile x y layer surface g0
              | None => Ok g0
              end) s = Ok s' -> inner_nonempty s').
  { intros x y s s' Hq. apply (for_each_inv inner_nonempty); [|done].
    intros layer t t' _. apply Hkeep3. }
  assert (Hkeep1 : forall x s s',
            inner_nonempty s ->
            for_each (seq 0 (tmx_height m)) (fun y =>
              for_each (seq 0 (tmx_layers m)) (fun layer g0 =>
                match get_tile_image m x y layer with
                | Some surface => place_tile x y layer surface g0
                | None => Ok g0
                end)) s = Ok s' -> inner_nonempty s').
  { intros x s s' Hq. apply (for_each_inv inner_nonempty); [|done].
    intros y t t' _. apply Hkeep2. }
  apply (for_each_establish inner_nonempty _ _ x0).
  - apply list_elem_of_In, in_seq. lia.
  - apply (for_each_establish inner_nonempty _ _ y0).
    + apply list_elem_of_In, in_seq. lia.
    + apply (for_each_establish inner_nonempty _ _ 1%nat).
      * apply list_elem_of_In, in_seq. lia.
      * intros s s'. rewrite Himg. intros Hpl.
        apply (place_tile_inner_nonempty _ _ _ _ _ _ Hpl). by left.
      * intros layer s s'. apply Hkeep3.
    + intros y s s'. apply Hkeep2.
  - intros x s s'. apply Hkeep1.
Qed.


Lemma run_outcome (e : Env) (m : TiledMap) (s1 s2 : Surface)
  (samples : list Sample) :
  env_maps e "wood_board.tmx" = Some m ->
  env_images e "checker_piece_black.png" = Some s1 ->
  env_images e "checker_piece_black_king.png" = Some s2 ->
  ((tmx_layers m < 2)%nat -> Game_run e samples = Raise KeyError) /\
  ((2 <= tmx_layers m)%nat -> ~ has_inner_tile m ->
   Game_run e samples = Raise IndexError) /\
  ((2 <= tmx_layers m)%nat -> has_inner_tile m ->
   exists g, Game_run e samples = Ok g).
Proof.
  intros Hm H1 H2. rewrite (Game_run_loaded e m s1 s2 samples Hm H1 H2).
  set (g1 := loaded_state m s1 s2).
  destruct (GameBoard_setup_outcome e g1 0%nat (loaded_state_setup_inv m s1 s2)
              (loaded_state_layers_ok m s1 s2) eq_refl)
    as (gt & Hgt & Hout).
  destruct (place_tiles_total g1 (loaded_state_layers_ok m s1 s2))
    as (gt' & Hgt' & Hlt & Hmt).
  rewrite Hgt in Hgt'. injection Hgt' as <-.
  assert (H0iff := Hlt 0%nat). assert (H1iff := Hlt 1%nat).
  rewrite Hmt in H0iff, H1iff. simpl in H0iff, H1iff.
  assert (Hinit : forall d, dict_get 1%nat (board_tmx_tile_data (board g1)) = Some d
                            -> d = []).
  { intros d Hd. by apply empty_layers_get in Hd. }
  split; [|split].
  - intros Hlay.
    destruct (dict_get 0%nat (board_tmx_tile_data (board gt))) as [outer|] eqn:Ho.
    + destruct (dict_get 1%nat (board_tmx_tile_data (board gt))) as [inner|] eqn:Hi.
      * exfalso. assert (1 < tmx_layers m)%nat by (apply H1iff; by eexists). lia.
      * by rewrite Hout.
    + by rewrite Hout.
  - intros Hlay Hno.
    destruct (dict_get 0%nat (board_tmx_tile_data (board gt))) as [outer|] eqn:Ho;
      [|exfalso; assert (is_Some (@None (dict nat))) as [? ?] by (apply H0iff; lia);
        done].
    destruct (dict_get 1%nat (board_tmx_tile_data (board gt))) as [inner|] eqn:Hi;
      [|exfalso; assert (is_Some (@None (dict nat))) as [? ?] by (apply H1iff; lia);
        done].
    case_decide as Hempty; [by rewrite Hout|].
    exfalso. apply Hno. apply (place_tiles_inner_has g1 gt Hgt Hinit).
    by exists inner.
  - intros Hlay Hhas.
    destruct (place_tiles_has_inner g1 gt Hgt Hlay Hhas) as (inner & Hi & Hne).
    rewrite Hi in Hout.
    destruct (dict_get 0%nat (board_tmx_tile_data (board gt))) as [outer|] eqn:Ho;
      [|exfalso; assert (is_Some (@None (dict nat))) as [? ?] by (apply H0iff; lia);
        done].
    rewrite decide_False in Hout by done. destruct Hout as (g2 & Hg2).
    rewrite Hg2. simpl.
    assert (Hi2 : board_inv g2).
    { apply (GameBoard_setup_inv e g1); [apply loaded_state_setup_inv|done]. }
    destruct (for_each_total board_inv Game_tick samples) with (s := g2)
      as (g & Hg & _); [|done|by exists g].
    intros i s _ Hs. by apply Game_tick_inv.
Qed.

(** X3. With every file in place, a map of fewer than two layers makes setup
    raise [KeyError] (the board has no dictionary for layer 0 or 1), and a map
    of two layers or more none of whose layer 1 cells has a tile image makes
    it raise [IndexError] ([random.choice] of an empty list). *)
Theorem setup_rejects_bad_maps (e : Env) (m : TiledMap) (s1 s2 : Surface)
  (samples : list Sample) :
  env_maps e "wood_board.tmx" = Some m ->
  env_images e "checker_piece_black.png" = Some s1 ->
  env_images e "checker_piece_black_king.png" = Some s2 ->
  ((tmx_layers m < 2)%nat -> Game_run e samples = Raise KeyError) /\
  ((2 <= tmx_layers m)%nat -> ~ has_inner_tile m ->
   Game_run e samples = Raise IndexError).
Proof.
  intros Hm H1 H2.
  destruct (run_outcome e m s1 s2 samples Hm H1 H2) as (Ha & Hb & _). done.
Qed.

(** X2. A missing file stops the program with the [RuntimeError] of [load_map]
    or [load_image] that names it, and the files are asked for in this order:
    the map, then the piece image, then the crowned piece image. *)
Theorem missing_file_errors (e : Env) (samples : list Sample) :
  (env_maps e "wood_board.tmx" = None ->
   Game_run e samples
   = Raise (RuntimeError "Failed to find tmx file: wood_board.tmx!")) /\
  (is_Some (env_maps e "wood_board.tmx") ->
   env_images e "checker_piece_black.png" = None ->
   Game_run e samples
   = Raise (RuntimeError "Failed to find image file: checker_piece_black.png!")) /\
  (is_Some (env_maps e "wood_board.tmx") ->
   is_Some (env_images e "checker_piece_black.png") ->
   env_images e "checker_piece_black_king.png" = None ->
   Game_run e samples
   = Raise (RuntimeError
              "Failed to find image file: checker_piece_black_king.png!")).
Proof.
  unfold Game_run, Game_init, GameBoard_init, load_map, Game_setup,
    GameResources_setup, load_image.
  split; [|split].
  - by intros ->.
  - intros [m ->] H1. simpl. by rewrite H1.
  - intros [m ->] [s1 H1] H2. simpl. rewrite H1. simpl. by rewrite H2.
Qed.


(** ** The tile dictionaries *)

Lemma dict_get_app {V} (k k0 : nat) (v0 : V) (d : dict V) :
  dict_get k (d ++ [(k0, v0)])
  = match dict_get k d with
    | Some v => Some v
    | None => if Nat.eqb k k0 then Some v0 else None
    end.
Proof.
  induction d as [|[k1 v1] d IH]; simpl; [done|].
  by destruct (Nat.eqb k k1).
Qed.

Lemma dict_get_keys {V} (k : nat) (d : dict V) :
  is_Some (dict_get k d) <-> k ∈ dict_keys d.
Proof.
  unfold dict_keys. induction d as [|[k1 v1] d IH]; simpl.
  - split; [by intros [? ?]|intros H; by apply not_elem_of_nil in H].
  - destruct (Nat.eqb k k1) eqn:He.
    + apply Nat.eqb_eq in He as ->. split; [intros _; by left|by eexists].
    + apply Nat.eqb_neq in He. rewrite IH. split; [by right|].
      intros H. apply elem_of_cons in H as [?|?]; done.
Qed.

Lemma dict_get_value {V} (k : nat) (v : V) (d : dict V) :
  dict_get k d = Some v -> v ∈ dict_values d.
Proof.
  unfold dict_values. induction d as [|[k1 v1] d IH]; simpl; [done|].
  destruct (Nat.eqb k k1); [intros [= ->]; by left|]. intros H. right. by apply IH.
Qed.

Lemma dict_value_get {V} (v : V) (d : dict V) :
  NoDup (dict_keys d) -> v ∈ dict_values d -> exists k, dict_get k d = Some v.
Proof.
  unfold dict_values, dict_keys.
  induction d as [|[k1 v1] d IH]; simpl; intros Hnd Hin.
  - by apply not_elem_of_nil in Hin.
  - apply NoDup_cons in Hnd as [Hk1 Hnd].
    apply elem_of_cons in Hin as [->|Hin].
    + exists k1. by rewrite Nat.eqb_refl.
    + destruct (IH Hnd Hin) as [k Hk]. exists k.
      destruct (Nat.eqb k k1) eqn:He; [|done].
      apply Nat.eqb_eq in He as ->. exfalso. apply Hk1.
      apply (dict_get_keys k1 d). by eexists.
Qed.

Lemma keys_fresh {V} (d : dict V) :
  dict_keys d = seq 1 (length d) ->
  forall k' v', (k', v') ∈ d -> k' <> (length d + 1)%nat.
Proof.
  intros Hk k' v' Hin Heq.
  assert (Hin' : k' ∈ dict_keys d).
  { unfold dict_keys. apply list_elem_of_In, in_map_iff. exists (k', v').
    split; [done|]. by apply list_elem_of_In. }
  rewrite Hk in Hin'. apply list_elem_of_In, in_seq in Hin'. lia.
Qed.

Lemma place_tile_registered x y layer surface g g' :
  tiles_registered g -> place_tile x y layer surface g = Ok g' ->
  tiles_registered g'.
Proof.
  intros Hr H. apply place_tile_inv in H as (d & Hd & ->).
  pose proof (tr_keys _ Hr _ _ Hd) as Hkeys.
  set (k0 := (length d + 1)%nat). set (T := length (tiles g)).
  assert (Hset : dict_set k0 T d = d ++ [(k0, T)]).
  { apply dict_set_fresh. by apply keys_fresh. }
  assert (Hnone : dict_get k0 d = None).
  { destruct (dict_get k0 d) eqn:Hg; [|done]. exfalso.
    assert (Hin : k0 ∈ dict_keys d) by (apply dict_get_keys; by eexists).
    rewrite Hkeys in Hin. apply list_elem_of_In, in_seq in Hin. unfold k0 in Hin. lia. }
  assert (Hlook : forall layer' d', 
            dict_get layer' (dict_set layer (dict_set k0 T d)
                               (board_tmx_tile_data (board g))) = Some d' ->
            layer' = layer /\ d' = d ++ [(k0, T)] \/
            layer' <> layer /\
            dict_get layer' (board_tmx_tile_data (board g)) = Some d').
  { intros layer' d' H'. destruct (decide (layer = layer')) as [<-|Hne].
    - rewrite dict_get_set_eq, Hset in H'. injection H' as <-. by left.
    - rewrite dict_get_set_ne in H' by done. right. split; [congruence|done]. }
  split; simpl.
  - intros layer' d' H'. destruct (Hlook _ _ H') as [[-> ->]|[_ Hold]].
    + unfold dict_keys in *. rewrite map_app, length_app, Hkeys. simpl.
      rewrite Nat.add_1_r, seq_S. unfold k0. by rewrite Nat.add_1_r.
    + by apply (tr_keys _ Hr layer').
  - intros layer' d' H'. destruct (Hlook _ _ H') as [[-> ->]|[_ Hold]].
    + unfold dict_values. rewrite map_app. simpl.
      apply NoDup_app. split; [by apply (tr_nodup _ Hr layer)|].
      split; [|apply NoDup_singleton].
      intros t Ht Ht'. apply list_elem_of_singleton in Ht'. subst t.
      destruct (dict_value_get T d) as [k Hk]; [|done|].
      { unfold dict_keys in *. rewrite Hkeys. apply NoDup_seq. }
      destruct (tr_back _ Hr _ _ _ _ Hd Hk) as (tl & Htl & _).
      apply lookup_lt_Some in Htl. unfold T in Htl. lia.
    + by apply (tr_nodup _ Hr layer').
  - intros layer' d' k t H' Hk. destruct (Hlook _ _ H') as [[-> ->]|[_ Hold]].
    + rewrite dict_get_app in Hk.
      destruct (dict_get k d) as [t0|] eqn:Hkd.
      * injection Hk as <-.
        destruct (tr_back _ Hr _ _ _ _ Hd Hkd) as (tl & Htl & Hl & Hi).
        exists tl. split; [by apply lookup_app_l_Some|done].
      * destruct (Nat.eqb k k0) eqn:He; [|done]. injection Hk as <-.
        apply Nat.eqb_eq in He as ->. eexists.
        split; [by apply list_lookup_middle|done].
    + destruct (tr_back _ Hr _ _ _ _ Hold Hk) as (tl & Htl & Hl & Hi).
      exists tl. split; [by apply lookup_app_l_Some|done].
  - intros t tl Ht. apply lookup_app_Some in Ht as [Ht|[Hge Ht]].
    + destruct (tr_forth _ Hr _ _ Ht) as (d0 & Hd0 & Hk0).
      destruct (decide (layer = tile_layer tl)) as [He|Hne].
      * rewrite <- He, dict_get_set_eq, Hset. eexists. split; [done|].
        rewrite <- He, Hd in Hd0. injection Hd0 as <-.
        by rewrite dict_get_app, Hk0.
      * rewrite dict_get_set_ne by done. by exists d0.
    + apply list_lookup_singleton_Some in Ht as [Hz <-]. simpl.
      rewrite dict_get_set_eq, Hset. eexists. split; [done|].
      rewrite dict_get_app, Hnone, Nat.eqb_refl. f_equal. unfold T. lia.
Qed.

(** Changes of a tile's position, piece or flag keep the registry. *)
Lemma tiles_registered_keep g g' :
  tiles_registered g ->
  board_tmx_tile_data (board g') = board_tmx_tile_data (board g) ->
  length (tiles g') = length (tiles g) ->
  (forall t tl', tiles g' !! t = Some tl' ->
     exists tl, tiles g !! t = Some tl /\ tile_layer tl' = tile_layer tl /\
                tile_index tl' = tile_index tl) ->
  tiles_registered g'.
Proof.
  intros Hr Hd Hlen Hsame.
  assert (Hback : forall t tl, tiles g !! t = Some tl ->
            exists tl', tiles g' !! t = Some tl' /\
                        tile_layer tl' = tile_layer tl /\
                        tile_index tl' = tile_index tl).
  { intros t tl Htl.
    assert (Hlt : (t < length (tiles g'))%nat).
    { rewrite Hlen. by apply lookup_lt_Some in Htl. }
    apply lookup_lt_is_Some_2 in Hlt as [tl' Htl'].
    destruct (Hsame _ _ Htl') as (tl0 & Htl0 & ? & ?).
    exists tl'. split; [done|]. split; congruence. }
  split; rewrite ?Hd.
  - apply (tr_keys _ Hr).
  - apply (tr_nodup _ Hr).
  - intros layer d k t Hl Hk.
    destruct (tr_back _ Hr _ _ _ _ Hl Hk) as (tl & Htl & ? & ?).
    destruct (Hback _ _ Htl) as (tl' & Htl' & ? & ?).
    exists tl'. split; [done|]. split; congruence.
  - intros t tl' Htl'. destruct (Hsame _ _ Htl') as (tl & Htl & Hl & Hi).
    rewrite Hl, Hi. by apply (tr_forth _ Hr).
Qed.

Lemma stable_tiles_registered g g' :
  stable g g' -> tiles_registered g -> tiles_registered g'.
Proof.
  intros Hs Hr. apply (tiles_registered_keep g); [done|..].
  - pose proof (st_board _ _ Hs) as Hb.
    by apply (f_equal board_tmx_tile_data) in Hb.
  - apply (fmap_eq_length _ _ _ (st_tiles _ _ Hs)).
  - intros t tl' Htl'.
    destruct (fmap_eq_lookup _ _ _ _ _ (st_tiles _ _ Hs) Htl') as (tl & Htl & He).
    exists tl. split; [done|].
    split; [by apply (f_equal tile_layer) in He
           |by apply (f_equal tile_index) in He].
Qed.

Lemma loaded_state_registered m s1 s2 : tiles_registered (loaded_state m s1 s2).
Proof.
  split; simpl.
  - intros layer d Hd. by apply empty_layers_get in Hd as ->.
  - intros layer d Hd. apply empty_layers_get in Hd as ->. apply NoDup_nil_2.
  - intros layer d k t Hd Hk. by apply empty_layers_get in Hd as ->.
  - intros t tl Ht. done.
Qed.

Lemma setup_tiles_registered e g g' :
  tiles_registered g -> GameBoard_setup e g = Ok g' -> tiles_registered g'.
Proof.
  intros Hr H.
  apply (GameBoard_setup_phases tiles_registered tiles_registered e g g' H);
    [done|..|done|].
  - intros x y l s a b Ha Hpl. by apply (place_tile_registered x y l s a).
  - intros dx dy t a b Ha Hsh.
    apply shift_tile_inv in Hsh as (tl & rc & Htl & _ & ->).
    apply (tiles_registered_keep a); [done|done|simpl; by rewrite length_insert|].
    intros u tl' Hu. simpl in Hu.
    apply list_lookup_insert_Some in Hu as [(-> & <- & _)|(_ & Hu)]; eauto.
  - intros t r a a1 b Ha Hgi Hpp.
    destruct (piece_step_inv _ _ _ _ _ Hgi Hpp)
      as (r0 & sf & tl & _ & _ & Htl & -> & ->).
    apply (tiles_registered_keep a); [done|done|simpl; by rewrite length_insert|].
    intros u tl' Hu. simpl in Hu.
    apply list_lookup_insert_Some in Hu as [(-> & <- & _)|(_ & Hu)]; eauto.
Qed.

Lemma run_tiles_registered e samples g :
  Game_run e samples = Ok g -> tiles_registered g.
Proof.
  intros H. apply (Game_run_ind tiles_registered e samples g H).
  - intros g0 g1 g2 H0 H1 H2.
    apply Game_init_inv in H0 as (m & _ & ->).
    apply GameResources_setup_inv_explicit in H1 as (s1 & s2 & _ & _ & ->).
    apply (setup_tiles_registered e _ g2 (loaded_state_registered m s1 s2) H2).
  - intros i s s' Hr Hat _.
    apply (stable_tiles_registered _ _ (atoms_stable _ _ Hat)).
    apply (tiles_registered_keep s); [done|done|done|].
    intros t tl Ht. by exists tl.
Qed.

(** X5. In every state of a run the tile dictionaries and the tiles agree: a
    tile is found in the dictionary of its own layer under its own index, an
    entry of the dictionary of a layer is a tile of that layer with the
    entry's key as index, and each dictionary has the keys 1 to its length and
    no tile twice. *)
Theorem tile_registry_round_trip
  (e : Env) (samples : list Sample) (g : Game) :
  Game_run e samples = Ok g ->
  (forall t tl, tiles g !! t = Some tl ->
     exists d, dict_get (tile_layer tl) (board_tmx_tile_data (board g)) = Some d /\
               dict_get (tile_index tl) d = Some t) /\
  (forall layer d k t,
     dict_get layer (board_tmx_tile_data (board g)) = Some d ->
     dict_get k d = Some t ->
     exists tl, tiles g !! t = Some tl /\ tile_layer tl = layer /\
                tile_index tl = k) /\
  (forall layer d,
     dict_get layer (board_tmx_tile_data (board g)) = Some d ->
     dict_keys d = seq 1 (length d) /\ NoDup (dict_values d)).
Proof.
  intros H. pose proof (run_tiles_registered _ _ _ H) as Hr.
  split; [apply (tr_forth _ Hr)|]. split; [apply (tr_back _ Hr)|].
  intros layer d Hd. split; [by apply (tr_keys _ Hr layer)|by apply (tr_nodup _ Hr layer)].
Qed.

(** ** Laying out the board *)

Lemma for_each_rest {A S : Type} (P : list A -> S -> Prop)
  (body : A -> S -> result S) (l : list A) :
  (forall a rest s s', P (a :: rest) s -> body a s = Ok s' -> P rest s') ->
  forall s s', P l s -> for_each l body s = Ok s' -> P [] s'.
Proof.
  intros Hb. induction l as [|a l IH]; intros s s' Hs Hr; simpl in Hr.
  - by injection Hr as <-.
  - apply bind_Ok in Hr as (s1 & H1 & Hr). apply (IH s1 s'); [|done].
    by apply (Hb a l s s1).
Qed.

Lemma place_tiles_inv (P : Game -> Prop) g g' :
  place_tiles g = Ok g' -> P g ->
  (forall x y layer sf a b,
     (x < tmx_width (board_tmx_data (board g)))%nat ->
     (y < tmx_height (board_tmx_data (board g)))%nat ->
     get_tile_image (board_tmx_data (board g)) x y layer = Some sf ->
     P a -> place_tile x y layer sf a = Ok b -> P b) ->
  P g'.
Proof.
  unfold place_tiles. intros H HP Hstep. revert H.
  apply (for_each_inv P); [|done]. intros x s1 s1' Hx Hs1.
  apply (for_each_inv P); [|done]. intros y s2 s2' Hy Hs2.
  apply (for_each_inv P); [|done]. intros layer s3 s3' _ Hs3.
  destruct (get_tile_image _ x y layer) as [sf|] eqn:Hsf.
  - apply (Hstep x y layer sf); [..|done|done].
    + apply list_elem_of_In, in_seq in Hx. lia.
    + apply list_elem_of_In, in_seq in Hy. lia.
  - by intros [= <-].
Qed.

Lemma GameBoard_setup_stages e g g' :
  GameBoard_setup e g = Ok g' ->
  exists g1 g2,
    place_tiles g = Ok g1 /\
    for_each (all_tiles g1)
             (shift_tile (board_x (board g1) - x_modd g1)
                         (board_y (board g1) - y_modd g1)) g1 = Ok g2 /\
    for_each (seq 0 GAME_BOARD_NUM_PIECES) (fun index g =>
      let* tile := choice e index (layer_tiles 1 g1) in
      let* sg := get_image "piece_black" g in
      place_piece tile (fst sg) (snd sg)) g2 = Ok g'.
Proof.
  unfold GameBoard_setup. intros H.
  apply bind_Ok in H as (g1 & Hg1 & H).
  apply bind_Ok in H as (outer & Ho & H).
  apply bind_Ok in H as (inner & Hi & H).
  apply bind_Ok in H as (g2 & Hg2 & H).
  unfold dict_item in Ho, Hi.
  destruct (dict_get 0%nat _) as [d0|] eqn:Hd0; [|done]. injection Ho as <-.
  destruct (dict_get 1%nat _) as [d1|] eqn:Hd1; [|done]. injection Hi as <-.
  exists g1, g2. unfold x_modd, y_modd, all_tiles, layer_tiles.
  by rewrite Hd0, Hd1.
Qed.

Lemma registered_all_tiles g :
  tiles_registered g ->
  NoDup (all_tiles g) /\
  forall t, t ∈ all_tiles g ->
    exists tl, tiles g !! t = Some tl /\ shifted tl = true.
Proof.
  intros Hr. unfold all_tiles, layer_tiles.
  assert (Hin : forall layer d t,
            dict_get layer (board_tmx_tile_data (board g)) = Some d ->
            t ∈ dict_values d ->
            exists tl, tiles g !! t = Some tl /\ tile_layer tl = layer).
  { intros layer d t Hd Ht.
    destruct (dict_value_get t d) as [k Hk]; [|done|].
    { rewrite (tr_keys _ Hr _ _ Hd). apply NoDup_seq. }
    destruct (tr_back _ Hr _ _ _ _ Hd Hk) as (tl & Htl & Hl & _).
    by exists tl. }
  split.
  - apply NoDup_app. split; [|split].
    + destruct (dict_get 0%nat _) as [d0|] eqn:Hd0; [|apply NoDup_nil_2].
      by apply (tr_nodup _ Hr 0%nat).
    + intros t H0 H1.
      destruct (dict_get 0%nat _) as [d0|] eqn:Hd0;
        [|by apply not_elem_of_nil in H0].
      destruct (dict_get 1%nat _) as [d1|] eqn:Hd1;
        [|by apply not_elem_of_nil in H1].
      destruct (Hin _ _ _ Hd0 H0) as (tl & Htl & Hl).
      destruct (Hin _ _ _ Hd1 H1) as (tl' & Htl' & Hl').
      rewrite Htl in Htl'. injection Htl' as <-. lia.
    + destruct (dict_get 1%nat _) as [d1|] eqn:Hd1; [|apply NoDup_nil_2].
      by apply (tr_nodup _ Hr 1%nat).
  - intros t Ht. apply elem_of_app in Ht as [Ht|Ht].
    + destruct (dict_get 0%nat _) as [d0|] eqn:Hd0;
        [|by apply not_elem_of_nil in Ht].
      destruct (Hin _ _ _ Hd0 Ht) as (tl & Htl & Hl). exists tl.
      split; [done|]. unfold shifted. by rewrite Hl.
    + destruct (dict_get 1%nat _) as [d1|] eqn:Hd1;
        [|by apply not_elem_of_nil in Ht].
      destruct (Hin _ _ _ Hd1 Ht) as (tl & Htl & Hl). exists tl.
      split; [done|]. unfold shifted. by rewrite Hl.
Qed.

Lemma registered_shifted g t tl :
  tiles_registered g -> tiles g !! t = Some tl -> shifted tl = true ->
  t ∈ all_tiles g.
Proof.
  intros Hr Htl Hs. destruct (tr_forth _ Hr _ _ Htl) as (d & Hd & Hk).
  apply dict_get_value in Hk. unfold all_tiles, layer_tiles, shifted in *.
  apply Nat.ltb_lt in Hs.
  destruct (tile_layer tl) as [|[|n]] eqn:Hl; [| |lia].
  - apply elem_of_app. left. by rewrite Hd.
  - apply elem_of_app. right. by rewrite Hd.
Qed.

(** The tiles come out of the first loop on the grid of the map. *)
Lemma place_tiles_grid g g' :
  place_tiles g = Ok g' -> tiles_registered g -> tiles g = [] ->
  tiles_registered g' /\
  board_tmx_data (board g') = board_tmx_data (board g) /\
  board_x (board g') = board_x (board g) /\
  board_y (board g') = board_y (board g) /\
  board_laid_out (board_tmx_data (board g)) 0 0 g'.
Proof.
  intros H Hr Hnil.
  apply (place_tiles_inv
           (fun s => tiles_registered s /\
                     board_tmx_data (board s) = board_tmx_data (board g) /\
                     board_x (board s) = board_x (board g) /\
                     board_y (board s) = board_y (board g) /\
                     board_laid_out (board_tmx_data (board g)) 0 0 s) g g' H).
  - split; [done|]. repeat (split; [done|]). intros t tl Ht.
    by rewrite Hnil in Ht.
  - intros x y layer sf a b Hx Hy Hsf (Ha & Hm & Hbx & Hby & Hlay) Hp.
    split; [by apply (place_tile_registered x y layer sf a)|].
    apply place_tile_inv in Hp as (d & Hd & ->). simpl.
    repeat (split; [done|]). intros t tl Ht. simpl in Ht.
    apply lookup_app_Some in Ht as [Ht|[_ Ht]]; [by apply (Hlay t tl)|].
    apply list_lookup_singleton_Some in Ht as [_ <-].
    assert (Hif : forall b : bool, (if b then 0 else 0) = 0) by (by intros []).
    rewrite !Hif. exists x, y, sf. simpl. rewrite !Z.add_0_r. done.
Qed.

(** The second loop moves each tile of the two lower layers once. *)
Lemma shift_loop_grid m dx dy g g' :
  for_each (all_tiles g) (shift_tile dx dy) g = Ok g' ->
  tiles_registered g -> board_laid_out m 0 0 g ->
  tiles_registered g' /\ same_board g g' /\ board_laid_out m dx dy g'.
Proof.
  intros H Hr Hlay.
  destruct (registered_all_tiles g Hr) as [Hnd Hall].
  set (P := fun (rest : list nat) (s : Game) =>
    NoDup rest /\ (forall t, t ∈ rest -> t ∈ all_tiles g) /\
    tiles_registered s /\ same_board g s /\
    forall t tl, tiles s !! t = Some tl ->
      laid_out m (if decide (t ∈ rest) then 0 else if shifted tl then dx else 0)
                 (if decide (t ∈ rest) then 0 else if shifted tl then dy else 0)
                 tl).
  assert (HP : P [] g').
  { revert H. apply (for_each_rest P).
    - intros a rest s s' (Hnd' & Hsub & Hrs & Hsb & Hl) Hsh.
      apply NoDup_cons in Hnd' as [Ha Hnd'].
      apply shift_tile_inv in Hsh as (tl & rc & Htl & Hrc & ->).
      split; [done|]. split; [intros t Ht; apply Hsub; by right|].
      split.
      { apply (tiles_registered_keep s);
          [done|done|simpl; by rewrite length_insert|].
        intros u tl' Hu. simpl in Hu.
        apply list_lookup_insert_Some in Hu as [(-> & <- & _)|(_ & Hu)]; eauto. }
      split; [done|]. intros u tl' Hu. simpl in Hu.
      apply list_lookup_insert_Some in Hu as [(-> & <- & _)|(Hne & Hu)].
      + rewrite !decide_False by done.
        destruct (Hall u (Hsub u (list_elem_of_here _ _))) as (tl0 & Htl0 & Hs0).
        assert (Hsame : tile_layer tl = tile_layer tl0).
        { destruct Hsb as (_ & Hdata & _).
          destruct (tr_forth _ Hrs _ _ Htl) as (d & Hd & Hk).
          rewrite Hdata in Hd.
          destruct (tr_back _ Hr _ _ _ _ Hd Hk) as (tl1 & Htl1 & Hl1 & _).
          rewrite Htl0 in Htl1. injection Htl1 as <-. done. }
        unfold shifted in *. simpl. rewrite Hsame, Hs0.
        pose proof (Hl u tl Htl) as Hold.
        rewrite !decide_True in Hold by (by left).
        destruct Hold as (cx & cy & sf & Hcx & Hcy & Hsf & Hx & Hy & Hre).
        exists cx, cy, sf. simpl. rewrite <- Hsame.
        repeat (split; [done|]). split; [lia|]. split; [lia|].
        rewrite Hre in Hrc. injection Hrc as <-. done.
      + pose proof (Hl u tl' Hu) as Hold.
        destruct (decide (u ∈ rest)) as [Hin|Hnin].
        * rewrite !decide_True in Hold by (by right). done.
        * assert (Hc : u ∉ a :: rest).
          { intros Hc. apply elem_of_cons in Hc as [?|?]; done. }
          rewrite !decide_False in Hold by done. done.
    - split; [done|]. split; [done|]. split; [done|]. split; [done|].
      intros t tl Htl. pose proof (Hlay t tl Htl) as Hold.
      assert (Hif : forall b : bool, (if b then 0 else 0) = 0) by (by intros []).
      rewrite !Hif in Hold.
      destruct (decide (t ∈ all_tiles g)) as [Hin|Hnin]; [done|].
      destruct (shifted tl) eqn:Hs; [|done].
      exfalso. apply Hnin. by apply (registered_shifted g t tl). }
  destruct HP as (_ & _ & Hrs & Hsb & Hl). split; [done|]. split; [done|].
  intros t tl Htl. pose proof (Hl t tl Htl) as Hnew.
  rewrite !decide_False in Hnew by apply not_elem_of_nil. done.
Qed.

Lemma same_board_trans g1 g2 g3 :
  same_board g1 g2 -> same_board g2 g3 -> same_board g1 g3.
Proof.
  intros (?&?&?&?) (?&?&?&?). unfold same_board. split; [congruence|].
  split; [congruence|]. split; congruence.
Qed.

Lemma stable_same_board g g' : stable g g' -> same_board g g'.
Proof.
  intros Hs. pose proof (st_board _ _ Hs) as Hb. unfold same_board.
  split; [by apply (f_equal board_tmx_data) in Hb|].
  split; [by apply (f_equal board_tmx_tile_data) in Hb|].
  split; [by apply (f_equal board_x) in Hb|by apply (f_equal board_y) in Hb].
Qed.

(** A tile keeps its place when only its piece or its flag changes. *)
Lemma laid_out_keep m dx dy g g' :
  board_laid_out m dx dy g ->
  (forall t tl', tiles g' !! t = Some tl' ->
     exists tl, tiles g !! t = Some tl /\ tile_layer tl' = tile_layer tl /\
                tile_x tl' = tile_x tl /\ tile_y tl' = tile_y tl /\
                tile_rect tl' = tile_rect tl) ->
  board_laid_out m dx dy g'.
Proof.
  intros Hl Hsame t tl' Ht.
  destruct (Hsame _ _ Ht) as (tl & Htl & Hla & Hx & Hy & Hre).
  destruct (Hl _ _ Htl) as (cx & cy & sf & ? & ? & ? & ? & ? & ?).
  unfold shifted in *. exists cx, cy, sf. rewrite Hla, Hx, Hy, Hre. done.
Qed.

Lemma stable_laid_out m dx dy g g' :
  stable g g' -> board_laid_out m dx dy g -> board_laid_out m dx dy g'.
Proof.
  intros Hs Hl. apply (laid_out_keep m dx dy g); [done|].
  intros t tl' Htl'.
  destruct (fmap_eq_lookup _ _ _ _ _ (st_tiles _ _ Hs) Htl') as (tl & Htl & He).
  exists tl. split; [done|].
  split; [by apply (f_equal tile_layer) in He|].
  split; [by apply (f_equal tile_x) in He|].
  split; [by apply (f_equal tile_y) in He|by apply (f_equal tile_rect) in He].
Qed.

Lemma pieces_loop_grid e m dx dy inner g g' :
  for_each (seq 0 GAME_BOARD_NUM_PIECES) (fun index g =>
    let* tile := choice e index inner in
    let* sg := get_image "piece_black" g in
    place_piece tile (fst sg) (snd sg)) g = Ok g' ->
  board_laid_out m dx dy g ->
  same_board g g' /\ board_laid_out m dx dy g'.
Proof.
  intros H Hl. revert H.
  apply (for_each_inv (fun s => same_board g s /\ board_laid_out m dx dy s));
    [|done].
  intros index s s' _ [Hsb Hs] Hb.
  apply bind_Ok in Hb as (tile & _ & Hb).
  apply bind_Ok in Hb as ([r s1] & Hgi & Hb). simpl in Hb.
  destruct (piece_step_inv _ _ _ _ _ Hgi Hb)
    as (r0 & sf & tl & _ & _ & Htl & -> & ->).
  split; [exact Hsb|].
  apply (laid_out_keep m dx dy s); [done|].
  intros u tl' Hu. simpl in Hu.
  apply list_lookup_insert_Some in Hu as [(-> & <- & _)|(_ & Hu)]; eauto 10.
Qed.

Lemma run_laid_out e samples g :
  Game_run e samples = Ok g ->
  tiles_registered g /\
  board_laid_out (board_tmx_data (board g))
                 (board_x (board g) - x_modd g)
                 (board_y (board g) - y_modd g) g.
Proof.
  intros H.
  apply (Game_run_ind
           (fun s => tiles_registered s /\
                     board_laid_out (board_tmx_data (board s))
                       (board_x (board s) - x_modd s)
                       (board_y (board s) - y_modd s) s) e samples g H).
  - intros g0 g1 g2 H0 H1 H2.
    split.
    { apply Game_init_inv in H0 as (m & _ & ->).
      apply GameResources_setup_inv_explicit in H1 as (s1 & s2 & _ & _ & ->).
      apply (setup_tiles_registered e _ g2 (loaded_state_registered m s1 s2) H2). }
    apply Game_init_inv in H0 as (m & _ & ->).
    apply GameResources_setup_inv_explicit in H1 as (s1 & s2 & _ & _ & ->).
    apply GameBoard_setup_stages in H2 as (a & b & Ha & Hb & Hc).
    apply place_tiles_grid in Ha as (Hra & Hm & Hx & Hy & Hla);
      [|apply loaded_state_registered|done].
    apply (shift_loop_grid (board_tmx_data (board a))) in Hb
      as (Hrb & Hsb & Hlb); [|done|by rewrite Hm].
    apply (pieces_loop_grid e (board_tmx_data (board a))
             (board_x (board a) - x_modd a) (board_y (board a) - y_modd a))
      in Hc as (Hsc & Hlc); [|done].
    destruct (same_board_trans _ _ _ Hsb Hsc) as (Em & Ed & Ex & Ey).
    unfold x_modd, y_modd, all_tiles, layer_tiles. rewrite Em, Ed, Ex, Ey.
    exact Hlc.
  - intros i s s' [Hrs Hls] Hat _.
    pose proof (atoms_stable _ _ Hat) as Hst.
    assert (Hrs' : tiles_registered (sampled i s)).
    { apply (tiles_registered_keep s); [done|done|done|].
      intros t tl Ht. by exists tl. }
    split; [by apply (stable_tiles_registered _ _ Hst)|].
    destruct (stable_same_board _ _ Hst) as (Em & Ed & Ex & Ey).
    unfold x_modd, y_modd, all_tiles, layer_tiles. rewrite Em, Ed, Ex, Ey.
    apply (stable_laid_out _ _ _ _ _ Hst). exact Hls.
Qed.

(** X6. In every state of a run each tile shows a cell of its layer of the map
    and stands on the grid of 32 by 32 cells: a tile of layer 0 or 1 at the
    cell's place moved by the board's origin minus [x_modd], [y_modd] (the
    number of tiles of these two layers plus 32), a tile of a higher layer at
    the cell's place; its rectangle is the image's, at the same position.
    Positions are integers, as everywhere in this development. *)
Theorem setup_lays_out_the_board
  (e : Env) (samples : list Sample) (g : Game) (t : nat) (tl : GameTile) :
  Game_run e samples = Ok g -> tiles g !! t = Some tl ->
  exists cx cy sf,
    (cx < tmx_width (board_tmx_data (board g)))%nat /\
    (cy < tmx_height (board_tmx_data (board g)))%nat /\
    get_tile_image (board_tmx_data (board g)) cx cy (tile_layer tl) = Some sf /\
    tile_x tl = Z.of_nat cx * GAME_BOARD_TILE_WIDTH
                + (if (tile_layer tl <? 2)%nat
                   then board_x (board g) - x_modd g else 0) /\
    tile_y tl = Z.of_nat cy * GAME_BOARD_TILE_HEIGHT
                + (if (tile_layer tl <? 2)%nat
                   then board_y (board g) - y_modd g else 0) /\
    tile_rect tl = Some (mkRect (tile_x tl) (tile_y tl) (surf_w sf) (surf_h sf)).
Proof.
  intros H Ht. destruct (run_laid_out _ _ _ H) as [_ Hl]. exact (Hl t tl Ht).
Qed.

(** ** Drawing a frame *)

Lemma blit_all_Ok {A : Type} (arena : list A) (shape : A -> GameTile)
  (refs : list nat) (display : list Blit) :
  (forall r, r ∈ refs -> is_Some (arena !! r)) ->
  blit_all arena shape refs display
  = Ok (display ++ (tile_blit ∘ shape <$> omap (fun r => arena !! r) refs)).
Proof.
  unfold blit_all. revert display.
  induction refs as [|r refs IH]; intros display Hin; simpl.
  - by rewrite app_nil_r.
  - destruct (Hin r (list_elem_of_here _ _)) as [a Ha].
    unfold deref. rewrite Ha. simpl.
    rewrite IH by (intros r' Hr'; apply Hin; by right).
    by rewrite <- app_assoc.
Qed.

Lemma omap_ext_in {A B : Type} (f h : A -> option B) (l : list A) :
  (forall x, x ∈ l -> f x = h x) -> omap f l = omap h l.
Proof.
  induction l as [|a l IH]; intros Hfh; [done|]. csimpl.
  rewrite (Hfh a) by (by left). rewrite IH; [done|].
  intros x Hx. apply Hfh. by right.
Qed.

Lemma omap_lookup_seq {A : Type} (l : list A) :
  omap (fun r => l !! r) (seq 0 (length l)) = l.
Proof.
  induction l as [|a l IH] using rev_ind; [done|].
  rewrite length_app. simpl. rewrite Nat.add_1_r, seq_S, omap_app. simpl.
  rewrite list_lookup_middle by done. simpl.
  f_equal. rewrite <- IH at 2. apply omap_ext_in.
  intros r Hr. apply elem_of_seq in Hr. apply lookup_app_l. lia.
Qed.

Lemma omap_concat {A B : Type} (f : A -> option B) (ls : list (list A)) :
  omap f (concat ls) = concat (map (omap f) ls).
Proof.
  induction ls as [|l ls IH]; [done|]. simpl. by rewrite omap_app, IH.
Qed.

Lemma elem_of_concat {A : Type} (x : A) (ls : list (list A)) :
  x ∈ concat ls <-> exists l, l ∈ ls /\ x ∈ l.
Proof.
  rewrite list_elem_of_In, in_concat. split; intros (l & H1 & H2); exists l.
  - by rewrite !list_elem_of_In.
  - by rewrite <- !list_elem_of_In.
Qed.

(** ** Where the tiles of a layer are *)

Lemma layer_tiles_layer g layer t :
  tiles_registered g -> t ∈ layer_tiles layer g ->
  exists tl, tiles g !! t = Some tl /\ tile_layer tl = layer.
Proof.
  intros Hr Ht. unfold layer_tiles in Ht.
  destruct (dict_get layer _) as [d|] eqn:Hd; [|by apply not_elem_of_nil in Ht].
  destruct (dict_value_get t d) as [k Hk]; [|done|].
  { rewrite (tr_keys _ Hr _ _ Hd). apply NoDup_seq. }
  destruct (tr_back _ Hr _ _ _ _ Hd Hk) as (tl & Htl & Hl & _). by exists tl.
Qed.

Lemma layer_tiles_NoDup g layer :
  tiles_registered g -> NoDup (layer_tiles layer g).
Proof.
  intros Hr. unfold layer_tiles.
  destruct (dict_get layer _) as [d|] eqn:Hd; [|apply NoDup_nil_2].
  by apply (tr_nodup _ Hr layer).
Qed.

Lemma layers_NoDup g (ks : list nat) :
  tiles_registered g -> NoDup ks ->
  NoDup (concat ((fun k => layer_tiles k g) <$> ks)).
Proof.
  intros Hr. induction ks as [|k ks IH]; intros Hnd; simpl; [apply NoDup_nil_2|].
  apply NoDup_cons in Hnd as [Hk Hnd]. apply NoDup_app.
  split; [by apply layer_tiles_NoDup|]. split; [|by apply IH].
  intros t Ht Ht'. apply elem_of_concat in Ht' as (l & Hl & Ht').
  apply list_elem_of_fmap in Hl as (k' & -> & Hk').
  destruct (layer_tiles_layer _ _ _ Hr Ht) as (tl & Htl & Hla).
  destruct (layer_tiles_layer _ _ _ Hr Ht') as (tl' & Htl' & Hla').
  rewrite Htl in Htl'. injection Htl' as <-. congruence.
Qed.

Lemma drawn_tiles_all g :
  tiles_registered g -> layers_listed g -> drawn_tiles g ≡ₚ tiles g.
Proof.
  intros Hr Hk. unfold drawn_tiles, layer_chunk.
  set (L := tmx_layers (board_tmx_data (board g))).
  replace (concat ((fun layer => omap (fun t => tiles g !! t) (layer_tiles layer g))
                     <$> seq 0 L))
    with (omap (fun t => tiles g !! t)
               (concat ((fun k => layer_tiles k g) <$> seq 0 L))).
  2:{ rewrite omap_concat. f_equal. by rewrite map_map. }
  transitivity (omap (fun t => tiles g !! t) (seq 0 (length (tiles g))));
    [|by rewrite omap_lookup_seq].
  apply omap_Permutation. apply NoDup_Permutation.
  - apply layers_NoDup; [done|apply NoDup_seq].
  - apply NoDup_seq.
  - intros t. rewrite elem_of_seq. split.
    + intros Ht. apply elem_of_concat in Ht as (l & Hl & Ht).
      apply list_elem_of_fmap in Hl as (k & -> & _).
      destruct (layer_tiles_layer _ _ _ Hr Ht) as (tl & Htl & _).
      apply lookup_lt_Some in Htl. lia.
    + intros [_ Ht]. simpl in Ht.
      apply lookup_lt_is_Some_2 in Ht as [tl Htl].
      destruct (tr_forth _ Hr _ _ Htl) as (d & Hd & Hi).
      apply elem_of_concat. exists (layer_tiles (tile_layer tl) g). split.
      * apply list_elem_of_fmap. exists (tile_layer tl). split; [done|].
        fold L. unfold L. rewrite <- Hk. apply dict_get_keys. by eexists.
      * unfold layer_tiles. rewrite Hd. by apply (dict_get_value (tile_index tl)).
Qed.

Lemma layer_chunk_layer g layer tl :
  tiles_registered g -> tl ∈ layer_chunk g layer -> tile_layer tl = layer.
Proof.
  intros Hr Htl. apply list_elem_of_omap in Htl as (t & Ht & Htl).
  destruct (layer_tiles_layer _ _ _ Hr Ht) as (tl' & Htl' & Hl). congruence.
Qed.

Lemma draw_layers_Ok g (ks : list nat) display :
  tiles_registered g ->
  (forall k, k ∈ ks -> is_Some (dict_get k (board_tmx_tile_data (board g)))) ->
  for_each ks (fun layer display =>
      let* d := dict_item layer (board_tmx_tile_data (board g)) in
      blit_all (tiles g) id (dict_values d) display) display
  = Ok (display ++ (tile_blit <$> concat (layer_chunk g <$> ks))).
Proof.
  intros Hr. revert display.
  induction ks as [|k ks IH]; intros display Hin; simpl.
  - by rewrite app_nil_r.
  - destruct (Hin k (list_elem_of_here _ _)) as [d Hd].
    unfold dict_item. rewrite Hd. simpl. rewrite blit_all_Ok.
    2:{ intros t Ht.
        destruct (layer_tiles_layer g k t Hr) as (tl & Htl & _); [|by eexists].
        unfold layer_tiles. by rewrite Hd. }
    simpl. rewrite IH by (intros k' Hk'; apply Hin; by right).
    f_equal. rewrite <- app_assoc. f_equal. rewrite fmap_app. f_equal.
    unfold layer_chunk, layer_tiles. by rewrite Hd.
Qed.

Lemma dict_keys_set {V : Type} (k : nat) (v : V) (d : dict V) :
  is_Some (dict_get k d) -> dict_keys (dict_set k v d) = dict_keys d.
Proof.
  unfold dict_keys. induction d as [|[k' v'] d IH]; simpl; intros [w Hw]; [done|].
  destruct (Nat.eqb k k') eqn:He; simpl; [done|]. f_equal. apply IH. by eexists.
Qed.

Lemma setup_layers_listed e g g' :
  layers_listed g -> GameBoard_setup e g = Ok g' -> layers_listed g'.
Proof.
  intros Hl H.
  apply (GameBoard_setup_phases layers_listed layers_listed e g g' H);
    [done|..|done|].
  - intros x y l s a b Ha Hpl. apply place_tile_inv in Hpl as (d & Hd & ->).
    unfold layers_listed in *. simpl. rewrite dict_keys_set; [done|by eexists].
  - intros dx dy t a b Ha Hsh.
    by apply shift_tile_inv in Hsh as (tl & rc & _ & _ & ->).
  - intros t r a a1 b Ha Hgi Hpp.
    by destruct (piece_step_inv _ _ _ _ _ Hgi Hpp)
      as (r0 & sf & tl & _ & _ & _ & -> & ->).
Qed.

Lemma run_layers_listed e samples g :
  Game_run e samples = Ok g -> layers_listed g.
Proof.
  intros H. apply (Game_run_ind layers_listed e samples g H).
  - intros g0 g1 g2 H0 H1 H2.
    apply Game_init_inv in H0 as (m & _ & ->).
    apply GameResources_setup_inv_explicit in H1 as (s1 & s2 & _ & _ & ->).
    apply (setup_layers_listed e _ g2) in H2; [done|].
    unfold layers_listed, dict_keys. simpl. rewrite map_map. simpl.
    apply map_id.
  - intros i s s' Hs Hat _.
    destruct (stable_same_board _ _ (atoms_stable _ _ Hat)) as (Em & Ed & _).
    unfold layers_listed in *. rewrite Em, Ed. exact Hs.
Qed.

Lemma run_draw e samples g display :
  Game_run e samples = Ok g ->
  GameBoard_draw g display
  = Ok (display ++ (tile_blit <$> drawn_tiles g)
                ++ (tile_blit ∘ piece_base <$> pieces g)).
Proof.
  intros H. pose proof (run_tiles_registered _ _ _ H) as Hr.
  pose proof (run_layers_listed _ _ _ H) as Hk.
  destruct (run_pieces_numbered _ _ _ H) as (Hn & Hp & _).
  unfold GameBoard_draw. rewrite draw_layers_Ok; [|done|].
  2:{ intros k Hin. by apply dict_get_keys. }
  simpl. rewrite Hp, piece_keys_values, blit_all_Ok.
  2:{ intros r Hin. apply lookup_lt_is_Some_2. apply elem_of_seq in Hin.
      rewrite Hn. lia. }
  rewrite <- Hn, omap_lookup_seq, <- app_assoc. unfold drawn_tiles.
  by rewrite Hk.
Qed.

(** X21. In every state of a run [GameBoard.draw] returns, and what it adds to
    the display is one blit per tile, layer after layer from layer 0 up, every
    tile once, followed by one blit per piece in the order of their creation,
    each at the coordinates of the tile or piece and from a surface that
    exists. *)
Theorem draw_paints_tiles_then_pieces
  (e : Env) (samples : list Sample) (g : Game) (display : list Blit) :
  Game_run e samples = Ok g ->
  GameBoard_draw g display
  = Ok (display ++ (tile_blit <$> drawn_tiles g)
                ++ (tile_blit ∘ piece_base <$> pieces g)) /\
  drawn_tiles g ≡ₚ tiles g /\
  (forall layer tl, tl ∈ layer_chunk g layer -> tile_layer tl = layer) /\
  (forall tl, tl ∈ drawn_tiles g ++ (piece_base <$> pieces g) ->
     exists s, tile_surface tl = Some s /\ is_Some (surfaces g !! s)).
Proof.
  intros H. pose proof (run_tiles_registered _ _ _ H) as Hr.
  pose proof (run_layers_listed _ _ _ H) as Hk.
  assert (Hi : board_inv g) by (apply reachable_board_inv; by exists e, samples).
  split; [by apply (run_draw e samples)|].
  split; [by apply drawn_tiles_all|].
  split; [intros layer tl; by apply layer_chunk_layer|].
  intros tl Hin. apply elem_of_app in Hin as [Hin|Hin].
  - rewrite (drawn_tiles_all g Hr Hk) in Hin.
    apply list_elem_of_lookup in Hin as [t Ht].
    destruct (inv_tiles _ Hi _ _ Ht) as (_ & s & Hs & Hlt).
    exists s. split; [done|]. by apply lookup_lt_is_Some_2.
  - apply list_elem_of_fmap in Hin as (pc & -> & Hin).
    apply list_elem_of_lookup in Hin as [p Hp].
    destruct (inv_pieces _ Hi _ _ Hp) as (_ & s & Hs & Hlt).
    exists s. split; [done|]. by apply lookup_lt_is_Some_2.
Qed.

Lemma loop_frames e pre g samples :
  Game_run e pre = Ok g ->
  for_each samples (fun i g =>
    let* g := Game_tick i g in
    let* _ := Game_draw g in
    Ok g) g
  = for_each samples Game_tick g.
Proof.
  revert pre g. induction samples as [|i samples IH]; intros pre g H; [done|].
  simpl. destruct (Game_tick i g) as [g'|err] eqn:Ht; [|done]. simpl.
  pose proof (Game_run_snoc _ _ _ _ _ H Ht) as H'.
  unfold Game_draw. rewrite (run_draw _ _ _ [] H'). simpl.
  by apply (IH (pre ++ [i])).
Qed.

(** X22. Drawing every frame changes nothing in the outcome of a run: the loop
    that ticks and draws ends in the state, or with the exception, of the loop
    that only ticks. *)
Theorem drawing_never_stops_a_run (e : Env) (samples : list Sample) :
  Game_loop e samples = Game_run e samples.
Proof.
  unfold Game_loop, Game_run.
  destruct (Game_init e) as [g0|err] eqn:H0; [|reflexivity].
  cbn [bind].
  destruct (Game_setup e g0) as [g1|err] eqn:H1; [|reflexivity].
  apply (loop_frames e [] g1). unfold Game_run. rewrite H0. simpl.
  by rewrite H1.
Qed.

(** ** Clicks *)

(** The state a tick has after its highlight loop, when the pointer is over
    the inner tile [t]. *)
Lemma highlight_over_tile e samples g i t tl :
  Game_run e samples = Ok g ->
  last (tiles_under_pointer (sampled i g)) = Some t ->
  tiles g !! t = Some tl ->
  exists g1,
    highlight_phase (sampled i g) = Ok g1 /\ board_inv g1 /\
    frame (sampled i g) g1 /\ pieces g1 = pieces g /\
    board_piece_selected (board g1) = board_piece_selected (board g) /\
    board_tmx_tile_selected (board g1) = Some t /\
    tile_selected_piece g1 = Ok (tile_piece tl).
Proof.
  intros Hrun Hlast Htl.
  assert (Hreach : reachable g) by by exists e, samples.
  pose proof (board_inv_with_mouse (GameMouse_tick i (mouse g)) g
                (reachable_board_inv g Hreach)) as Hi0.
  fold (sampled i g) in Hi0.
  destruct (highlight_phase_spec _ Hi0)
    as (g1 & Hhl & Hi1 & Hf1 & [Hp1 Hs1] & Hsel & _).
  exists g1. split; [done|]. split; [done|]. split; [done|].
  split; [done|]. split; [done|]. rewrite Hlast in Hsel. split; [done|].
  destruct (highlighted_tile g1 t Hi1 Hsel) as (tl1 & Htl1 & ->).
  destruct (frame_tile _ _ _ _ Hf1 Htl1) as (tl0 & Htl0 & _ & _ & Hp & _).
  simpl in Htl0. rewrite Htl in Htl0. injection Htl0 as <-. by rewrite Hp.
Qed.

Lemma run_pieces_loop e samples g g3 g' :
  Game_run e samples = Ok g ->
  length (pieces g3) = length (pieces g) ->
  board_pieces (board g3) = board_pieces (board g) ->
  pieces_tick g3 = Ok g' ->
  pieces g' = ticked_piece <$> pieces g3 /\ tiles g' = tiles g3 /\
  board g' = board g3.
Proof.
  intros Hrun Hlen3 Hkeys3 Htick.
  destruct (run_pieces_numbered e samples g Hrun) as (Hlen & Hkeys & _).
  unfold pieces_tick in Htick.
  rewrite Hkeys3, Hkeys, piece_keys_values, <- Hlen, <- Hlen3 in Htick.
  pose proof (pieces_loop_frame _ _ _ Htick) as Hbf.
  pose proof (pieces_loop_exact _ (NoDup_seq 0 _) _ _ Htick) as Hex.
  split; [|split; [apply (bf_tiles _ _ Hbf)|apply (bf_board _ _ Hbf)]].
  apply list_eq. intros p. rewrite Hex, list_lookup_fmap.
  case_decide as Hin; [done|].
  destruct (pieces g3 !! p) eqn:Hp; [|done]. exfalso. apply Hin.
  apply list_elem_of_In, in_seq. simpl. apply lookup_lt_Some in Hp. lia.
Qed.

(** X17. When no piece is selected and the inner tile under the pointer holds no
    piece, a tick of a run selects nothing, whatever the button does: no piece
    is selected afterwards, every tile keeps its occupant, and the pieces
    change by their own tick only. *)
Theorem click_on_empty_tile_selects_nothing
  (e : Env) (samples : list Sample) (g g' : Game) (i : Sample)
  (t : nat) (tl : GameTile) :
  Game_run e samples = Ok g ->
  board_piece_selected (board g) = None ->
  last (tiles_under_pointer (sampled i g)) = Some t ->
  tiles g !! t = Some tl -> tile_piece tl = None ->
  Game_tick i g = Ok g' ->
  board_piece_selected (board g') = None /\
  pieces g' = ticked_piece <$> pieces g /\
  forall u ul', tiles g' !! u = Some ul' ->
    exists ul, tiles g !! u = Some ul /\ tile_piece ul' = tile_piece ul.
Proof.
  intros Hrun Hnone Hlast Htl Hempty Htick.
  destruct (highlight_over_tile e samples g i t tl Hrun Hlast Htl)
    as (g1 & Hhl & Hi1 & Hf1 & Hp1 & Hs1 & Ht1 & Htp).
  rewrite Hempty in Htp. rewrite Hnone in Hs1.
  unfold Game_tick, GameBoard_tick in Htick. fold (sampled i g) in Htick.
  rewrite Hhl in Htick. simpl in Htick.
  assert (Hg : switch_guard g1 = Ok false /\ select_guard g1 = Ok false /\
               move_guard g1 = Ok false).
  { unfold switch_guard, select_guard, move_guard.
    rewrite Hs1, Ht1, Htp. simpl.
    by destruct (button1 (mouse_pressed (mouse g1))), (press_edge (mouse g1)). }
  destruct Hg as (Hg1 & Hg2 & Hg3). unfold when in Htick.
  rewrite Hg1 in Htick. simpl in Htick. rewrite Hg2 in Htick. simpl in Htick.
  rewrite Hg3 in Htick. simpl in Htick.
  destruct (run_pieces_loop e samples g g1 g' Hrun) as (Hp & Hti & Hb);
    [by rewrite Hp1|apply (fr_bpieces _ _ Hf1)|done|].
  split; [by rewrite Hb|]. split; [by rewrite Hp, Hp1|].
  intros u ul' Hu. rewrite Hti in Hu.
  destruct (frame_tile _ _ _ _ Hf1 Hu) as (ul & Hul & _ & _ & Hpc & _).
  exists ul. split; [done|]. by symmetry.
Qed.

(** X18. When no piece is selected, a press edge over an inner tile that holds
    piece [p] selects [p]: after the tick [p] is the board's selected piece,
    it carries the selected flag and already blinks, and every other piece and
    every tile's occupant are as before. *)
Theorem click_on_occupied_tile_selects_its_piece
  (e : Env) (samples : list Sample) (g g' : Game) (i : Sample)
  (t p : nat) (tl : GameTile) :
  Game_run e samples = Ok g ->
  board_piece_selected (board g) = None ->
  button1 (mouse_pressed (mouse g)) = false ->
  button1 (sample_pressed i) = true ->
  last (tiles_under_pointer (sampled i g)) = Some t ->
  tiles g !! t = Some tl -> tile_piece tl = Some p ->
  Game_tick i g = Ok g' ->
  board_piece_selected (board g') = Some p /\
  (exists pc, pieces g !! p = Some pc /\
     pieces g' = <[p := mkPiece (GameTile_set_selected true (piece_base pc))
                                (piece_tile pc) true]> (pieces g)) /\
  forall u ul', tiles g' !! u = Some ul' ->
    exists ul, tiles g !! u = Some ul /\ tile_piece ul' = tile_piece ul.
Proof.
  intros Hrun Hnone Hwas Hnow Hlast Htl Hocc Htick.
  assert (Hreach : reachable g) by by exists e, samples.
  pose proof (reachable_board_inv g Hreach) as Hi.
  destruct (run_pieces_sound e samples g Hrun) as (_ & Hcalm & _).
  destruct (highlight_over_tile e samples g i t tl Hrun Hlast Htl)
    as (g1 & Hhl & Hi1 & Hf1 & Hp1 & Hs1 & Ht1 & Htp).
  rewrite Hocc in Htp. rewrite Hnone in Hs1.
  assert (Hedge : press_edge (mouse g1) = true).
  { rewrite (fr_mouse _ _ Hf1). unfold press_edge. simpl. by rewrite Hwas, Hnow. }
  unfold Game_tick, GameBoard_tick in Htick. fold (sampled i g) in Htick.
  rewrite Hhl in Htick. simpl in Htick.
  assert (Hg1 : switch_guard g1 = Ok false).
  { unfold switch_guard. rewrite Hs1. simpl.
    by destruct (button1 (mouse_pressed (mouse g1))). }
  assert (Hg2 : select_guard g1 = Ok true).
  { unfold select_guard. by rewrite Hedge, Hs1, Ht1, Htp. }
  destruct (highlighted_tile g1 t Hi1 Ht1) as (tl1 & Htl1 & Htp1).
  rewrite Htp in Htp1. injection Htp1 as Hocc1. symmetry in Hocc1.
  destruct (set_selected_piece_spec g1 p t tl1 Hi1 Hs1 Htl1 Hocc1)
    as (pc & Hpc & Hset & Hi3).
  unfold when in Htick. rewrite Hg1 in Htick. simpl in Htick.
  rewrite Hg2 in Htick. simpl in Htick.
  unfold select_branch in Htick. rewrite Htp in Htick. simpl in Htick.
  rewrite Hset in Htick. simpl in Htick.
  set (g3 := marked_piece g1 p pc) in *.
  assert (Hg3 : move_guard g3 = Ok false).
  { unfold move_guard. 
    replace (press_edge (mouse g3)) with true by (symmetry; exact Hedge).
    unfold g3 at 1 2. simpl. rewrite Ht1. simpl.
    rewrite (tile_selected_piece_Ok g3 t tl1); [|exact Ht1|exact Htl1].
    by rewrite Hocc1. }
  rewrite Hg3 in Htick. simpl in Htick.
  destruct (run_pieces_loop e samples g g3 g' Hrun) as (Hp & Hti & Hb);
    [unfold g3; simpl; by rewrite length_insert, Hp1
    |unfold g3; simpl; apply (fr_bpieces _ _ Hf1)|done|].
  rewrite Hp1 in Hpc.
  split; [by rewrite Hb|]. split.
  - exists pc. split; [done|]. rewrite Hp. unfold g3. simpl. rewrite Hp1.
    rewrite list_fmap_insert. f_equal.
    + unfold ticked_piece, on_base. simpl. f_equal.
      assert (Hfl : tile_selected (piece_base pc) = false).
      { destruct (tile_selected (piece_base pc)) eqn:Hfl; [|done].
        apply (inv_piece_flag _ Hi _ _ Hpc) in Hfl. congruence. }
      by rewrite (Hcalm p pc Hpc Hfl).
    + apply list_eq. intros q. rewrite list_lookup_fmap.
      destruct (pieces g !! q) as [qc|] eqn:Hq; [|done]. simpl. f_equal.
      unfold ticked_piece.
      destruct (tile_selected (piece_base qc)) eqn:Hfl; [|done].
      apply (inv_piece_flag _ Hi _ _ Hq) in Hfl. congruence.
  - intros u ul' Hu. rewrite Hti in Hu. unfold g3 in Hu. simpl in Hu.
    destruct (frame_tile _ _ _ _ Hf1 Hu) as (ul & Hul & _ & _ & Hpc' & _).
    exists ul. split; [done|]. by symmetry.
Qed.

(** X19. When piece [p] is selected and the button is down (pressed in this
    sample or held since an earlier one) over an inner tile that holds piece
    [q], the tick moves the selection to [q]: [p] is cleared first (flag and
    blink state off), then [q] is flagged, and it blinks after the tick; every
    tile keeps its occupant. *)
Theorem pressed_over_occupied_tile_switches_selection
  (e : Env) (samples : list Sample) (g g' : Game) (i : Sample)
  (t p q : nat) (tl : GameTile) :
  Game_run e samples = Ok g ->
  board_piece_selected (board g) = Some p ->
  button1 (sample_pressed i) = true ->
  last (tiles_under_pointer (sampled i g)) = Some t ->
  tiles g !! t = Some tl -> tile_piece tl = Some q ->
  Game_tick i g = Ok g' ->
  board_piece_selected (board g') = Some q /\
  (exists pc qc,
     pieces g !! p = Some pc /\
     pieces (cleared_piece g p pc) !! q = Some qc /\
     pieces g' = <[q := mkPiece (GameTile_set_selected true (piece_base qc))
                                (piece_tile qc) true]>
                   (pieces (cleared_piece g p pc))) /\
  forall u ul', tiles g' !! u = Some ul' ->
    exists ul, tiles g !! u = Some ul /\ tile_piece ul' = tile_piece ul.
Proof.
  intros Hrun Hsel Hnow Hlast Htl Hocc Htick.
  assert (Hreach : reachable g) by by exists e, samples.
  pose proof (reachable_board_inv g Hreach) as Hi.
  destruct (run_pieces_sound e samples g Hrun) as (_ & Hcalm & _).
  destruct (highlight_over_tile e samples g i t tl Hrun Hlast Htl)
    as (g1 & Hhl & Hi1 & Hf1 & Hp1 & Hs1 & Ht1 & Htp).
  rewrite Hocc in Htp. rewrite Hsel in Hs1.
  assert (Hdown : button1 (mouse_pressed (mouse g1)) = true).
  { rewrite (fr_mouse _ _ Hf1). simpl. exact Hnow. }
  unfold Game_tick, GameBoard_tick in Htick. fold (sampled i g) in Htick.
  rewrite Hhl in Htick. simpl in Htick.
  assert (Hg1 : switch_guard g1 = Ok true).
  { unfold switch_guard. by rewrite Hdown, Hs1, Ht1, Htp. }
  destruct (highlighted_tile g1 t Hi1 Ht1) as (tl1 & Htl1 & Htp1).
  rewrite Htp in Htp1. injection Htp1 as Hocc1. symmetry in Hocc1.
  destruct (clear_selected_piece_spec g1 p Hi1 Hs1)
    as (pc & Hpc & Hclear & Hi2 & Hnf2).
  set (g2 := cleared_piece g1 p pc) in *.
  assert (Htp2 : tile_selected_piece g2 = Ok (Some q)).
  { rewrite (tile_selected_piece_Ok g2 t tl1); [by rewrite Hocc1|done|done]. }
  destruct (set_selected_piece_spec g2 q t tl1 Hi2 eq_refl Htl1 Hocc1)
    as (qc & Hqc & Hset & Hi3).
  set (g3 := marked_piece g2 q qc) in *.
  unfold when in Htick. rewrite Hg1 in Htick. simpl in Htick.
  unfold switch_branch in Htick. rewrite Hclear in Htick. simpl in Htick.
  rewrite Htp2 in Htick. simpl in Htick. rewrite Hset in Htick. simpl in Htick.
  assert (Htp3 : tile_selected_piece g3 = Ok (Some q)).
  { rewrite (tile_selected_piece_Ok g3 t tl1); [by rewrite Hocc1|done|done]. }
  assert (Hs3 : board_piece_selected (board g3) = Some q) by done.
  assert (Ht3 : board_tmx_tile_selected (board g3) = Some t) by done.
  assert (Hg2 : select_guard g3 = Ok false).
  { unfold select_guard. rewrite Hs3. simpl.
    by destruct (press_edge (mouse g1)). }
  assert (Hg3 : move_guard g3 = Ok false).
  { unfold move_guard. rewrite Hs3, Ht3, Htp3. simpl.
    by destruct (press_edge (mouse g1)). }
  rewrite Hg2 in Htick. simpl in Htick. rewrite Hg3 in Htick. simpl in Htick.
  destruct (run_pieces_loop e samples g g3 g' Hrun) as (Hp & Hti & Hb);
    [unfold g3, g2; simpl; by rewrite !length_insert, Hp1
    |unfold g3, g2; simpl; apply (fr_bpieces _ _ Hf1)|done|].
  rewrite Hp1 in Hpc.
  assert (Hg2p : pieces g2 = pieces (cleared_piece g p pc)).
  { unfold g2. simpl. by rewrite Hp1. }
  split; [by rewrite Hb|]. split.
  - exists pc, qc. split; [done|]. split; [by rewrite <- Hg2p|].
    rewrite Hp, <- Hg2p.
    change (pieces g3)
      with (<[q := on_base (GameTile_set_selected true) qc]> (pieces g2)).
    rewrite list_fmap_insert. f_equal.
    + unfold ticked_piece, on_base. simpl. f_equal.
      unfold g2 in Hqc. simpl in Hqc.
      apply list_lookup_insert_Some in Hqc as [(_ & <- & _)|(Hne & Hqc)]; [done|].
      rewrite Hp1 in Hqc. rewrite (Hcalm q qc Hqc); [done|].
      destruct (tile_selected (piece_base qc)) eqn:Hfl; [|done].
      apply (inv_piece_flag _ Hi _ _ Hqc) in Hfl. congruence.
    + apply list_eq. intros r. rewrite list_lookup_fmap.
      destruct (pieces g2 !! r) as [rc|] eqn:Hr; [|done]. simpl. f_equal.
      unfold ticked_piece. by rewrite (Hnf2 r rc Hr).
  - intros u ul' Hu. rewrite Hti in Hu. unfold g3, g2 in Hu. simpl in Hu.
    destruct (frame_tile _ _ _ _ Hf1 Hu) as (ul & Hul & _ & _ & Hpc' & _).
    exists ul. split; [done|]. by symmetry.
Qed.

(** ** Examples *)

Lemma after_release_run :
  Game_run three_tiles [press 498 265; release 498 265] = Ok after_release.
Proof. vm_compute. reflexivity. Defined.

Lemma after_move_tick : Game_tick (press 530 265) after_release = Ok after_move.
Proof. vm_compute. reflexivity. Defined.

Lemma after_idle_tick : Game_tick (release 530 265) after_release = Ok after_idle.
Proof. vm_compute. reflexivity. Defined.

Lemma tick_total_example :
  exists g', Game_tick (press 530 265) after_release = Ok g' /\ reachable g'.
Proof. apply Game_tick_total. exact after_release_reachable. Defined.

Lemma occupant_home_example :
  exists pc, pieces after_setup !! 10%nat = Some pc /\ piece_tile pc = Some 1%nat.
Proof.
  apply (occupant_home after_setup 1 (tile_or_init after_setup 1) 10).
  - exists two_tiles, []. vm_compute. reflexivity.
  - vm_compute. reflexivity.
  - vm_compute. reflexivity.
Defined.

Lemma two_samples_example :
  mouse_pressed (mouse after_move) = (true, false, false) /\
  mouse_pos (mouse after_move) = (530, 265) /\
  mouse_last_pressed (mouse after_move) = mouse_pressed (mouse after_release) /\
  mouse_last_pos (mouse after_move) = mouse_pos (mouse after_release).
Proof.
  apply (tick_keeps_two_samples (press 530 265) after_release after_move).
  exact after_move_tick.
Defined.

Lemma tiles_stay_example :
  length (tiles after_move) = length (tiles after_release) /\
  forall t tl', tiles after_move !! t = Some tl' ->
    exists tl, tiles after_release !! t = Some tl /\
      tile_index tl' = tile_index tl /\ tile_layer tl' = tile_layer tl /\
      tile_surface tl' = tile_surface tl /\ tile_rect tl' = tile_rect tl /\
      tile_x tl' = tile_x tl /\ tile_y tl' = tile_y tl.
Proof.
  apply (tick_never_moves_a_tile (press 530 265) after_release after_move).
  exact after_move_tick.
Defined.

Lemma nothing_allocated_example :
  length (pieces after_move) = length (pieces after_release) /\
  length (surfaces after_move) = length (surfaces after_release).
Proof.
  destruct (tick_allocates_nothing (press 530 265) after_release after_move)
    as (_ & _ & _ & _ & _ & Hp & Hs & _).
  - exact after_move_tick.
  - split; [exact Hp|exact Hs].
Defined.

Lemma twelve_pieces_example : length (pieces after_release) = 12%nat.
Proof.
  destruct (run_has_twelve_pieces three_tiles [press 498 265; release 498 265]
              after_release) as (Hn & _).
  - exact after_release_run.
  - exact Hn.
Defined.

Lemma cache_example :
  (exists rg, get_image "piece_black" after_release = Ok rg) <->
  "piece_black" = "piece_black" \/ "piece_black" = "piece_black_king".
Proof.
  destruct (run_cache_is_the_two_images three_tiles
              [press 498 265; release 498 265] after_release "piece_black")
    as (H & _).
  - exact after_release_run.
  - exact H.
Defined.

Lemma no_sound_example :
  get_sound "click" after_release
  = Raise (RuntimeError ("Failed to get unknown cached sound: " +:+ "click" +:+ "!")).
Proof.
  apply (run_has_no_sound three_tiles [press 498 265; release 498 265]).
  exact after_release_run.
Defined.

Lemma home_tile_example :
  tile_x (piece_base (piece_or_init after_release 11))
  = tile_x (tile_or_init after_release 1) /\
  tile_y (piece_base (piece_or_init after_release 11))
  = tile_y (tile_or_init after_release 1) /\
  exists rc, tile_rect (piece_base (piece_or_init after_release 11)) = Some rc /\
             rect_x rc = tile_x (tile_or_init after_release 1) /\
             rect_y rc = tile_y (tile_or_init after_release 1).
Proof.
  apply (piece_sits_on_its_home_tile three_tiles
           [press 498 265; release 498 265] after_release 11 1).
  - exact after_release_run.
  - vm_compute. reflexivity.
  - vm_compute. reflexivity.
  - vm_compute. reflexivity.
Defined.

Lemma blink_example :
  (tile_selected (piece_base (piece_or_init after_idle 11)) = false ->
   piece_blinking (piece_or_init after_idle 11) = false) /\
  exists s sf,
    tile_surface (piece_base (piece_or_init after_idle 11)) = Some s /\
    surfaces after_idle !! s = Some sf /\
    surf_alpha sf = Some (if piece_blinking (piece_or_init after_idle 11)
                          then GAME_BOARD_TILE_ALPHA_SELECTED
                          else GAME_BOARD_TILE_ALPHA_NORMAL).
Proof.
  apply (tick_shows_blink_state three_tiles [press 498 265; release 498 265]
           after_release after_idle (release 530 265) 11).
  - exact after_release_run.
  - exact after_idle_tick.
  - vm_compute. reflexivity.
Defined.

Lemma no_edge_example :
  exists tl, tiles after_release !! 1%nat = Some tl /\
             tile_piece (tile_or_init after_idle 1) = tile_piece tl.
Proof.
  destruct (no_press_edge_no_move (release 530 265) after_release after_idle)
    as (H & _).
  - vm_compute. reflexivity.
  - exact after_idle_tick.
  - apply (H 1%nat (tile_or_init after_idle 1)). vm_compute. reflexivity.
Defined.

Lemma idle_example :
  board_piece_selected (board after_idle)
  = board_piece_selected (board after_release) /\
  pieces after_idle = ticked_piece <$> pieces after_release /\
  forall t tl', tiles after_idle !! t = Some tl' ->
    exists tl, tiles after_release !! t = Some tl /\ tile_piece tl' = tile_piece tl.
Proof.
  apply (idle_tick_only_blinks three_tiles [press 498 265; release 498 265]
           after_release after_idle (release 530 265)).
  - exact after_release_run.
  - left. reflexivity.
  - exact after_idle_tick.
Defined.

Lemma bad_maps_example :
  Game_run one_layer [] = Raise KeyError /\
  Game_run no_inner [] = Raise IndexError.
Proof.
  split.
  - apply (setup_rejects_bad_maps one_layer
             (mkTiledMap 2 1 1 (fun _ _ _ => Some demo_image))
             demo_image demo_image []); [reflexivity|reflexivity|reflexivity|].
    simpl. lia.
  - apply (setup_rejects_bad_maps no_inner no_inner_map
             demo_image demo_image []); [reflexivity|reflexivity|reflexivity| |].
    + simpl. lia.
    + intros (x & y & _ & _ & [s Hs]). simpl in Hs. discriminate Hs.
Defined.

Lemma missing_files_example :
  Game_run no_map []
  = Raise (RuntimeError "Failed to find tmx file: wood_board.tmx!") /\
  Game_run no_images []
  = Raise (RuntimeError "Failed to find image file: checker_piece_black.png!") /\
  Game_run no_king []
  = Raise (RuntimeError "Failed to find image file: checker_piece_black_king.png!").
Proof.
  split; [|split].
  - apply (missing_file_errors no_map []). reflexivity.
  - apply (missing_file_errors no_images []); [by eexists|reflexivity].
  - apply (missing_file_errors no_king []); [by eexists|by eexists|reflexivity].
Defined.

Lemma registry_example :
  exists d, dict_get (tile_layer (tile_or_init after_release 3))
                     (board_tmx_tile_data (board after_release)) = Some d /\
            dict_get (tile_index (tile_or_init after_release 3)) d = Some 3%nat.
Proof.
  destruct (tile_registry_round_trip three_tiles
              [press 498 265; release 498 265] after_release) as (H & _).
  - exact after_release_run.
  - apply (H 3%nat (tile_or_init after_release 3)). vm_compute. reflexivity.
Defined.

Lemma layout_example :
  exists cx cy sf,
    (cx < tmx_width (board_tmx_data (board after_release)))%nat /\
    (cy < tmx_height (board_tmx_data (board after_release)))%nat /\
    get_tile_image (board_tmx_data (board after_release)) cx cy
                   (tile_layer (tile_or_init after_release 3)) = Some sf /\
    tile_x (tile_or_init after_release 3)
    = Z.of_nat cx * GAME_BOARD_TILE_WIDTH
      + (if (tile_layer (tile_or_init after_release 3) <? 2)%nat
         then board_x (board after_release) - x_modd after_release else 0) /\
    tile_y (tile_or_init after_release 3)
    = Z.of_nat cy * GAME_BOARD_TILE_HEIGHT
      + (if (tile_layer (tile_or_init after_release 3) <? 2)%nat
         then board_y (board after_release) - y_modd after_release else 0) /\
    tile_rect (tile_or_init after_release 3)
    = Some (mkRect (tile_x (tile_or_init after_release 3))
                   (tile_y (tile_or_init after_release 3))
                   (surf_w sf) (surf_h sf)).
Proof.
  apply (setup_lays_out_the_board three_tiles [press 498 265; release 498 265]
           after_release 3 (tile_or_init after_release 3)).
  - exact after_release_run.
  - vm_compute. reflexivity.
Defined.

Lemma draw_example :
  exists frame, Game_draw after_release = Ok frame /\ length frame = 18%nat.
Proof.
  destruct (draw_paints_tiles_then_pieces three_tiles
              [press 498 265; release 498 265] after_release [])
    as (H & _).
  - exact after_release_run.
  - eexists. split; [exact H|]. vm_compute. reflexivity.
Defined.

Lemma empty_click_example :
  board_piece_selected (board after_empty_click) = None /\
  pieces after_empty_click = ticked_piece <$> pieces three_tiles_setup /\
  forall u ul', tiles after_empty_click !! u = Some ul' ->
    exists ul, tiles three_tiles_setup !! u = Some ul /\
               tile_piece ul' = tile_piece ul.
Proof.
  apply (click_on_empty_tile_selects_nothing three_tiles [] three_tiles_setup
           after_empty_click (press 530 265) 3
           (tile_or_init three_tiles_setup 3)).
  - vm_compute. reflexivity.
  - vm_compute. reflexivity.
  - vm_compute. reflexivity.
  - vm_compute. reflexivity.
  - vm_compute. reflexivity.
  - vm_compute. reflexivity.
Defined.

Lemma select_click_example :
  board_piece_selected (board after_press) = Some 10%nat.
Proof.
  destruct (click_on_occupied_tile_selects_its_piece two_tiles [] after_setup
              after_press (press 498 265) 1 10 (tile_or_init after_setup 1))
    as (H & _).
  - vm_compute. reflexivity.
  - vm_compute. reflexivity.
  - vm_compute. reflexivity.
  - vm_compute. reflexivity.
  - vm_compute. reflexivity.
  - vm_compute. reflexivity.
  - vm_compute. reflexivity.
  - vm_compute. reflexivity.
  - exact H.
Defined.

Lemma switch_example :
  board_piece_selected (board after_switch) = Some 11%nat.
Proof.
  destruct (pressed_over_occupied_tile_switches_selection two_tiles
              [press 498 265] after_press after_switch (press 530 265)
              3 10 11 (tile_or_init after_press 3))
    as (H & _).
  - vm_compute. reflexivity.
  - vm_compute. reflexivity.
  - vm_compute. reflexivity.
  - vm_compute. reflexivity.
  - vm_compute. reflexivity.
  - vm_compute. reflexivity.
  - vm_compute. reflexivity.
  - exact H.
Defined.
